(** * Qutils: bar-history cleaner and per-day merger

    A shallow embedding of [cleaner.py] and [merger.py] and the
    verification of the properties stated about them.

    Conventions of the embedding.
    - A [datetime.time] is the number of microseconds since midnight, a
      [datetime.datetime] (and a pandas timestamp) the number of
      microseconds since day 0 at 00:00, a [datetime.date] a day number.
      Sub-microsecond digits of pandas timestamps and the year bounds of
      [datetime] are not represented.
    - Python integers are unbounded integers.  The arithmetic pandas does
      on the daily volumes is kept as it is: a sum or a difference of
      [int64] values wraps at 64 bits, and a [float64] keeps 53 bits of an
      integer.
    - A function that can raise returns a [result]; a loop that need not
      terminate takes a number of iterations it may spend (fuel) and
      returns [None] when that is used up. *)

From Stdlib Require Import String Ascii ZArith Bool Lia List Permutation Sorted.
From Stdlib Require Import OrderedTypeEx.
Import ListNotations.
Local Open Scope Z_scope.

(** ** Exceptions and results *)

Inductive exn : Type :=
| AssertionError
| KeyError (key : string)
| TypeError
| ValueError
| AttributeError
| Exception (msg : string)
| SystemExit.

Inductive result (A : Type) : Type :=
| Ok (a : A)
| Raise (e : exn).
Arguments Ok {A} a.
Arguments Raise {A} e.

Definition bind {A B : Type} (r : result A) (k : A -> result B) : result B :=
  match r with
  | Ok a => k a
  | Raise e => Raise e
  end.

Notation "x <- c ;; k" := (bind c (fun x => k))
  (at level 61, c at next level, right associativity).
Notation "' p <- c ;; k" := (bind c (fun x => let p := x in k))
  (at level 61, p pattern, c at next level, right associativity).

Definition is_ok {A : Type} (r : result A) : bool :=
  match r with Ok _ => true | Raise _ => false end.

Definition raises {A : Type} (r : result A) : Prop :=
  exists e, r = Raise e.

Fixpoint mapM {A B : Type} (f : A -> result B) (l : list A) : result (list B) :=
  match l with
  | [] => Ok []
  | a :: l' => b <- f a ;; bs <- mapM f l' ;; Ok (b :: bs)
  end.

(** ** Times of day and timestamps *)

Definition USEC_PER_MIN : Z := 60000000.
Definition USEC_PER_HOUR : Z := 3600000000.
Definition USEC_PER_DAY : Z := 86400000000.

(** [dt.time(h, m)] *)
Definition mk_time (h m : Z) : Z := (h * 60 + m) * USEC_PER_MIN.

Definition valid_time (t : Z) : Prop := 0 <= t < USEC_PER_DAY.

(** [x.time()], [x.date()], [x.hour], [x.minute] of a datetime [x] *)
Definition time_of (x : Z) : Z := x mod USEC_PER_DAY.
Definition date_of (x : Z) : Z := x / USEC_PER_DAY.
Definition hour (x : Z) : Z := time_of x / USEC_PER_HOUR.
Definition minute (x : Z) : Z := (time_of x / USEC_PER_MIN) mod 60.

(** [dt.datetime.combine(d, t)] *)
Definition combine_dt (d t : Z) : Z := d * USEC_PER_DAY + t.

(** [dt.timedelta(minutes=n)] *)
Definition timedelta_minutes (n : Z) : Z := n * USEC_PER_MIN.

Definition MKT_OPEN : Z := mk_time 10 0.
Definition MKT_CLOSE : Z := mk_time 18 40.

(** ** The session time grid: [get_full_list_of_daily_bar_times] *)

Module Grid.

Record loop_state : Type := {
  var_dt : Z;
  full_list_of_daily_bar_times : list Z
}.

(** The test guarding the [append]:
    [skip_daily_clearing or var_dt.hour != 14
     or var_dt.minute not in [0, 1, 2, 3, 4]] *)
Definition keeps (skip_daily_clearing : bool) (x : Z) : bool :=
  skip_daily_clearing
  || negb (hour x =? 14)
  || negb (existsb (Z.eqb (minute x)) [0; 1; 2; 3; 4]).

Definition loop_body (period_min : Z) (skip_daily_clearing : bool)
    (st : loop_state) : loop_state :=
  {| var_dt := var_dt st + timedelta_minutes period_min;
     full_list_of_daily_bar_times :=
       if keeps skip_daily_clearing (var_dt st)
       then full_list_of_daily_bar_times st ++ [time_of (var_dt st)]
       else full_list_of_daily_bar_times st |}.

(** [while var_dt.time() < end_time: ...], spending at most [fuel]
    iterations. *)
Fixpoint while_loop (fuel : nat) (end_time period_min : Z)
    (skip_daily_clearing : bool) (st : loop_state) : option loop_state :=
  if time_of (var_dt st) <? end_time then
    match fuel with
    | O => None
    | S fuel' =>
        while_loop fuel' end_time period_min skip_daily_clearing
          (loop_body period_min skip_daily_clearing st)
    end
  else Some st.

(** [today] stands for [dt.date.today()]. *)
Definition get_full_list_of_daily_bar_times (fuel : nat) (today : Z)
    (start_time end_time period_min : Z) (skip_daily_clearing : bool)
  : option (result (list Z)) :=
  if start_time <=? end_time then
    match while_loop fuel end_time period_min skip_daily_clearing
            {| var_dt := combine_dt today start_time;
               full_list_of_daily_bar_times := [] |} with
    | Some st => Some (Ok (full_list_of_daily_bar_times st))
    | None => None
    end
  else Some (Raise AssertionError).

(** The times [start, start + period, ...] below [end_time], [n] of them. *)
Definition steps (start_time end_time period_min : Z) : nat :=
  Z.to_nat ((end_time - start_time + timedelta_minutes period_min - 1)
            / timedelta_minutes period_min).

Definition every (start_time period_min : Z) (i n : nat) : list Z :=
  map (fun k => start_time + Z.of_nat k * timedelta_minutes period_min)
      (seq i n).

End Grid.

(** ** Tables

    A [DataFrame] is its column index (label and dtype of every column) and
    its rows; a row carries its index label and its cells, keyed by column
    label.  Floats are kept as mantissa and binary exponent and are never
    computed with. *)

Inductive dtype : Type := int64 | int32 | float64 | bool_ | object | datetime64.

Inductive cell : Type :=
| CInt (z : Z)
| CFloat (m e : Z)
| CStr (s : string)
| CStamp (t : Z)
| CNaN.

Record Row : Type := {
  label : Z;
  fields : list (string * cell)
}.

Record DataFrame : Type := {
  columns : list (string * dtype);
  rows : list Row
}.

Definition dtype_eqb (a b : dtype) : bool :=
  match a, b with
  | int64, int64 | int32, int32 | float64, float64 | bool_, bool_
  | object, object | datetime64, datetime64 => true
  | _, _ => false
  end.

Definition cell_eqb (a b : cell) : bool :=
  match a, b with
  | CInt x, CInt y => x =? y
  | CFloat m e, CFloat m' e' => (m =? m') && (e =? e')
  | CStr s, CStr s' => String.eqb s s'
  | CStamp t, CStamp t' => t =? t'
  | CNaN, CNaN => true
  | _, _ => false
  end.

(** [pd.api.types.is_integer_dtype] *)
Definition is_integer_dtype (d : dtype) : bool :=
  match d with int64 | int32 => true | _ => false end.

Definition names (df : DataFrame) : list string := map fst (columns df).

(** [name in df.columns] *)
Definition has_column (df : DataFrame) (name : string) : bool :=
  existsb (String.eqb name) (names df).

Definition occurrences (name : string) (l : list string) : nat :=
  List.length (filter (String.eqb name) l).

Fixpoint lookup {V : Type} (name : string) (l : list (string * V)) : option V :=
  match l with
  | [] => None
  | (k, v) :: l' => if String.eqb name k then Some v else lookup name l'
  end.

(** Replace the value under [name], or add it at the end. *)
Fixpoint assoc_set {V : Type} (name : string) (v : V) (l : list (string * V))
  : list (string * V) :=
  match l with
  | [] => [(name, v)]
  | (k, w) :: l' =>
      if String.eqb name k then (k, v) :: l' else (k, w) :: assoc_set name v l'
  end.

Definition cell_of (name : string) (r : Row) : cell :=
  match lookup name (fields r) with
  | Some c => c
  | None => CNaN
  end.

Definition set_cell (name : string) (c : cell) (r : Row) : Row :=
  {| label := label r; fields := assoc_set name c (fields r) |}.

(** [df[name]] as a Series: a label carried by several columns selects a
    table, on which the Series operations used here raise. *)
Definition column (df : DataFrame) (name : string) : result (list cell) :=
  match occurrences name (names df) with
  | O => Raise (KeyError name)
  | S O => Ok (map (cell_of name) (rows df))
  | _ => Raise AttributeError
  end.

(** [df[name].dtype] *)
Definition column_dtype (df : DataFrame) (name : string) : result dtype :=
  match occurrences name (names df), lookup name (columns df) with
  | S O, Some d => Ok d
  | O, _ => Raise (KeyError name)
  | _, _ => Raise AttributeError
  end.

(** [df[name] = values], the values having dtype [d]. *)
Definition set_column (df : DataFrame) (name : string) (d : dtype)
    (values : list cell) : result DataFrame :=
  match occurrences name (names df) with
  | O | S O =>
      Ok {| columns := assoc_set name d (columns df);
            rows := map (fun rv => set_cell name (snd rv) (fst rv))
                        (combine (rows df) values) |}
  | _ => Raise ValueError
  end.

(** [df.drop(labels, axis='columns')] *)
Definition drop_columns (labels : list string) (df : DataFrame) : DataFrame :=
  let kept {V : Type} (kv : string * V) :=
    negb (existsb (String.eqb (fst kv)) labels) in
  {| columns := filter kept (columns df);
     rows := map (fun r => {| label := label r;
                              fields := filter kept (fields r) |})
                 (rows df) |}.

(** [df[mask]] for a mask computed row by row *)
Definition select_rows (keep : Row -> bool) (df : DataFrame) : DataFrame :=
  {| columns := columns df; rows := filter keep (rows df) |}.

(** The timestamp of a row: its ['datetime'] cell.  Every use follows a
    step that has made the column a datetime column.  A missing timestamp
    (NaT) has no number here; what is said of the volumes of merged tables
    and of when the merge returns is said of tables without one
    ([Merger.typed_cells]). *)
Definition stamp (r : Row) : Z :=
  match cell_of "datetime" r with
  | CStamp t => t
  | _ => 0
  end.

(** ** Sets, [unique], [duplicated], [sorted] *)

Definition mem (x : Z) (s : list Z) : bool := existsb (Z.eqb x) s.

(** [Series.unique()]: the distinct values, in order of appearance *)
Fixpoint unique (l : list Z) : list Z :=
  match l with
  | [] => []
  | x :: l' => x :: filter (fun y => negb (y =? x)) (unique l')
  end.

Fixpoint unique_cells (l : list cell) : list cell :=
  match l with
  | [] => []
  | x :: l' => x :: filter (fun y => negb (cell_eqb y x)) (unique_cells l')
  end.

(** [set(l)] is kept as a list without repetition; [a - b], [a | b] *)
Definition set_of (l : list Z) : list Z := unique l.
Definition set_diff (a b : list Z) : list Z :=
  filter (fun x => negb (mem x b)) a.
Definition set_union (a b : list Z) : list Z := unique (a ++ b).

(** [Series.duplicated()]: a value is marked when it occurred before *)
Fixpoint duplicated (seen keys : list Z) : list bool :=
  match keys with
  | [] => []
  | k :: keys' => mem k seen :: duplicated (k :: seen) keys'
  end.

(** [df.drop_duplicates('datetime')], keeping first occurrences *)
Fixpoint drop_duplicates (seen : list Z) (l : list Row) : list Row :=
  match l with
  | [] => []
  | r :: l' =>
      if mem (stamp r) seen then drop_duplicates seen l'
      else r :: drop_duplicates (stamp r :: seen) l'
  end.

(** Sorting by an integer key.  The order of rows with equal keys, which
    pandas' default sort leaves open, is their input order here. *)
Fixpoint insert_by {A : Type} (key : A -> Z) (x : A) (l : list A) : list A :=
  match l with
  | [] => [x]
  | y :: l' => if key x <=? key y then x :: l else y :: insert_by key x l'
  end.

Fixpoint sort_by {A : Type} (key : A -> Z) (l : list A) : list A :=
  match l with
  | [] => []
  | x :: l' => insert_by key x (sort_by key l')
  end.

(** [sorted(l)] and [df.sort_values('datetime')] *)
Definition sorted (l : list Z) : list Z := sort_by (fun x => x) l.
Definition sort_values (df : DataFrame) : DataFrame :=
  {| columns := columns df; rows := sort_by stamp (rows df) |}.

(** ** Texts *)

(** [a] is [b] with some characters deleted. *)
Inductive subsequence {A : Type} : list A -> list A -> Prop :=
| subsequence_nil : subsequence [] []
| subsequence_skip x a b : subsequence a b -> subsequence a (x :: b)
| subsequence_keep x a b : subsequence a b -> subsequence (x :: a) (x :: b).

(** ** [cleaner.py] *)

Module Cleaner.

(** [KNOWN_PERIODS]: the dictionary, and [KNOWN_PERIODS.get(period)].  A
    key is found by Python equality, under which an integral float equals
    the integer; [None] is both "no such key" and the value [None]. *)
Definition KNOWN_PERIODS : list (cell * option Z) :=
  [ (CInt 1, Some 1); (CInt 2, Some 2); (CInt 5, Some 5); (CInt 10, Some 10);
    (CInt 15, Some 15); (CInt 30, Some 30); (CInt 60, Some 60);
    (CStr "daily", None); (CStr "weekly", None); (CStr "Monthly", None) ].

Definition float_as_Z (m e : Z) : option Z :=
  if 0 <=? e then Some (m * 2 ^ e)
  else if m mod 2 ^ (- e) =? 0 then Some (m / 2 ^ (- e)) else None.

Definition key_eqb (k period : cell) : bool :=
  match k, period with
  | CInt x, CFloat m e =>
      match float_as_Z m e with Some y => x =? y | None => false end
  | _, _ => cell_eqb k period
  end.

Fixpoint dict_get (d : list (cell * option Z)) (period : cell) : option Z :=
  match d with
  | [] => None
  | (k, v) :: d' => if key_eqb k period then v else dict_get d' period
  end.

(** The command-line options [process_dataframe] reads. *)
Record Args : Type := {
  stock : bool;
  extended_hours : bool;
  keep_date_time : bool;
  start_date : option Z;
  end_date : option Z;
  interactive : bool
}.

(** What the run takes from outside: today's date, and whether the answer
    typed at a prompt, lower-cased, is ['n']. *)
Record Env : Type := {
  today : Z;
  answers_n : bool
}.

(** *** Strings *)

Definition code (c : ascii) : N := N_of_ascii c.

(** [re.sub(r'[<>]', '', x)] *)
Fixpoint remove_angles (x : string) : string :=
  match x with
  | EmptyString => EmptyString
  | String c x' =>
      if ((c =? "<") || (c =? ">"))%char then remove_angles x'
      else String c (remove_angles x')
  end.

(** [str.lower], on characters up to code 255 *)
Definition lower_char (c : ascii) : ascii :=
  let n := code c in
  if ((65 <=? n) && (n <=? 90)
      || (192 <=? n) && (n <=? 222) && negb (n =? 215))%N
  then ascii_of_N (n + 32) else c.

Fixpoint lower (x : string) : string :=
  match x with
  | EmptyString => EmptyString
  | String c x' => String (lower_char c) (lower x')
  end.

(** [lambda x: re.sub(r'[<>]', '', x).lower()] *)
Definition clean_column_name (x : string) : string := lower (remove_angles x).

(** [.] of a regular expression: any character but the newline *)
Definition dot (c : ascii) : bool := negb (code c =? 10)%N.

Fixpoint strip_prefix (p s : string) : option string :=
  match p, s with
  | EmptyString, _ => Some s
  | String a p', String b s' =>
      if (a =? b)%char then strip_prefix p' s' else None
  | String _ _, EmptyString => None
  end.

(** The length of the match of [.?lit.?] at the start of [s]: each [.?]
    takes a character when it can, the first one giving it back when the
    literal does not follow. *)
Definition match_token (lit s : string) : option nat :=
  let closing (rest : string) : nat :=
    match rest with
    | String c _ => if dot c then 1%nat else 0%nat
    | EmptyString => 0%nat
    end in
  let without_first :=
    match strip_prefix lit s with
    | Some rest => Some (String.length lit + closing rest)%nat
    | None => None
    end in
  match s with
  | String c s' =>
      if dot c then
        match strip_prefix lit s' with
        | Some rest => Some (1 + String.length lit + closing rest)%nat
        | None => without_first
        end
      else without_first
  | EmptyString => without_first
  end.

(** The match of [.?SPBFUT.?|.?SPFB.?] at the start of [s] *)
Definition match_here (s : string) : option nat :=
  match match_token "SPBFUT" s with
  | Some n => Some n
  | None => match_token "SPFB" s
  end.

(** [re.sub(r'.?SPBFUT.?|.?SPFB.?', '', x)]: matches are removed from left
    to right; [skip] characters of the current match are still to drop. *)
Fixpoint sub_tokens (skip : nat) (x : string) : string :=
  match x with
  | EmptyString => EmptyString
  | String c x' =>
      match skip with
      | S k => sub_tokens k x'
      | O =>
          match match_here x with
          | Some (S n) => sub_tokens n x'
          | _ => String c (sub_tokens 0 x')
          end
      end
  end.

(** [str.strip()] *)
Definition is_space (c : ascii) : bool :=
  existsb (N.eqb (code c)) [9; 10; 11; 12; 13; 28; 29; 30; 31; 32; 133; 160]%N.

Fixpoint lstrip (l : list ascii) : list ascii :=
  match l with
  | c :: l' => if is_space c then lstrip l' else l
  | [] => []
  end.

Definition strip (x : string) : string :=
  string_of_list_ascii
    (rev (lstrip (rev (lstrip (list_ascii_of_string x))))).

(** [lambda x: re.sub(r'.?SPBFUT.?|.?SPFB.?', '', x).strip()] *)
Definition clean_ticker (x : string) : string := strip (sub_tokens 0 x).

(** [lambda x: '0' + x if len(x) == 5 else x] *)
Definition pad_time (x : string) : string :=
  if (String.length x =? 5)%nat then String "0" x else x.

(** *** The gap detector *)

Inductive line : Type :=
| TotalBars (n : nat)
| Warning (date : Z) (missing : option (nat * nat * Z * Z))
    (irregular : option (nat * Z))
| NoMissingOrIrregular.

Definition is_warning (l : line) : bool :=
  match l with Warning _ _ _ => true | _ => false end.

(** [set(df[df['datetime'].dt.date == date]['datetime'].dt.time)] *)
Definition times_on (df : DataFrame) (date : Z) : list Z :=
  set_of (map (fun r => time_of (stamp r))
              (filter (fun r => date_of (stamp r) =? date) (rows df))).

(** The body of the loop over the dates: the line printed for [date]. *)
Definition check_date (full_times_set : list Z) (df : DataFrame) (date : Z)
  : list line :=
  let times_set := times_on df date in
  let missing_bars_set := set_diff full_times_set times_set in
  let irregular_bars_set := set_diff times_set full_times_set in
  if negb (List.length missing_bars_set =? 0)%nat
     || negb (List.length irregular_bars_set =? 0)%nat
  then
    [ Warning date
        (if negb (List.length missing_bars_set =? 0)%nat
         then Some (List.length missing_bars_set,
                    List.length full_times_set,
                    hd 0 (sorted missing_bars_set),
                    last (sorted missing_bars_set) 0)
         else None)
        (if negb (List.length irregular_bars_set =? 0)%nat
         then Some (List.length (set_diff times_set full_times_set),
                    last (sorted (set_diff times_set full_times_set)) 0)
         else None) ]
  else [].

(** [intraday_data_check]: what it prints.  [stock] is [args.stock]. *)
Definition intraday_data_check (fuel : nat) (env : Env) (stock : bool)
    (df : DataFrame) (period_min : Z) : option (result (list line)) :=
  match Grid.get_full_list_of_daily_bar_times fuel (today env)
          MKT_OPEN MKT_CLOSE period_min stock with
  | None => None
  | Some (Raise e) => Some (Raise e)
  | Some (Ok l) =>
      let full_times_set := set_of l in
      let warnings :=
        flat_map (check_date full_times_set df)
          (sorted (unique (map (fun r => date_of (stamp r)) (rows df)))) in
      Some (Ok ([TotalBars (List.length full_times_set)]
                ++ warnings
                ++ (if (List.length warnings =? 0)%nat
                    then [NoMissingOrIrregular] else [])))
  end.

(** *** What the gap detector is to report

    The requirement on the intraday check, in its own terms: for the dates
    of the series, the grid times not observed ([missing]) and the observed
    times not on the grid ([irregular]). *)

Definition observed (df : DataFrame) (d t : Z) : Prop :=
  exists r, In r (rows df) /\ date_of (stamp r) = d /\ time_of (stamp r) = t.

(** [s] lists the times satisfying [P], each once. *)
Definition lists_set (s : list Z) (P : Z -> Prop) : Prop :=
  NoDup s /\ forall t, In t s <-> P t.

Definition earliest (lo : Z) (s : list Z) : Prop :=
  In lo s /\ forall t, In t s -> lo <= t.

Definition latest (hi : Z) (s : list Z) : Prop :=
  In hi s /\ forall t, In t s -> t <= hi.

Definition missing_reported (missing : list Z) (total : nat)
    (m : option (nat * nat * Z * Z)) : Prop :=
  match m with
  | None => missing = []
  | Some (count, n, lo, hi) =>
      count = List.length missing /\ n = total
      /\ earliest lo missing /\ latest hi missing
  end.

Definition irregular_reported (irregular : list Z) (i : option (nat * Z))
  : Prop :=
  match i with
  | None => irregular = []
  | Some (count, hi) => count = List.length irregular /\ latest hi irregular
  end.

Definition gaps_reported (grid : list Z) (df : DataFrame) (lines : list line)
  : Prop :=
  forall d m i,
    In (Warning d m i) lines <->
    (exists t, observed df d t)
    /\ exists full missing irregular,
         lists_set full (fun t => In t grid)
         /\ lists_set missing (fun t => In t grid /\ ~ observed df d t)
         /\ lists_set irregular (fun t => observed df d t /\ ~ In t grid)
         /\ (missing <> [] \/ irregular <> [])
         /\ missing_reported missing (List.length full) m
         /\ irregular_reported irregular i.

(** *** The cleaning pipeline: [process_dataframe] *)

Section Pipeline.

(** Library functions the pipeline calls on strings and foreign values:
    [dt.datetime.fromisoformat] and [pd.to_datetime(..., errors='raise')]
    ([None] when they raise), [str(x)] and [int(x)] for a cell that is not
    a string, respectively not an integer. *)
Variable fromisoformat : string -> option Z.
Variable to_datetime : list cell -> option (list Z).
Variable str : cell -> string.
Variable int : cell -> option Z.

Definition astype_str (c : cell) : string :=
  match c with
  | CStr s => s
  | _ => str c
  end.

Definition astype_int (c : cell) : result cell :=
  match c with
  | CInt z => Ok (CInt z)
  | _ => match int c with
         | Some z => Ok (CInt z)
         | None => Raise ValueError
         end
  end.

(** [df.columns = list(map(f, df.columns))] *)
Definition rename_columns (f : string -> string) (df : DataFrame) : DataFrame :=
  {| columns := map (fun nd => (f (fst nd), snd nd)) (columns df);
     rows := map (fun r =>
                    {| label := label r;
                       fields := map (fun nc => (f (fst nc), snd nc))
                                     (fields r) |})
                 (rows df) |}.

(** Checking if period is unique; [period = df['per'].iloc[0]] *)
Definition check_period (df : DataFrame) : result cell :=
  per <- column df "per" ;;
  if negb (List.length (unique_cells per) =? 1)%nat
  then Raise (Exception "Period data is not unique")
  else Ok (hd CNaN per).

(** Converting ticker *)
Definition convert_ticker (df : DataFrame) : result DataFrame :=
  ticker <- column df "ticker" ;;
  ticker' <- mapM (fun c => match c with
                            | CStr x => Ok (CStr (clean_ticker x))
                            | _ => Raise TypeError
                            end) ticker ;;
  set_column df "ticker" object ticker'.

(** Creating datetime column *)
Definition create_datetime (df : DataFrame) : result DataFrame :=
  if has_column df "date" && has_column df "time" then
    date <- column df "date" ;;
    time <- column df "time" ;;
    datetime <- mapM (fun dt =>
                  match fromisoformat
                          (astype_str (fst dt) ++ " "
                           ++ pad_time (astype_str (snd dt)))%string with
                  | Some t => Ok (CStamp t)
                  | None => Raise ValueError
                  end) (combine date time) ;;
    set_column df "datetime" datetime64 datetime
  else if has_column df "datetime" then
    datetime <- column df "datetime" ;;
    match to_datetime datetime with
    | Some ts =>
        if (List.length ts =? List.length datetime)%nat
        then set_column df "datetime" datetime64 (map CStamp ts)
        else Raise ValueError
    | None => Raise ValueError
    end
  else Raise (Exception "Neither date, time nor datetime in source data.").

(** Casting ['vol'] to integer dtype *)
Definition cast_vol (df : DataFrame) : result DataFrame :=
  if has_column df "vol" then
    d <- column_dtype df "vol" ;;
    if negb (is_integer_dtype d) then
      vol <- column df "vol" ;;
      vol' <- mapM astype_int vol ;;
      set_column df "vol" int64 vol'
    else Ok df
  else Ok df.

(** Dropping date and time columns *)
Definition drop_date_time (args : Args) (df : DataFrame) : DataFrame :=
  if negb (keep_date_time args)
     && (has_column df "date" && has_column df "time")
  then drop_columns ["date"; "time"]%string df
  else df.

(** Dropping all data out of optional start and end dates *)
Definition drop_by_dates (args : Args) (df : DataFrame) : DataFrame :=
  let df := match start_date args with
            | Some d => select_rows (fun r => d <=? date_of (stamp r)) df
            | None => df
            end in
  match end_date args with
  | Some d => select_rows (fun r => date_of (stamp r) <=? d) df
  | None => df
  end.

(** Dropping extended hours *)
Definition in_session (r : Row) : bool :=
  (MKT_OPEN <=? time_of (stamp r)) && (time_of (stamp r) <? MKT_CLOSE).

Definition drop_extended_hours (args : Args) (df : DataFrame) : DataFrame :=
  if extended_hours args then df else select_rows in_session df.

(** Checking for duplicates *)
Definition check_duplicates (df : DataFrame) : DataFrame :=
  if (0 <? List.length (filter (fun b : bool => b)
                          (duplicated [] (map stamp (rows df)))))%nat
  then {| columns := columns df; rows := drop_duplicates [] (rows df) |}
  else df.

(** [process_dataframe] up to the last change of a column: the table with
    its ['datetime'] column, and the period found. *)
Definition typed (df : DataFrame) (args : Args) : result (DataFrame * cell) :=
  let df := rename_columns clean_column_name df in
  period <- check_period df ;;
  df <- convert_ticker df ;;
  df <- create_datetime df ;;
  df <- cast_vol df ;;
  let df := drop_date_time args df in
  Ok (df, period).

(** The rows [process_dataframe] returns, from the table with its
    timestamps: date and session filters, first occurrences, sorted. *)
Definition kept_rows (args : Args) (mid : DataFrame) : list Row :=
  sort_by stamp
    (drop_duplicates []
       (rows (drop_extended_hours args (drop_by_dates args mid)))).

(** [process_dataframe] up to the intraday check: the table it will return
    and the period. *)
Definition cleaned (env : Env) (df : DataFrame) (args : Args)
  : result (DataFrame * cell) :=
  tp <- typed df args ;;
  let df := drop_by_dates args (fst tp) in
  let df := drop_extended_hours args df in
  let df := check_duplicates df in
  let df := sort_values df in
  if interactive args && answers_n env then Raise SystemExit
  else Ok (df, snd tp).

(** [process_dataframe]: the table returned and the lines the intraday
    check printed (none when the check is skipped). *)
Definition process_dataframe (fuel : nat) (env : Env) (df : DataFrame)
    (args : Args) : option (result (DataFrame * list line)) :=
  match cleaned env df args with
  | Raise e => Some (Raise e)
  | Ok (df, period) =>
      match dict_get KNOWN_PERIODS period with
      | Some period_min =>
          if period_min =? 0 then Some (Ok (df, []))
          else
            match intraday_data_check fuel env (stock args) df period_min with
            | None => None
            | Some (Raise e) => Some (Raise e)
            | Some (Ok lines) => Some (Ok (df, lines))
            end
      | None => Some (Ok (df, []))
      end
  end.

(** *** What a second run needs

    The table [process_dataframe] returns, as the next run will find it. *)

(** The column labels, in the column index and in the rows, are as
    [clean_column_name] leaves them. *)
Definition clean_labels (df : DataFrame) : Prop :=
  (forall n, In n (names df) -> clean_column_name n = n)
  /\ (forall r k, In r (rows df) -> In k (map fst (fields r)) ->
                  clean_column_name k = k).

Definition uniform_period (period : cell) (df : DataFrame) : Prop :=
  occurrences "per" (names df) = 1%nat
  /\ forall r, In r (rows df) -> cell_of "per" r = period.

Definition string_tickers (df : DataFrame) : Prop :=
  occurrences "ticker" (names df) = 1%nat
  /\ lookup "ticker" (columns df) = Some object
  /\ forall r, In r (rows df) ->
       exists t, lookup "ticker" (fields r) = Some (CStr t).

Definition timestamped (df : DataFrame) : Prop :=
  occurrences "datetime" (names df) = 1%nat
  /\ lookup "datetime" (columns df) = Some datetime64
  /\ forall r, In r (rows df) ->
       exists t, lookup "datetime" (fields r) = Some (CStamp t).

Definition integer_vol (df : DataFrame) : Prop :=
  has_column df "vol" = true ->
  exists d, column_dtype df "vol" = Ok d /\ is_integer_dtype d = true.

Definition date_time_dropped (args : Args) (df : DataFrame) : Prop :=
  negb (keep_date_time args)
  && (has_column df "date" && has_column df "time") = false.

(** The ticker clean-up leaves the tickers of the table as they are. *)
Definition stable_tickers (df : DataFrame) : bool :=
  forallb (fun r => match cell_of "ticker" r with
                    | CStr t => String.eqb (clean_ticker t) t
                    | _ => false
                    end) (rows df).

(** Where the table kept its ['date'] and ['time'] columns, the
    timestamps are what these columns give. *)
Definition dated_by_date_time (df : DataFrame) : Prop :=
  has_column df "date" && has_column df "time" = true ->
  occurrences "date" (names df) = 1%nat
  /\ occurrences "time" (names df) = 1%nat
  /\ forall r, In r (rows df) ->
       fromisoformat (astype_str (cell_of "date" r) ++ " "
                      ++ pad_time (astype_str (cell_of "time" r)))%string
       = Some (stamp r).

Definition rerunnable (args : Args) (period : cell) (df : DataFrame) : Prop :=
  clean_labels df /\ uniform_period period df /\ string_tickers df
  /\ timestamped df /\ dated_by_date_time df /\ integer_vol df
  /\ date_time_dropped args df.

End Pipeline.

End Cleaner.

(** ** [merger.py] *)

Module Merger.

Record Args : Type := {
  check_only : bool;
  start_date : option Z;
  end_date : option Z;
  interactive : bool
}.

(** *** [check_source_data] *)

(** [Series.sort_index()] of the Series [df.dtypes] *)
Fixpoint insert_label (x : string * dtype) (l : list (string * dtype))
  : list (string * dtype) :=
  match l with
  | [] => [x]
  | y :: l' =>
      if String.leb (fst x) (fst y) then x :: l else y :: insert_label x l'
  end.

Fixpoint sort_index (l : list (string * dtype)) : list (string * dtype) :=
  match l with
  | [] => []
  | x :: l' => insert_label x (sort_index l')
  end.

Definition list_eqb (a b : list string) : bool :=
  (List.length a =? List.length b)%nat
  && forallb (fun p => String.eqb (fst p) (snd p)) (combine a b).

(** [set(a) != set(b)] is the negation of this. *)
Definition set_eqb (a b : list string) : bool :=
  forallb (fun x => existsb (String.eqb x) b) a
  && forallb (fun x => existsb (String.eqb x) a) b.

(** [a.compare(b)]: the entries that differ; it raises unless the two Series
    carry the same labels in the same order. *)
Definition compare (a b : list (string * dtype))
  : result (list (string * dtype * dtype)) :=
  if list_eqb (map fst a) (map fst b)
  then Ok (map (fun p => (fst (fst p), snd (fst p), snd (snd p)))
               (filter (fun p => negb (dtype_eqb (snd (fst p)) (snd (snd p))))
                       (combine a b)))
  else Raise ValueError.

(** The body of the loop, for the [i]-th table. *)
Definition check_one (i : nat) (df1_dtypes : list (string * dtype))
    (df : DataFrame) : result (list (string * dtype)) :=
  if negb (has_column df "datetime")
  then Raise (Exception "No datetime column")
  else if negb (has_column df "vol")
  then Raise (Exception "No volume column")
  else
    d <- column_dtype df "vol" ;;
    if negb (is_integer_dtype d)
    then Raise (Exception "Volume column is not integer")
    else if (i =? 0)%nat then Ok (sort_index (columns df))
    else if negb (set_eqb (names df) (map fst df1_dtypes))
    then Raise (Exception "Source files have different columns")
    else
      diff <- compare df1_dtypes (sort_index (columns df)) ;;
      if negb (List.length diff =? 0)%nat
      then Raise (Exception "Files have different data types")
      else Ok df1_dtypes.

Definition check_source_data (source_dfs : DataFrame * DataFrame)
  : result unit :=
  df1_dtypes <- check_one 0 [] (fst source_dfs) ;;
  _ <- check_one 1 df1_dtypes (snd source_dfs) ;;
  Ok tt.

(** *** [merge_data] *)

Definition date (r : Row) : Z := date_of (stamp r).

(** [df['datetime'].dt.date.unique()] *)
Definition unique_dates (df : DataFrame) : list Z := unique (map date (rows df)).

(** The values the progress lines are built from: the [.dt] accessor needs
    a datetime column, ['ticker'] must be a column, and [min()] of no dates
    at all raises. *)
Definition describe (df : DataFrame) : result unit :=
  d <- column_dtype df "datetime" ;;
  if negb (dtype_eqb d datetime64) then Raise AttributeError
  else
    _ <- column df "ticker" ;;
    if (List.length (unique_dates df) =? 0)%nat then Raise ValueError
    else Ok tt.

(** Dropping data before and after given optional dates *)
Definition drop_by_dates (args : Args) (df : DataFrame) : DataFrame :=
  let df := match start_date args with
            | Some d => select_rows (fun r => d <=? date r) df
            | None => df
            end in
  match end_date args with
  | Some d => select_rows (fun r => date r <=? d) df
  | None => df
  end.

(** The volume of a bar.  [check_source_data] has passed when the script
    runs [merge_data], so the cells of ['vol'] are integers; what is said
    below about volumes is said of tables with such cells
    ([typed_cells]). *)
Definition vol (r : Row) : Z :=
  match cell_of "vol" r with
  | CInt z => z
  | _ => 0
  end.

Definition sum (l : list Z) : Z := fold_right Z.add 0 l.

(** What an [int64] keeps of an integer: 64 bits, two's complement. *)
Definition wrap64 (z : Z) : Z := (z + 2 ^ 63) mod 2 ^ 64 - 2 ^ 63.

(** The [float64] nearest to an integer, ties going to the even mantissa.
    It is an integer again: one below 2^53 in absolute value is kept, a
    larger one keeps its 53 leading bits. *)
Definition to_float64 (z : Z) : Z :=
  let a := Z.abs z in
  if a <? 2 ^ 53 then z
  else
    let e := Z.log2 a - 52 in
    let q := a / 2 ^ e in
    let r := a mod 2 ^ e in
    let half := 2 ^ (e - 1) in
    let q' := if r <? half then q
              else if half <? r then q + 1
              else if Z.even q then q else q + 1 in
    Z.sgn z * (q' * 2 ^ e).

(** The volumes of a date, added up as integers *)
Definition total_volume (df : DataFrame) (d : Z) : Z :=
  sum (map vol (filter (fun r => date r =? d) (rows df))).

(** [df.groupby(df['datetime'].dt.date)['vol'].sum().sort_index()]: a
    Series, as the list of its (index, value) pairs.  The sums are
    [int64]. *)
Definition daily_volume (df : DataFrame) (d : Z) : Z :=
  wrap64 (total_volume df d).

Definition daily_volumes (df : DataFrame) : list (Z * Z) :=
  map (fun d => (d, daily_volume df d)) (sorted (unique_dates df)).

Definition index {V : Type} (s : list (Z * V)) : list Z := map fst s.

Fixpoint at_index {V : Type} (d : Z) (s : list (Z * V)) : option V :=
  match s with
  | [] => None
  | (k, v) :: s' => if d =? k then Some v else at_index d s'
  end.

Definition index_eqb (a b : list Z) : bool :=
  (List.length a =? List.length b)%nat
  && forallb (fun p => fst p =? snd p) (combine a b).

(** One entry of [a - b]: on Series with the same index the values are
    subtracted as the [int64] they are; otherwise the Series were aligned
    first, which made them [float64]. *)
Definition sub_values (same_index : bool) (x y : Z) : Z :=
  if same_index then wrap64 (x - y)
  else to_float64 (to_float64 x - to_float64 y).

(** [a - b] on Series of [int64]: aligned on the union of the two indexes,
    with no value (NaN) where either side has none. *)
Definition series_sub (a b : list (Z * Z)) : list (Z * option Z) :=
  let same_index := index_eqb (index a) (index b) in
  map (fun d => (d, match at_index d a, at_index d b with
                    | Some x, Some y => Some (sub_values same_index x y)
                    | _, _ => None
                    end))
      (sorted (set_union (index a) (index b))).

(** [s[s >= 0]] *)
Definition non_negative (s : list (Z * option Z)) : list (Z * option Z) :=
  filter (fun kv => match snd kv with
                    | Some v => 0 <=? v
                    | None => false
                    end) s.

(** Creating two sets of dates, corresponding to data from df1 or df2 *)
Definition df1_dates (df1_vol df2_vol : list (Z * Z)) : list Z :=
  set_union
    (set_diff (set_of (index df1_vol)) (set_of (index df2_vol)))
    (set_of (index (non_negative (series_sub df1_vol df2_vol)))).

Definition df2_dates (df1_vol df2_vol : list (Z * Z)) : list Z :=
  set_diff (set_of (index df2_vol)) (df1_dates df1_vol df2_vol).

(** [df[df['datetime'].dt.date.apply(lambda x: True if x in dates else
    False)]].  On a table without rows [apply] has nothing to call the
    function on and returns an empty Series that is not a boolean one: it
    then selects columns, none of them. *)
Definition select_dates (dates : list Z) (df : DataFrame) : DataFrame :=
  match rows df with
  | [] => {| columns := []; rows := [] |}
  | _ :: _ => select_rows (fun r => mem (date r) dates) df
  end.

(** The two blocks handed to [pd.concat] *)
Definition selected (df1 df2 : DataFrame) : DataFrame * DataFrame :=
  let df1_vol := daily_volumes df1 in
  let df2_vol := daily_volumes df2 in
  (select_dates (df1_dates df1_vol df2_vol) df1,
   select_dates (df2_dates df1_vol df2_vol) df2).

Fixpoint reindex (i : Z) (l : list (list (string * cell))) : list Row :=
  match l with
  | [] => []
  | f :: l' => {| label := i; fields := f |} :: reindex (i + 1) l'
  end.

(** The cells of a row under the columns of the concatenated table *)
Definition project (cols : list (string * dtype)) (r : Row)
  : list (string * cell) :=
  map (fun nd => (fst nd, cell_of (fst nd) r)) cols.

(** [pd.concat([a, b], ignore_index=True)] *)
Definition concat (a b : DataFrame) : DataFrame :=
  let cols :=
    columns a ++ filter (fun nd => negb (has_column a (fst nd))) (columns b) in
  {| columns := cols;
     rows := reindex 0 (map (project cols) (rows a ++ rows b)) |}.

Definition merge_data (df1 df2 : DataFrame) (args : Args) : result DataFrame :=
  _ <- describe df1 ;;
  _ <- describe df2 ;;
  let df1 := drop_by_dates args df1 in
  let df2 := drop_by_dates args df2 in
  _ <- column df1 "vol" ;;
  _ <- column df2 "vol" ;;
  let new_df :=
    sort_values (concat (fst (selected df1 df2)) (snd (selected df1 df2))) in
  _ <- describe new_df ;;
  Ok new_df.

(** The [try] block of the script, from the loaded tables on *)
Definition main (df1 df2 : DataFrame) (args : Args) : result DataFrame :=
  _ <- check_source_data (df1, df2) ;;
  merge_data df1 df2 args.

(** *** What the merge is to select, and when it is to fail *)

(** The rows of a date *)
Definition on_date (d : Z) (l : list Row) : list Row :=
  filter (fun r => date r =? d) l.

(** The difference [merge_data] looks at on a date both tables have *)
Definition difference (a b : DataFrame) (d : Z) : Z :=
  sub_values (index_eqb (index (daily_volumes a)) (index (daily_volumes b)))
             (daily_volume a d) (daily_volume b d).

(** The cells the merge reads are what their columns announce: in a
    datetime column ['datetime'] a timestamp in every row (none missing);
    in an integer column ['vol'] integers that fit an [int64], in a float
    column ['vol'] floats or NaN.  A ['vol'] column of another dtype is
    not covered. *)
Definition typed_cells (df : DataFrame) : bool :=
  forallb (fun r =>
             match lookup "datetime" (columns df), cell_of "datetime" r with
             | Some datetime64, CStamp _ => true
             | Some datetime64, _ => false
             | _, _ => true
             end
             && match lookup "vol" (columns df), cell_of "vol" r with
                | Some (int64 | int32), CInt z =>
                    (- 2 ^ 63 <=? z) && (z <? 2 ^ 63)
                | Some float64, (CFloat _ _ | CNaN) => true
                | None, _ => true
                | _, _ => false
                end)
          (rows df).

(** ['vol'] is an [int64] column and the volumes of every date add up to
    less than 2^52 in absolute value: such totals, and the difference of
    two of them, are the same number as [int64] and as [float64]. *)
Definition exact_totals (df : DataFrame) : bool :=
  match lookup "vol" (columns df) with
  | Some int64 => true
  | _ => false
  end
  && forallb (fun d => Z.abs (total_volume df d) <? 2 ^ 52) (unique_dates df).

(** The rows of [out] on date [d] are the rows of [src] on that date, with
    their cells under the columns of [out]. *)
Definition takes_day (out : DataFrame) (d : Z) (src : DataFrame) : Prop :=
  Permutation (map fields (on_date d (rows out)))
              (map (project (columns out)) (on_date d (rows src))).

(** The preconditions of the merge, as conditions on the two tables. *)
Definition lacks_datetime (df : DataFrame) : Prop :=
  ~ In "datetime"%string (names df).

Definition lacks_integer_volume (df : DataFrame) : Prop :=
  forall d, In ("vol"%string, d) (columns df) -> is_integer_dtype d = false.

Definition column_sets_differ (df1 df2 : DataFrame) : Prop :=
  ~ forall n, In n (names df1) <-> In n (names df2).

Definition dtypes_differ (df1 df2 : DataFrame) : Prop :=
  exists n d1 d2,
    In (n, d1) (columns df1) /\ In (n, d2) (columns df2) /\ d1 <> d2.

(** The order of a sorted index *)
Definition label_le (x y : string * dtype) : Prop :=
  String.leb (fst x) (fst y) = true.

(** What [merge_data] needs of one input table to get past its progress
    lines and its daily volumes. *)
Definition usable (df : DataFrame) : Prop :=
  occurrences "datetime" (names df) = 1%nat
  /\ lookup "datetime" (columns df) = Some datetime64
  /\ occurrences "ticker" (names df) = 1%nat
  /\ occurrences "vol" (names df) = 1%nat
  /\ rows df <> [].

End Merger.

(** ** Sample data *)

Module Examples.
Import Cleaner.

(** Stand-ins for the library functions, enough for the sample tables. *)
Definition at_time (d h m : Z) : Z := combine_dt d (mk_time h m).

Definition fromisoformat (s : string) : option Z :=
  lookup s
    [ ("20230103 093000", at_time 19360 9 30);
      ("20230103 100000", at_time 19360 10 0);
      ("20230103 110000", at_time 19360 11 0);
      ("20230103 120000", at_time 19360 12 0);
      ("20230103 130000", at_time 19360 13 0);
      ("20230103 150000", at_time 19360 15 0);
      ("20230103 160000", at_time 19360 16 0);
      ("20230103 170000", at_time 19360 17 0);
      ("20230103 180000", at_time 19360 18 0) ]%string.

Definition to_datetime (l : list cell) : option (list Z) :=
  fold_right (fun c acc => match c, acc with
                           | CStamp t, Some ts => Some (t :: ts)
                           | _, _ => None
                           end) (Some []) l.

Definition str (c : cell) : string :=
  match c with
  | CInt 20230103 => "20230103"
  | CInt 93000 => "93000"
  | CInt 100000 => "100000"
  | CInt 110000 => "110000"
  | CInt 120000 => "120000"
  | CInt 130000 => "130000"
  | CInt 150000 => "150000"
  | CInt 160000 => "160000"
  | CInt 170000 => "170000"
  | CInt 180000 => "180000"
  | _ => "nan"
  end.

Definition int (c : cell) : option Z :=
  match c with
  | CFloat m e => float_as_Z m e
  | _ => None
  end.

(** A raw export: hourly bars of one day, in columns [<TICKER>], [<PER>],
    [<DATE>], [<TIME>], [<CLOSE>], [<VOL>]. *)
Definition raw_columns : list (string * dtype) :=
  [ ("<TICKER>", object); ("<PER>", int64); ("<DATE>", int64);
    ("<TIME>", int64); ("<CLOSE>", float64); ("<VOL>", int64) ]%string.

Definition raw_row (i time close volume : Z) : Row :=
  {| label := i;
     fields := [ ("<TICKER>", CStr "SPBFUT.RIH3"); ("<PER>", CInt 60);
                 ("<DATE>", CInt 20230103); ("<TIME>", CInt time);
                 ("<CLOSE>", CFloat close 0); ("<VOL>", CInt volume) ]%string |}.

(** 11:00 occurs twice, 09:30 is before the session, 12:00 is missing. *)
Definition raw : DataFrame :=
  {| columns := raw_columns;
     rows := [ raw_row 0 110000 97 7; raw_row 1 93000 95 3;
               raw_row 2 100000 96 4; raw_row 3 110000 98 9;
               raw_row 4 130000 99 5; raw_row 5 150000 99 6;
               raw_row 6 160000 98 2; raw_row 7 170000 97 1;
               raw_row 8 180000 96 8 ] |}.

(** A raw export whose only bar lies before the session. *)
Definition raw_early : DataFrame :=
  {| columns := raw_columns; rows := [ raw_row 0 93000 95 3 ] |}.

(** A raw export whose ticker holds the token to remove between two
    halves of the same token. *)
Definition raw_nested : DataFrame :=
  {| columns := raw_columns;
     rows := [ {| label := 0;
                  fields := [ ("<TICKER>", CStr "SPxSPFBxFB");
                              ("<PER>", CInt 60); ("<DATE>", CInt 20230103);
                              ("<TIME>", CInt 100000); ("<CLOSE>", CFloat 96 0);
                              ("<VOL>", CInt 4) ]%string |} ] |}.

Definition futures_args : Args :=
  {| stock := false; extended_hours := false; keep_date_time := false;
     start_date := None; end_date := None; interactive := false |}.

Definition extended_args : Args :=
  {| stock := false; extended_hours := true; keep_date_time := false;
     start_date := None; end_date := None; interactive := false |}.

Definition env : Env := {| today := 19700; answers_n := false |}.

Definition run (df : DataFrame) (args : Args)
  : option (result (DataFrame * list line)) :=
  process_dataframe fromisoformat to_datetime str int 520 env df args.

Definition table_of (r : option (result (DataFrame * list line)))
  : DataFrame :=
  match r with
  | Some (Ok (df, _)) => df
  | _ => {| columns := []; rows := [] |}
  end.

Definition lines_of (r : option (result (DataFrame * list line)))
  : list line :=
  match r with
  | Some (Ok (_, lines)) => lines
  | _ => []
  end.

Definition clean : DataFrame := Eval vm_compute in table_of (run raw futures_args).
Definition clean_lines : list line :=
  Eval vm_compute in lines_of (run raw futures_args).
Definition clean_extended : DataFrame :=
  Eval vm_compute in table_of (run raw extended_args).
Definition clean_extended_lines : list line :=
  Eval vm_compute in lines_of (run raw extended_args).
Definition clean_early : DataFrame :=
  Eval vm_compute in table_of (run raw_early futures_args).

End Examples.

(** Two cleaned series of one instrument: on 2023-01-03 series A trades
    100 and series B 90, on 2023-01-04 both trade 10, 2023-01-05 is in
    series B only. *)
Module MergerExamples.
Import Merger.

Definition bar_columns : list (string * dtype) :=
  [ ("datetime", datetime64); ("ticker", object); ("close", float64);
    ("vol", int64) ]%string.

Definition bar (i : Z) (ticker : string) (d h m close volume : Z) : Row :=
  {| label := i;
     fields := [ ("datetime", CStamp (combine_dt d (mk_time h m)));
                 ("ticker", CStr ticker); ("close", CFloat close 0);
                 ("vol", CInt volume) ]%string |}.

Definition series_a : DataFrame :=
  {| columns := bar_columns;
     rows := [ bar 0 "RIH3" 19360 10 0 97 60; bar 1 "RIH3" 19360 11 0 98 40;
               bar 2 "RIH3" 19361 10 0 99 10 ] |}.

Definition series_b : DataFrame :=
  {| columns := bar_columns;
     rows := [ bar 0 "RIM3" 19360 10 0 96 50; bar 1 "RIM3" 19360 11 0 97 40;
               bar 2 "RIM3" 19361 10 0 98 10; bar 3 "RIM3" 19362 10 0 99 5 ] |}.

Definition no_dates : Args :=
  {| check_only := true; start_date := None; end_date := None;
     interactive := false |}.

Definition merged : DataFrame :=
  Eval vm_compute in
    match merge_data series_a series_b no_dates with
    | Ok df => df
    | Raise _ => {| columns := []; rows := [] |}
    end.

(** Two bars of 2^62 each on one date, against one bar of volume 0 on the
    same date: the first total does not fit an [int64]. *)
Definition huge_a : DataFrame :=
  {| columns := bar_columns;
     rows := [ bar 0 "RIH3" 19360 10 0 97 (2 ^ 62);
               bar 1 "RIH3" 19360 11 0 98 (2 ^ 62) ] |}.

Definition idle_b : DataFrame :=
  {| columns := bar_columns; rows := [ bar 0 "RIM3" 19360 10 0 96 0 ] |}.

(** Two tables that lack the ['datetime'] column and agree otherwise *)
Definition undated : DataFrame :=
  {| columns := [ ("ticker", object); ("vol", int64) ]%string;
     rows := [ {| label := 0;
                  fields := [ ("ticker", CStr "RIH3"); ("vol", CInt 1) ]%string
               |} ] |}.

End MergerExamples.

(** A series that is complete on its one day: the hourly futures grid. *)
Module MoreExamples.

Definition stamped (i d h m : Z) : Row :=
  {| label := i;
     fields := [ ("datetime", CStamp (combine_dt d (mk_time h m))) ]%string |}.

Definition complete_day : DataFrame :=
  {| columns := [ ("datetime", datetime64) ]%string;
     rows := map (fun h => stamped h 19360 h 0)
                 [10; 11; 12; 13; 15; 16; 17; 18] |}.

End MoreExamples.

(** * Verification *)

(** ** Results *)

Lemma bind_ok {A B : Type} (r : result A) (k : A -> result B) (b : B) :
  bind r k = Ok b -> exists a, r = Ok a /\ k a = Ok b.
Proof. destruct r as [a|e]; simpl; intros H; [eauto | discriminate]. Qed.

Lemma mapM_ok_length {A B : Type} (f : A -> result B) l bs :
  mapM f l = Ok bs -> length bs = length l.
Proof.
  revert bs; induction l as [|a l IH]; simpl; intros bs H.
  - now inversion H.
  - apply bind_ok in H as (b & _ & H). apply bind_ok in H as (bs' & Hbs & H).
    inversion H; subst; simpl. now rewrite (IH _ Hbs).
Qed.

Lemma existsb_eqb_In (t : Z) (l : list Z) :
  existsb (Z.eqb t) l = true <-> In t l.
Proof.
  rewrite existsb_exists. split.
  - intros (x & Hx & Heq). apply Z.eqb_eq in Heq. now subst.
  - intros H. exists t. split; [assumption | apply Z.eqb_refl].
Qed.

Ltac time_arith :=
  unfold valid_time, MKT_OPEN, MKT_CLOSE, mk_time, timedelta_minutes,
    USEC_PER_MIN, USEC_PER_HOUR, USEC_PER_DAY in *;
  lia.

(** ** Facts on the time grid *)

Module GridFacts.
Import Grid.

Lemma step_pos p : 0 < p -> 0 < timedelta_minutes p.
Proof. unfold timedelta_minutes, USEC_PER_MIN. lia. Qed.

Lemma time_of_combine d t : valid_time t -> time_of (combine_dt d t) = t.
Proof.
  unfold valid_time, time_of, combine_dt. intros H.
  rewrite Z.add_comm, Z.mod_add by (unfold USEC_PER_DAY; lia).
  now apply Z.mod_small.
Qed.

Lemma time_of_idem x : time_of (time_of x) = time_of x.
Proof. unfold time_of. apply Z.mod_mod. unfold USEC_PER_DAY; lia. Qed.

Lemma keeps_time_of skip x : keeps skip (time_of x) = keeps skip x.
Proof. unfold keeps, hour, minute. now rewrite time_of_idem. Qed.

(** [i] is below the number of steps exactly when the [i]-th time is below
    the end time. *)
Lemma steps_spec s e p (i : nat) :
  0 < p -> s <= e ->
  ((i < steps s e p)%nat <-> s + Z.of_nat i * timedelta_minutes p < e).
Proof.
  intros Hp Hse. pose proof (step_pos p Hp) as Hd. unfold steps.
  set (d := timedelta_minutes p) in *.
  assert (Hq : 0 <= (e - s + d - 1) / d) by (apply Z.div_pos; lia).
  pose proof (Z.div_mod (e - s + d - 1) d ltac:(lia)) as Hdm.
  pose proof (Z.mod_pos_bound (e - s + d - 1) d Hd) as Hm.
  split; intros H.
  - assert (Z.of_nat i < (e - s + d - 1) / d) by lia. nia.
  - assert (Z.of_nat i < (e - s + d - 1) / d) by nia. lia.
Qed.

(** The loop, started at its [i]-th iteration with [m] iterations to go. *)
Lemma while_loop_run today s e p skip :
  valid_time s -> s <= e -> 0 < p ->
  e + timedelta_minutes p <= USEC_PER_DAY ->
  forall (m i fuel : nat) (acc : list Z),
    (m <= fuel)%nat -> (i + m = steps s e p)%nat ->
    while_loop fuel e p skip
      {| var_dt := combine_dt today s + Z.of_nat i * timedelta_minutes p;
         full_list_of_daily_bar_times := acc |}
    = Some {| var_dt := combine_dt today s
                        + Z.of_nat (steps s e p) * timedelta_minutes p;
              full_list_of_daily_bar_times :=
                acc ++ filter (keeps skip) (every s p i m) |}.
Proof.
  intros Hs Hse Hp Hwrap. pose proof (step_pos p Hp) as Hd.
  assert (Hbound : forall k : nat, (k <= steps s e p)%nat ->
            valid_time (s + Z.of_nat k * timedelta_minutes p)).
  { intros k Hk. unfold valid_time in *. split; [nia|].
    destruct k as [|k]; [lia|].
    assert (Hlt : (k < steps s e p)%nat) by lia.
    apply (steps_spec s e p k Hp Hse) in Hlt. lia. }
  assert (Htime : forall k : nat, (k <= steps s e p)%nat ->
            time_of (combine_dt today s + Z.of_nat k * timedelta_minutes p)
            = s + Z.of_nat k * timedelta_minutes p).
  { intros k Hk. unfold combine_dt. rewrite <- Z.add_assoc.
    apply (time_of_combine today), Hbound, Hk. }
  induction m as [|m IH]; intros i fuel acc Hfuel Him.
  - replace i with (steps s e p) by lia.
    destruct fuel; simpl; rewrite Htime by lia;
      pose proof (steps_spec s e p (steps s e p) Hp Hse) as Hn;
      (destruct (Z.ltb_spec (s + Z.of_nat (steps s e p) * timedelta_minutes p) e);
       [ apply Hn in H; lia | now rewrite app_nil_r ]).
  - destruct fuel as [|fuel]; [lia|]. simpl.
    rewrite Htime by lia.
    assert (Hlt : s + Z.of_nat i * timedelta_minutes p < e)
      by (apply steps_spec; [assumption | assumption | lia]).
    apply Z.ltb_lt in Hlt. rewrite Hlt. unfold loop_body; simpl var_dt;
      simpl full_list_of_daily_bar_times.
    replace (combine_dt today s + Z.of_nat i * timedelta_minutes p
             + timedelta_minutes p)
      with (combine_dt today s + Z.of_nat (S i) * timedelta_minutes p) by lia.
    rewrite IH by lia. f_equal. f_equal.
    rewrite <- (keeps_time_of skip), (Htime i) by lia.
    change (every s p i (S m))
      with ((s + Z.of_nat i * timedelta_minutes p) :: every s p (S i) m).
    simpl filter.
    destruct (keeps skip (s + Z.of_nat i * timedelta_minutes p));
      [ now rewrite <- app_assoc | reflexivity ].
Qed.

(** Without wrap-around past midnight the generator returns the times
    [start + k * period] below [end_time], filtered by the clearing test. *)
Lemma grid_closed_form fuel today s e p skip :
  valid_time s -> s <= e -> 0 < p ->
  e + timedelta_minutes p <= USEC_PER_DAY ->
  (steps s e p <= fuel)%nat ->
  get_full_list_of_daily_bar_times fuel today s e p skip
  = Some (Ok (filter (keeps skip) (every s p 0 (steps s e p)))).
Proof.
  intros Hs Hse Hp Hwrap Hfuel. unfold get_full_list_of_daily_bar_times.
  apply Z.leb_le in Hse as Hse'. rewrite Hse'.
  pose proof (while_loop_run today s e p skip Hs Hse Hp Hwrap
                (steps s e p) 0 fuel [] Hfuel eq_refl) as H.
  simpl Z.of_nat in H. rewrite Z.mul_0_l, Z.add_0_r in H.
  now rewrite H.
Qed.

(** More fuel does not change a result. *)
Lemma while_loop_more_fuel e p skip :
  forall fuel fuel' st st',
    (fuel <= fuel')%nat ->
    while_loop fuel e p skip st = Some st' ->
    while_loop fuel' e p skip st = Some st'.
Proof.
  induction fuel as [|fuel IH]; intros fuel' st st' Hle H; simpl in H.
  - destruct fuel'; simpl; destruct (time_of (var_dt st) <? e);
      congruence.
  - destruct fuel' as [|fuel']; [lia|]. simpl.
    destruct (time_of (var_dt st) <? e); [|assumption].
    apply IH; [lia | assumption].
Qed.

(** Whatever the fuel, a returned list is the closed form. *)
Lemma grid_returned fuel today s e p skip l :
  valid_time s -> s <= e -> 0 < p ->
  e + timedelta_minutes p <= USEC_PER_DAY ->
  get_full_list_of_daily_bar_times fuel today s e p skip = Some (Ok l) ->
  l = filter (keeps skip) (every s p 0 (steps s e p)).
Proof.
  intros Hs Hse Hp Hwrap H.
  pose proof (grid_closed_form (Nat.max fuel (steps s e p)) today s e p skip
                Hs Hse Hp Hwrap (Nat.le_max_r _ _)) as Hcf.
  unfold get_full_list_of_daily_bar_times in *.
  destruct (s <=? e); [|discriminate].
  destruct (while_loop fuel e p skip _) as [st|] eqn:Hrun; [|discriminate].
  rewrite (while_loop_more_fuel e p skip fuel _ _ st (Nat.le_max_l _ _) Hrun)
    in Hcf.
  congruence.
Qed.

(** The session grid of a known period holds 10:00 and 12:00. *)
Lemma known_grid_noon fuel today p stock grid :
  In p [1; 2; 5; 10; 15; 30; 60] ->
  get_full_list_of_daily_bar_times fuel today MKT_OPEN MKT_CLOSE p stock
  = Some (Ok grid) ->
  In MKT_OPEN grid /\ In (mk_time 12 0) grid.
Proof.
  intros Hp H. apply grid_returned in H.
  - subst grid.
    repeat (destruct Hp as [<-|Hp];
            [destruct stock; split; apply existsb_eqb_In;
             vm_compute; reflexivity|]).
    destruct Hp.
  - time_arith.
  - time_arith.
  - simpl in Hp. lia.
  - simpl in Hp. time_arith.
Qed.

(** Whatever the loop appends passes the clearing test and is a time of
    day. *)
Lemma while_loop_Forall (P : Z -> Prop) e p skip :
  (forall x, keeps skip x = true -> P (time_of x)) ->
  forall fuel st st',
    while_loop fuel e p skip st = Some st' ->
    Forall P (full_list_of_daily_bar_times st) ->
    Forall P (full_list_of_daily_bar_times st').
Proof.
  intros HP. induction fuel as [|fuel IH]; intros st st' Hrun Hacc;
    simpl in Hrun; destruct (time_of (var_dt st) <? e); try discriminate;
    try (inversion Hrun; subst; assumption).
  apply IH in Hrun; [assumption|]. unfold loop_body; simpl.
  destruct (keeps skip (var_dt st)) eqn:Hk; [|assumption].
  apply Forall_app. split; [assumption|]. constructor; [|constructor].
  now apply HP.
Qed.

Lemma minute_range x : 0 <= minute x < 60.
Proof. unfold minute. apply Z.mod_pos_bound. lia. Qed.

Lemma keeps_futures x :
  keeps false x = true <-> hour x <> 14 \/ ~ (0 <= minute x <= 4).
Proof.
  unfold keeps. simpl orb. rewrite orb_true_iff, !negb_true_iff, Z.eqb_neq.
  pose proof (minute_range x) as Hm.
  assert (Hex : existsb (Z.eqb (minute x)) [0; 1; 2; 3; 4] = false
                <-> ~ (0 <= minute x <= 4)).
  { simpl. rewrite !orb_false_iff, !Z.eqb_neq. lia. }
  now rewrite Hex.
Qed.

Lemma every_In s p i n t :
  In t (every s p i n) <->
  exists k : nat, (i <= k < i + n)%nat /\ t = s + Z.of_nat k * timedelta_minutes p.
Proof.
  unfold every. rewrite in_map_iff. split.
  - intros (k & Ht & Hk). apply in_seq in Hk. exists k. auto.
  - intros (k & Hk & Ht). exists k. split; [auto | now apply in_seq].
Qed.

Lemma every_sorted s p i n :
  0 < p -> StronglySorted Z.lt (every s p i n).
Proof.
  intros Hp. pose proof (step_pos p Hp) as Hd. unfold every.
  revert i; induction n as [|n IH]; intros i; simpl; constructor.
  - apply IH.
  - apply Forall_forall. intros t Ht. apply in_map_iff in Ht as (k & <- & Hk).
    apply in_seq in Hk. nia.
Qed.

Lemma filter_sorted (f : Z -> bool) l :
  StronglySorted Z.lt l -> StronglySorted Z.lt (filter f l).
Proof.
  induction 1 as [|x l Hl IH Hx]; simpl; [constructor|].
  destruct (f x); [|assumption]. constructor; [assumption|].
  apply Forall_forall. intros y Hy. apply filter_In in Hy as [Hy _].
  rewrite Forall_forall in Hx. now apply Hx.
Qed.

End GridFacts.

(** ** The session time grid: results *)

Module GridTheorems.
Import Grid GridFacts.

Lemma while_loop_invariant e p skip :
  forall fuel st st',
    while_loop fuel e p skip st = Some st' ->
    Forall (fun t => t < e) (full_list_of_daily_bar_times st) ->
    Forall (fun t => t < e) (full_list_of_daily_bar_times st')
    /\ exists more,
         full_list_of_daily_bar_times st'
         = full_list_of_daily_bar_times st ++ more.
Proof.
  induction fuel as [|fuel IH]; intros st st' Hrun Hacc; simpl in Hrun;
    destruct (Z.ltb_spec (time_of (var_dt st)) e) as [Hlt|Hge];
    try discriminate.
  - inversion Hrun; subst. split; [assumption | exists []; now rewrite app_nil_r].
  - apply IH in Hrun.
    + destruct Hrun as (Hall & more & Hmore). split; [assumption|].
      unfold loop_body in Hmore; simpl in Hmore.
      destruct (keeps skip (var_dt st)).
      * exists ([time_of (var_dt st)] ++ more). now rewrite app_assoc.
      * now exists more.
    + unfold loop_body; simpl. destruct (keeps skip (var_dt st)); [|assumption].
      apply Forall_app. split; [assumption|]. now constructor.
  - inversion Hrun; subst. split; [assumption | exists []; now rewrite app_nil_r].
Qed.

(** C2 as stated fails: the stock-mode grid of period 5 has no 14:01. *)
Lemma stock_grid_5min_lacks_1401 :
  exists l,
    get_full_list_of_daily_bar_times 104 0 MKT_OPEN MKT_CLOSE 5 true
    = Some (Ok l)
    /\ ~ In (mk_time 14 1) l.
Proof.
  eexists. split; [vm_compute; reflexivity|].
  intros H. repeat (destruct H as [H|H]; [discriminate H|]). exact H.
Qed.

(** C2, amended. For the session 10:00 to 18:40 and a 5-minute period the
    stock-mode grid is the sequence of one time every 5 minutes from 10:00
    to 18:35; the futures-mode grid is that sequence with 14:00 removed and
    contains none of 14:00, 14:01, 14:02, 14:03, 14:04; the stock-mode grid
    contains 14:00 and none of 14:01 to 14:04, which no 5-minute step from
    10:00 reaches. *)
Theorem grid_5min_clearing_break :
  forall today : Z,
    let every5 := every MKT_OPEN 5 0 104 in
    let break := [mk_time 14 0; mk_time 14 1; mk_time 14 2; mk_time 14 3;
                  mk_time 14 4] in
    get_full_list_of_daily_bar_times 104 today MKT_OPEN MKT_CLOSE 5 true
    = Some (Ok every5)
    /\ get_full_list_of_daily_bar_times 104 today MKT_OPEN MKT_CLOSE 5 false
       = Some (Ok (filter (fun t => negb (t =? mk_time 14 0)) every5))
    /\ (forall t, In t break ->
          ~ In t (filter (fun t => negb (t =? mk_time 14 0)) every5))
    /\ In (mk_time 14 0) every5
    /\ (forall t, In t break -> t <> mk_time 14 0 -> ~ In t every5)
    /\ hd_error every5 = Some MKT_OPEN
    /\ last every5 0 = mk_time 18 35.
Proof.
  intros today every5 break.
  assert (Hcf : forall skip,
            get_full_list_of_daily_bar_times 104 today MKT_OPEN MKT_CLOSE 5 skip
            = Some (Ok (filter (keeps skip) every5))).
  { intros skip. apply grid_closed_form; try time_arith. vm_compute. lia. }
  assert (Hin : forall (l : list Z) (t : Z),
            existsb (Z.eqb t) l = false -> ~ In t l).
  { intros l t Hex Ht. apply existsb_eqb_In in Ht. congruence. }
  repeat split.
  - rewrite Hcf. reflexivity.
  - rewrite Hcf. reflexivity.
  - intros t Ht. apply Hin.
    repeat (destruct Ht as [Ht|Ht]; [subst t; vm_compute; reflexivity|]).
    destruct Ht.
  - apply existsb_eqb_In. vm_compute. reflexivity.
  - intros t Ht Hne. apply Hin.
    destruct Ht as [Ht|Ht]; [congruence|].
    repeat (destruct Ht as [Ht|Ht]; [subst t; vm_compute; reflexivity|]).
    destruct Ht.
Qed.

(** C3 as stated fails: with start = end the sequence is empty, so it does
    not begin with the start time. *)
Lemma grid_empty_when_start_is_end :
  ~ (forall fuel today s e p skip l,
       valid_time s -> s <= e -> 0 < p ->
       get_full_list_of_daily_bar_times fuel today s e p skip = Some (Ok l) ->
       hd_error l = Some s /\ Forall (fun t => t < e) l).
Proof.
  intros H.
  assert (Hs : valid_time MKT_OPEN) by time_arith.
  destruct (H 0%nat 0 MKT_OPEN MKT_OPEN 5 false [] Hs (Z.le_refl _)
              eq_refl eq_refl) as [Hhd _].
  discriminate Hhd.
Qed.

(** C3, amended. For a start time, an end time with start <= end and a
    positive period: every sequence the generator returns has all its
    elements before the end time, and when start < end and the start time
    passes the clearing-break test (stock mode, or a start outside 14:00 to
    14:04) its first element is the start time; the generator does return
    when the end time is no later than 24:00 minus the period. *)
Theorem grid_starts_at_start_and_stays_below_end :
  forall today s e p skip,
    valid_time s -> s <= e -> 0 < p ->
    (forall fuel l,
       get_full_list_of_daily_bar_times fuel today s e p skip = Some (Ok l) ->
       Forall (fun t => t < e) l
       /\ (s < e -> keeps skip s = true -> hd_error l = Some s))
    /\ (e + timedelta_minutes p <= USEC_PER_DAY ->
        exists fuel l,
          get_full_list_of_daily_bar_times fuel today s e p skip
          = Some (Ok l)).
Proof.
  intros today s e p skip Hs Hse Hp. split.
  - intros fuel l Hrun. unfold get_full_list_of_daily_bar_times in Hrun.
    apply Z.leb_le in Hse as Hse'. rewrite Hse' in Hrun.
    destruct (while_loop fuel e p skip _) as [st|] eqn:Hloop; [|discriminate].
    inversion Hrun; subst l; clear Hrun. split.
    + now apply (while_loop_invariant e p skip fuel _ st Hloop).
    + intros Hlt Hkeep. destruct fuel as [|fuel]; simpl in Hloop;
        rewrite (time_of_combine today s Hs) in Hloop;
        apply Z.ltb_lt in Hlt; rewrite Hlt in Hloop; [discriminate|].
      apply while_loop_invariant in Hloop.
      * destruct Hloop as (_ & more & Hmore). rewrite Hmore.
        unfold loop_body; simpl.
        rewrite <- keeps_time_of, (time_of_combine today s Hs), Hkeep.
        reflexivity.
      * unfold loop_body; simpl.
        rewrite <- keeps_time_of, (time_of_combine today s Hs), Hkeep.
        constructor; [|constructor]. now apply Z.ltb_lt.
  - intros Hwrap. exists (steps s e p). eexists.
    now apply grid_closed_form.
Qed.

Lemma grid_starts_at_start_witness :
  (forall fuel l,
     get_full_list_of_daily_bar_times fuel 0 MKT_OPEN MKT_CLOSE 5 false
     = Some (Ok l) ->
     Forall (fun t => t < MKT_CLOSE) l
     /\ (MKT_OPEN < MKT_CLOSE -> keeps false MKT_OPEN = true ->
         hd_error l = Some MKT_OPEN))
  /\ (MKT_CLOSE + timedelta_minutes 5 <= USEC_PER_DAY ->
      exists fuel l,
        get_full_list_of_daily_bar_times fuel 0 MKT_OPEN MKT_CLOSE 5 false
        = Some (Ok l)).
Proof.
  apply (grid_starts_at_start_and_stays_below_end 0 MKT_OPEN MKT_CLOSE 5 false);
    unfold valid_time, MKT_OPEN, MKT_CLOSE, mk_time, USEC_PER_MIN, USEC_PER_DAY;
    lia.
Defined.

(** C9. The generator terminates on every call with start <= end, a period
    of at least one minute and an end time no later than 24:00 minus the
    period: some number of iterations yields its list, because an iteration
    entered below the end time moves the time of day forward by exactly the
    period, without wrapping past midnight. *)
Theorem grid_generator_terminates :
  forall today s e p skip,
    valid_time s -> s <= e -> 1 <= p ->
    e <= USEC_PER_DAY - timedelta_minutes p ->
    (exists fuel l,
       get_full_list_of_daily_bar_times fuel today s e p skip = Some (Ok l))
    /\ (forall st,
          time_of (var_dt st) < e ->
          time_of (var_dt (loop_body p skip st))
          = time_of (var_dt st) + timedelta_minutes p
          /\ time_of (var_dt st) < time_of (var_dt (loop_body p skip st))).
Proof.
  intros today s e p skip Hs Hse Hp Hend. split.
  - exists (steps s e p). eexists. apply grid_closed_form; try assumption; lia.
  - intros st Hlt. pose proof (step_pos p ltac:(lia)) as Hd.
    assert (Hmod : 0 <= time_of (var_dt st) < USEC_PER_DAY)
      by (apply Z.mod_pos_bound; reflexivity).
    assert (Heq : time_of (var_dt (loop_body p skip st))
                  = time_of (var_dt st) + timedelta_minutes p).
    { unfold loop_body; simpl. unfold time_of at 1.
      rewrite <- Z.add_mod_idemp_l by (unfold USEC_PER_DAY; lia).
      fold (time_of (var_dt st)). apply Z.mod_small. lia. }
    split; [assumption | lia].
Qed.

(** The fixed session bounds with each known minute period. *)
Lemma grid_generator_terminates_witness :
  Forall (fun p =>
    (exists fuel l,
       get_full_list_of_daily_bar_times fuel 0 MKT_OPEN MKT_CLOSE p false
       = Some (Ok l))
    /\ (forall st,
          time_of (var_dt st) < MKT_CLOSE ->
          time_of (var_dt (loop_body p false st))
          = time_of (var_dt st) + timedelta_minutes p
          /\ time_of (var_dt st) < time_of (var_dt (loop_body p false st))))
    [1; 2; 5; 10; 15; 30; 60].
Proof.
  repeat (constructor;
          [ apply (grid_generator_terminates 0 MKT_OPEN MKT_CLOSE _ false);
            unfold valid_time, MKT_OPEN, MKT_CLOSE, mk_time, timedelta_minutes,
              USEC_PER_MIN, USEC_PER_DAY; lia | ]).
  constructor.
Defined.

(** X8. When the end time is no later than 24:00 minus the period (and
    start <= end, period positive), the generator returns, for every day
    and any sufficient number of iterations, one and the same list: it is
    strictly increasing and consists exactly of the times start + k *
    period that are below the end time and pass the clearing-break test. *)
Theorem grid_is_the_stepped_times s e p skip :
  valid_time s -> s <= e -> 0 < p ->
  e + timedelta_minutes p <= USEC_PER_DAY ->
  exists l,
    (forall today fuel,
       (steps s e p <= fuel)%nat ->
       get_full_list_of_daily_bar_times fuel today s e p skip = Some (Ok l))
    /\ StronglySorted Z.lt l
    /\ forall t,
         In t l <->
         (exists k : nat, t = s + Z.of_nat k * timedelta_minutes p)
         /\ t < e /\ keeps skip t = true.
Proof.
  intros Hs Hse Hp Hwrap.
  exists (filter (keeps skip) (every s p 0 (steps s e p))).
  split; [|split].
  - intros today fuel Hfuel. now apply grid_closed_form.
  - apply filter_sorted, every_sorted, Hp.
  - intros t. rewrite filter_In, every_In. split.
    + intros [(k & Hk & Ht) Hkeep]. split; [now exists k|].
      split; [|assumption]. subst t. apply steps_spec; [assumption..|lia].
    + intros [(k & Ht) [Hlt Hkeep]]. split; [|assumption].
      exists k. split; [|assumption]. subst t.
      apply steps_spec in Hlt; [lia | assumption..].
Qed.

Lemma grid_is_the_stepped_times_witness :
  valid_time MKT_OPEN /\ MKT_OPEN <= MKT_CLOSE /\ 0 < 30
  /\ MKT_CLOSE + timedelta_minutes 30 <= USEC_PER_DAY
  /\ exists l,
       (forall today fuel,
          (steps MKT_OPEN MKT_CLOSE 30 <= fuel)%nat ->
          get_full_list_of_daily_bar_times fuel today MKT_OPEN MKT_CLOSE 30
            false = Some (Ok l))
       /\ StronglySorted Z.lt l
       /\ forall t,
            In t l <->
            (exists k : nat, t = MKT_OPEN + Z.of_nat k * timedelta_minutes 30)
            /\ t < MKT_CLOSE /\ keeps false t = true.
Proof.
  assert (H1 : valid_time MKT_OPEN) by time_arith.
  assert (H2 : MKT_OPEN <= MKT_CLOSE) by time_arith.
  assert (H3 : 0 < 30) by lia.
  assert (H4 : MKT_CLOSE + timedelta_minutes 30 <= USEC_PER_DAY) by time_arith.
  repeat (split; [assumption|]).
  exact (grid_is_the_stepped_times MKT_OPEN MKT_CLOSE 30 false H1 H2 H3 H4).
Defined.

(** X9. In futures mode (skip flag false) no returned time lies in the
    clearing break, hour 14 with minute 0 to 4, whatever the session
    bounds, the period and the day; every returned time is a time of day
    below the end time. *)
Theorem futures_grid_avoids_clearing_break fuel today s e p l :
  get_full_list_of_daily_bar_times fuel today s e p false = Some (Ok l) ->
  forall t, In t l ->
    (hour t <> 14 \/ ~ (0 <= minute t <= 4))
    /\ 0 <= t < USEC_PER_DAY /\ t < e.
Proof.
  unfold get_full_list_of_daily_bar_times. intros H.
  destruct (s <=? e); [|discriminate].
  destruct (while_loop fuel e p false _) as [st|] eqn:Hrun; [|discriminate].
  inversion H; subst l; clear H.
  assert (Hall : Forall (fun t => (hour t <> 14 \/ ~ (0 <= minute t <= 4))
                                  /\ 0 <= t < USEC_PER_DAY)
                        (full_list_of_daily_bar_times st)).
  { apply (while_loop_Forall _ e p false) with (fuel := fuel) (st := {|
             var_dt := combine_dt today s;
             full_list_of_daily_bar_times := [] |}) ; [|assumption|constructor].
    intros x Hk. split.
    - apply keeps_futures. now rewrite keeps_time_of.
    - apply Z.mod_pos_bound. reflexivity. }
  assert (Hlt : Forall (fun t => t < e) (full_list_of_daily_bar_times st)).
  { apply (while_loop_invariant e p false fuel _ st Hrun). constructor. }
  rewrite Forall_forall in Hall, Hlt. intros t Ht.
  destruct (Hall t Ht). split; [assumption|]. split; [assumption|].
  now apply Hlt.
Qed.

Lemma futures_grid_avoids_clearing_break_witness :
  exists l,
    get_full_list_of_daily_bar_times 520 0 MKT_OPEN MKT_CLOSE 1 false
    = Some (Ok l)
    /\ In (mk_time 14 5) l
    /\ forall t, In t l ->
         (hour t <> 14 \/ ~ (0 <= minute t <= 4))
         /\ 0 <= t < USEC_PER_DAY /\ t < MKT_CLOSE.
Proof.
  destruct (get_full_list_of_daily_bar_times 520 0 MKT_OPEN MKT_CLOSE 1 false)
    as [[l|x]|] eqn:E; try (vm_compute in E; discriminate).
  exists l. split; [reflexivity|]. split.
  - apply existsb_eqb_In. vm_compute in E. inversion E. vm_compute.
    reflexivity.
  - exact (futures_grid_avoids_clearing_break 520 0 MKT_OPEN MKT_CLOSE 1 l E).
Defined.

(** X10. With a period of zero minutes and start < end the loop never
    ends: no number of iterations gives a result, because an iteration
    leaves the time of day where it was. *)
Theorem zero_period_never_returns fuel today s e skip :
  valid_time s -> s < e ->
  get_full_list_of_daily_bar_times fuel today s e 0 skip = None.
Proof.
  intros Hs Hlt. unfold get_full_list_of_daily_bar_times.
  assert (Hle : (s <=? e) = true) by (apply Z.leb_le; lia). rewrite Hle.
  assert (Hloop : forall n acc,
            while_loop n e 0 skip
              {| var_dt := combine_dt today s;
                 full_list_of_daily_bar_times := acc |} = None).
  { apply Z.ltb_lt in Hlt.
    induction n as [|n IH]; intros acc; cbn [while_loop var_dt];
      rewrite (time_of_combine today s Hs), Hlt; [reflexivity|].
    unfold loop_body. cbn [var_dt full_list_of_daily_bar_times].
    replace (combine_dt today s + timedelta_minutes 0)
      with (combine_dt today s) by (unfold timedelta_minutes; lia).
    apply IH. }
  now rewrite Hloop.
Qed.

Lemma zero_period_never_returns_witness :
  valid_time MKT_OPEN /\ MKT_OPEN < MKT_CLOSE
  /\ get_full_list_of_daily_bar_times 1000 0 MKT_OPEN MKT_CLOSE 0 true = None.
Proof.
  assert (H1 : valid_time MKT_OPEN) by time_arith.
  assert (H2 : MKT_OPEN < MKT_CLOSE) by time_arith.
  split; [assumption|]. split; [assumption|].
  exact (zero_period_never_returns 1000 0 MKT_OPEN MKT_CLOSE true H1 H2).
Defined.

End GridTheorems.

(** ** Lists: membership, sorting, duplicates *)

Module ListFacts.

Lemma mem_In (x : Z) (s : list Z) : mem x s = true <-> In x s.
Proof. apply existsb_eqb_In. Qed.

Lemma mem_false (x : Z) (s : list Z) : mem x s = false <-> ~ In x s.
Proof.
  rewrite <- mem_In. destruct (mem x s); split; congruence.
Qed.

Lemma filter_all {A : Type} (f : A -> bool) (l : list A) :
  Forall (fun x => f x = true) l -> filter f l = l.
Proof.
  induction 1 as [|x l Hx _ IH]; simpl; [reflexivity|].
  now rewrite Hx, IH.
Qed.

Lemma filter_twice {A : Type} (f : A -> bool) (l : list A) :
  filter f (filter f l) = filter f l.
Proof.
  apply filter_all, Forall_forall. intros x Hx.
  now apply filter_In in Hx.
Qed.

Lemma NoDup_map_filter {A B : Type} (f : A -> B) (g : A -> bool) l :
  NoDup (map f l) -> NoDup (map f (filter g l)).
Proof.
  induction l as [|x l IH]; simpl; intros H; [constructor|].
  inversion H as [|? ? Hn Hnd]; subst.
  destruct (g x); simpl; [|now apply IH]. constructor; [|now apply IH].
  intros Hin. apply Hn. apply in_map_iff in Hin as (y & Hy & Hin).
  apply filter_In in Hin as [Hin _]. rewrite <- Hy. now apply in_map.
Qed.

Section SortBy.
Context {A : Type} (key : A -> Z).

Definition key_le (a b : A) : Prop := key a <= key b.
Definition key_lt (a b : A) : Prop := key a < key b.

Lemma insert_by_perm x l : Permutation (insert_by key x l) (x :: l).
Proof.
  induction l as [|y l IH]; simpl; [reflexivity|].
  destruct (key x <=? key y); [reflexivity|].
  rewrite IH. apply perm_swap.
Qed.

Lemma sort_by_perm l : Permutation (sort_by key l) l.
Proof.
  induction l as [|x l IH]; simpl; [reflexivity|].
  rewrite insert_by_perm. now constructor.
Qed.

Lemma sort_by_In x l : In x (sort_by key l) <-> In x l.
Proof.
  split; apply Permutation_in;
    [apply sort_by_perm | apply Permutation_sym, sort_by_perm].
Qed.

Lemma insert_by_sorted x l :
  StronglySorted key_le l -> StronglySorted key_le (insert_by key x l).
Proof.
  induction 1 as [|y l Hl IH Hy]; simpl.
  - repeat constructor.
  - destruct (Z.leb_spec (key x) (key y)) as [Hle|Hgt].
    + constructor; [now constructor|]. constructor; [exact Hle|].
      eapply Forall_impl; [|exact Hy]. unfold key_le. intros; lia.
    + constructor; [assumption|].
      apply (Permutation_Forall (Permutation_sym (insert_by_perm x l))).
      constructor; [unfold key_le; lia | assumption].
Qed.

Lemma sort_by_sorted l : StronglySorted key_le (sort_by key l).
Proof.
  induction l as [|x l IH]; simpl; [constructor | now apply insert_by_sorted].
Qed.

Lemma sorted_strict l :
  StronglySorted key_le l -> NoDup (map key l) -> StronglySorted key_lt l.
Proof.
  induction 1 as [|x l Hl IH Hx]; simpl; intros Hnd; [constructor|].
  inversion Hnd as [|? ? Hnotin Hnd']; subst. constructor; [now apply IH|].
  rewrite Forall_forall in *. intros y Hy. specialize (Hx y Hy).
  unfold key_le, key_lt in *.
  assert (key x <> key y) by (intros Heq; apply Hnotin; rewrite Heq;
                              now apply in_map).
  lia.
Qed.

Lemma sort_by_strict l :
  NoDup (map key l) -> StronglySorted key_lt (sort_by key l).
Proof.
  intros Hnd. apply sorted_strict; [apply sort_by_sorted|].
  eapply Permutation_NoDup; [|exact Hnd].
  apply Permutation_map, Permutation_sym, sort_by_perm.
Qed.

Lemma sort_by_id l : StronglySorted key_le l -> sort_by key l = l.
Proof.
  induction 1 as [|x l Hl IH Hx]; simpl; [reflexivity|].
  rewrite IH. destruct l as [|y l]; simpl; [reflexivity|].
  inversion Hx as [|? ? Hxy _]; subst. unfold key_le in Hxy.
  apply Z.leb_le in Hxy. now rewrite Hxy.
Qed.

Lemma strict_le l : StronglySorted key_lt l -> StronglySorted key_le l.
Proof.
  induction 1 as [|x l Hl IH Hx]; constructor; [assumption|].
  eapply Forall_impl; [|exact Hx]. unfold key_lt, key_le. intros; lia.
Qed.

Lemma strict_NoDup l : StronglySorted key_lt l -> NoDup (map key l).
Proof.
  induction 1 as [|x l Hl IH Hx]; simpl; constructor; [|assumption].
  intros Hin. apply in_map_iff in Hin as (y & Heq & Hy).
  rewrite Forall_forall in Hx. specialize (Hx y Hy). unfold key_lt in Hx. lia.
Qed.

End SortBy.

(** [drop_duplicates]: first occurrences, in input order *)

Lemma drop_duplicates_In seen l r :
  In r (drop_duplicates seen l) -> In r l /\ ~ In (stamp r) seen.
Proof.
  revert seen; induction l as [|x l IH]; simpl; intros seen H; [easy|].
  destruct (mem (stamp x) seen) eqn:Hm.
  - apply IH in H. tauto.
  - destruct H as [->|H].
    + split; [now left | now apply mem_false].
    + apply IH in H. simpl in H. tauto.
Qed.

Lemma drop_duplicates_NoDup seen l :
  NoDup (map stamp (drop_duplicates seen l)).
Proof.
  revert seen; induction l as [|x l IH]; simpl; intros seen; [constructor|].
  destruct (mem (stamp x) seen); [apply IH|]. simpl. constructor; [|apply IH].
  intros Hin. apply in_map_iff in Hin as (y & Heq & Hy).
  apply drop_duplicates_In in Hy as [_ Hy]. apply Hy. simpl. now left.
Qed.

(** A row that is kept has no row of the same timestamp before it. *)
Lemma drop_duplicates_first seen l r :
  In r (drop_duplicates seen l) ->
  exists before after,
    l = before ++ r :: after
    /\ Forall (fun r' => stamp r' <> stamp r) before.
Proof.
  revert seen; induction l as [|x l IH]; simpl; intros seen H; [easy|].
  destruct (mem (stamp x) seen) eqn:Hm.
  - pose proof (drop_duplicates_In _ _ _ H) as [_ Hseen].
    apply IH in H as (before & after & -> & Hall).
    exists (x :: before), after. split; [reflexivity|].
    constructor; [|assumption]. intros Heq. apply Hseen. rewrite <- Heq.
    now apply mem_In.
  - destruct H as [->|H].
    + exists [], l. split; [reflexivity | constructor].
    + pose proof (drop_duplicates_In _ _ _ H) as [_ Hseen].
      apply IH in H as (before & after & -> & Hall).
      exists (x :: before), after. split; [reflexivity|].
      constructor; [|assumption]. intros Heq. apply Hseen. simpl. now left.
Qed.

(** The first row of a timestamp stays. *)
Lemma drop_duplicates_keeps_first seen before r after :
  Forall (fun r' => stamp r' <> stamp r) before ->
  ~ In (stamp r) seen ->
  In r (drop_duplicates seen (before ++ r :: after)).
Proof.
  revert seen; induction before as [|x b IH]; simpl; intros seen Hall Hseen.
  - apply (proj2 (mem_false _ _)) in Hseen. rewrite Hseen. now left.
  - pose proof (Forall_inv Hall) as Hx. apply Forall_inv_tail in Hall.
    destruct (mem (stamp x) seen); [now apply IH|].
    right. apply IH; [assumption|].
    simpl. intros [Heq|Hin]; [congruence | contradiction].
Qed.

(** No timestamp is lost. *)
Lemma drop_duplicates_keeps_stamps seen l r :
  In r l -> ~ In (stamp r) seen ->
  exists r', In r' (drop_duplicates seen l) /\ stamp r' = stamp r.
Proof.
  revert seen; induction l as [|x l IH]; simpl; intros seen H Hseen; [easy|].
  destruct (mem (stamp x) seen) eqn:Hm.
  - destruct H as [->|H]; [apply mem_In in Hm; contradiction|].
    now apply IH.
  - destruct (Z.eq_dec (stamp x) (stamp r)) as [Heq|Hne].
    + exists x. split; [now left | assumption].
    + destruct H as [->|H]; [congruence|].
      destruct (IH (stamp x :: seen) H) as (r' & Hr' & Hst).
      * simpl. intros [?|?]; [congruence | contradiction].
      * exists r'. split; [now right | assumption].
Qed.

Lemma drop_duplicates_none seen l :
  filter (fun b : bool => b) (duplicated seen (map stamp l)) = [] ->
  drop_duplicates seen l = l.
Proof.
  revert seen; induction l as [|x l IH]; simpl; intros seen H; [reflexivity|].
  destruct (mem (stamp x) seen); [discriminate|]. now rewrite IH.
Qed.

Lemma drop_duplicates_id seen l :
  NoDup (map stamp l) -> Forall (fun r => ~ In (stamp r) seen) l ->
  drop_duplicates seen l = l.
Proof.
  revert seen; induction l as [|x l IH]; simpl; intros seen Hnd Hall;
    [reflexivity|].
  inversion Hnd as [|? ? Hnotin Hnd']; subst.
  inversion Hall as [|? ? Hx Hall']; subst.
  apply mem_false in Hx. rewrite Hx. f_equal. apply IH; [assumption|].
  rewrite Forall_forall in *. intros r Hr [Heq|Hin]; [|now apply (Hall' r)].
  apply Hnotin. rewrite Heq. now apply in_map.
Qed.

(** Sets kept as lists *)

Lemma unique_In x l : In x (unique l) <-> In x l.
Proof.
  induction l as [|y l IH]; simpl; [tauto|].
  rewrite filter_In, IH, negb_true_iff, Z.eqb_neq.
  destruct (Z.eq_dec y x); [subst|]; intuition.
Qed.

Lemma unique_NoDup l : NoDup (unique l).
Proof.
  induction l as [|y l IH]; simpl; constructor.
  - rewrite filter_In, negb_true_iff, Z.eqb_neq. tauto.
  - now apply NoDup_filter.
Qed.

Lemma set_diff_In x a b : In x (set_diff a b) <-> In x a /\ ~ In x b.
Proof.
  unfold set_diff. rewrite filter_In, negb_true_iff, mem_false. tauto.
Qed.

Lemma set_diff_NoDup a b : NoDup a -> NoDup (set_diff a b).
Proof. apply NoDup_filter. Qed.

Lemma set_union_In x a b : In x (set_union a b) <-> In x a \/ In x b.
Proof. unfold set_union. now rewrite unique_In, in_app_iff. Qed.

Lemma sorted_In x l : In x (sorted l) <-> In x l.
Proof. apply sort_by_In. Qed.

Lemma hd_sorted l :
  l <> [] -> In (hd 0 (sorted l)) l /\ forall t, In t l -> hd 0 (sorted l) <= t.
Proof.
  intros Hne. unfold sorted.
  pose proof (sort_by_sorted (fun x => x) l) as Hs.
  pose proof (sort_by_In (fun x : Z => x)) as Hin.
  destruct (sort_by (fun x => x) l) as [|y s] eqn:E.
  - destruct l as [|x l]; [congruence|].
    specialize (Hin x (x :: l)). rewrite E in Hin. simpl in Hin. tauto.
  - simpl. split.
    + apply (Hin y l). rewrite E. now left.
    + intros t Ht. apply (Hin t l) in Ht. rewrite E in Ht.
      inversion Hs as [|? ? _ Hy]; subst. destruct Ht as [->|Ht]; [lia|].
      rewrite Forall_forall in Hy. apply (Hy t Ht).
Qed.

Lemma last_sorted_aux (s : list Z) :
  StronglySorted (key_le (fun x => x)) s -> s <> [] ->
  In (last s 0) s /\ forall t, In t s -> t <= last s 0.
Proof.
  induction 1 as [|y s Hs IH Hy]; [congruence|]. intros _.
  destruct s as [|z s].
  - simpl. split; [now left|]. intros t [->|[]]. lia.
  - destruct IH as [IH1 IH2]; [discriminate|].
    change (last (y :: z :: s) 0) with (last (z :: s) 0).
    split; [now right|]. intros t [->|Ht]; [|now apply IH2].
    rewrite Forall_forall in Hy. apply (Hy _ IH1).
Qed.

Lemma last_sorted l :
  l <> [] ->
  In (last (sorted l) 0) l /\ forall t, In t l -> t <= last (sorted l) 0.
Proof.
  intros Hne.
  assert (Hne' : sorted l <> []).
  { destruct l as [|x l]; [congruence|]. intros E.
    assert (Hin : In x (sorted (x :: l))) by (apply sorted_In; now left).
    rewrite E in Hin. destruct Hin. }
  destruct (last_sorted_aux (sorted l) (sort_by_sorted _ l) Hne') as [H1 H2].
  split; [now apply sorted_In|]. intros t Ht. apply H2. now apply sorted_In.
Qed.

Lemma NoDup_same_length (a b : list Z) :
  NoDup a -> NoDup b -> (forall x, In x a <-> In x b) ->
  List.length a = List.length b.
Proof.
  intros Ha Hb Hab. apply Permutation_length. now apply NoDup_Permutation.
Qed.

End ListFacts.

(** ** The cleaning pipeline: facts *)

Module CleanerFacts.
Import Cleaner ListFacts.

Lemma column_length df name c :
  column df name = Ok c -> List.length c = List.length (rows df).
Proof.
  unfold column. destruct (occurrences name (names df)) as [|[|n]];
    intros H; inversion H. apply length_map.
Qed.

Lemma set_column_labels df name d values df' :
  set_column df name d values = Ok df' ->
  List.length values = List.length (rows df) ->
  map label (rows df') = map label (rows df).
Proof.
  unfold set_column. intros H Hlen.
  assert (Hrows : rows df' = map (fun rv => set_cell name (snd rv) (fst rv))
                                 (combine (rows df) values))
    by (destruct (occurrences name (names df)) as [|[|n]];
        inversion H; reflexivity).
  rewrite Hrows. clear H Hrows. revert values Hlen.
  induction (rows df) as [|r l IH]; intros [|v values] Hlen;
    simpl in *; try discriminate; [reflexivity|].
  f_equal. apply IH. lia.
Qed.

Lemma check_duplicates_rows df :
  rows (check_duplicates df) = drop_duplicates [] (rows df).
Proof.
  unfold check_duplicates.
  destruct (filter (fun b : bool => b) (duplicated [] (map stamp (rows df))))
    eqn:Hdup; simpl; [|reflexivity].
  symmetry. now apply drop_duplicates_none.
Qed.

Lemma drop_by_dates_rows args df r :
  In r (rows (drop_by_dates args df)) <->
  In r (rows df)
  /\ (forall d, start_date args = Some d -> d <= date_of (stamp r))
  /\ (forall d, end_date args = Some d -> date_of (stamp r) <= d).
Proof.
  unfold drop_by_dates.
  destruct (start_date args) as [s|], (end_date args) as [e|]; simpl;
    repeat rewrite filter_In; repeat rewrite Z.leb_le.
  - split.
    + intros [[H1 H2] H3]. repeat split; try assumption;
        intros d Hd; inversion Hd; subst; assumption.
    + intros (H1 & H2 & H3). repeat split; auto.
  - split.
    + intros [H1 H2]. repeat split; try assumption;
        intros d Hd; inversion Hd; subst; assumption.
    + intros (H1 & H2 & H3). repeat split; auto.
  - split.
    + intros [H1 H2]. repeat split; try assumption;
        intros d Hd; inversion Hd; subst; assumption.
    + intros (H1 & H2 & H3). repeat split; auto.
  - split; [intros H; repeat split; [assumption | discriminate..] | tauto].
Qed.

Lemma in_session_spec r :
  in_session r = true <-> MKT_OPEN <= time_of (stamp r) < MKT_CLOSE.
Proof.
  unfold in_session. rewrite andb_true_iff, Z.leb_le, Z.ltb_lt. tauto.
Qed.

Lemma filter_filter {A : Type} (f g : A -> bool) (l : list A) :
  filter g (filter f l) = filter (fun x => f x && g x) l.
Proof.
  induction l as [|x l IH]; simpl; [reflexivity|].
  destruct (f x); simpl; [destruct (g x)|]; now rewrite IH.
Qed.

Lemma filter_split {A : Type} (f : A -> bool) (l b' a' : list A) (r : A) :
  filter f l = b' ++ r :: a' ->
  exists b a, l = b ++ r :: a /\ filter f b = b' /\ filter f a = a'.
Proof.
  revert b'; induction l as [|x l IH]; simpl; intros b' H.
  - destruct b'; discriminate.
  - destruct (f x) eqn:Hx.
    + destruct b' as [|y b']; simpl in H; injection H as Hxy Hrest.
      * exists [], l. simpl. subst. auto.
      * destruct (IH _ Hrest) as (b & a & -> & Hb & Ha).
        exists (x :: b), a. simpl. rewrite Hx, Hb, Hxy. auto.
    + destruct (IH _ H) as (b & a & -> & Hb & Ha).
      exists (x :: b), a. simpl. rewrite Hx. auto.
Qed.

(** The date and session filters look at the timestamp only. *)
Lemma filters_by_stamp args df :
  exists Q : Z -> bool,
    rows (drop_extended_hours args (drop_by_dates args df))
    = filter (fun r => Q (stamp r)) (rows df).
Proof.
  unfold drop_extended_hours, drop_by_dates, in_session.
  destruct (extended_hours args), (start_date args) as [s|],
    (end_date args) as [e|]; simpl; repeat rewrite filter_filter.
  - now exists (fun t => (s <=? date_of t) && (date_of t <=? e)).
  - now exists (fun t => s <=? date_of t).
  - now exists (fun t => date_of t <=? e).
  - exists (fun _ => true). symmetry. apply filter_all, Forall_forall. easy.
  - now exists (fun t => (s <=? date_of t)
                         && ((date_of t <=? e)
                             && ((MKT_OPEN <=? time_of t)
                                 && (time_of t <? MKT_CLOSE)))).
  - now exists (fun t => (s <=? date_of t)
                         && ((MKT_OPEN <=? time_of t) && (time_of t <? MKT_CLOSE))).
  - now exists (fun t => (date_of t <=? e)
                         && ((MKT_OPEN <=? time_of t) && (time_of t <? MKT_CLOSE))).
  - now exists (fun t => (MKT_OPEN <=? time_of t) && (time_of t <? MKT_CLOSE)).
Qed.

Lemma kept_rows_first args mid r :
  In r (kept_rows args mid) ->
  exists before after,
    rows mid = before ++ r :: after
    /\ Forall (fun r' => stamp r' <> stamp r) before.
Proof.
  unfold kept_rows. intros H. apply sort_by_In in H.
  destruct (filters_by_stamp args mid) as (Q & HQ). rewrite HQ in H.
  apply drop_duplicates_first in H as (b' & a' & Hsplit & Hb').
  pose proof Hsplit as Hr.
  apply filter_split in Hsplit as (b & a & Hmid & Hb & Ha).
  exists b, a. split; [assumption|].
  assert (HQr : Q (stamp r) = true).
  { assert (Hin : In r (filter (fun r => Q (stamp r)) (rows mid)))
      by (rewrite Hr; apply in_elt).
    now apply filter_In in Hin. }
  rewrite Forall_forall in *. intros r' Hr' Heq.
  apply (Hb' r'); [|assumption].
  rewrite <- Hb. apply filter_In. split; [assumption|]. now rewrite Heq.
Qed.

Lemma kept_rows_sorted args mid :
  StronglySorted Z.lt (map stamp (kept_rows args mid)).
Proof.
  unfold kept_rows.
  pose proof (sort_by_strict stamp _ (drop_duplicates_NoDup []
    (rows (drop_extended_hours args (drop_by_dates args mid))))) as H.
  induction H as [|x l Hl IH Hx]; simpl; constructor; [assumption|].
  apply Forall_map. exact Hx.
Qed.

Lemma kept_rows_all_stamps args mid r :
  In r (rows (drop_extended_hours args (drop_by_dates args mid))) ->
  exists r', In r' (kept_rows args mid) /\ stamp r' = stamp r.
Proof.
  intros H. apply (drop_duplicates_keeps_stamps []) in H as (r' & Hr' & Heq);
    [|easy].
  exists r'. split; [|assumption]. unfold kept_rows. now apply sort_by_In.
Qed.

Lemma filters_pass args df r :
  In r (rows df) ->
  (forall d, start_date args = Some d -> d <= date_of (stamp r)) ->
  (forall d, end_date args = Some d -> date_of (stamp r) <= d) ->
  (extended_hours args = false -> MKT_OPEN <= time_of (stamp r) < MKT_CLOSE) ->
  In r (rows (drop_extended_hours args (drop_by_dates args df))).
Proof.
  intros Hr Hs He Hx.
  assert (Hd : In r (rows (drop_by_dates args df)))
    by (apply drop_by_dates_rows; auto).
  unfold drop_extended_hours. destruct (extended_hours args); [assumption|].
  simpl. apply filter_In. split; [assumption|]. apply in_session_spec. auto.
Qed.

(** The first row of a timestamp, when the filters let it pass, is kept. *)
Lemma kept_rows_keeps_first args mid before r after :
  rows mid = before ++ r :: after ->
  Forall (fun r' => stamp r' <> stamp r) before ->
  In r (rows (drop_extended_hours args (drop_by_dates args mid))) ->
  In r (kept_rows args mid).
Proof.
  intros Hmid Hall Hin. unfold kept_rows. apply sort_by_In.
  destruct (filters_by_stamp args mid) as (Q & HQ). rewrite HQ in *.
  apply filter_In in Hin as [_ HQr].
  rewrite Hmid, filter_app. simpl. rewrite HQr.
  apply drop_duplicates_keeps_first; [|easy].
  rewrite Forall_forall in *. intros r' Hr'.
  apply filter_In in Hr' as [Hr' _]. now apply Hall.
Qed.

(** *** The gap detector *)

Lemma lists_set_length a b P :
  lists_set a P -> lists_set b P -> List.length a = List.length b.
Proof.
  intros [Ha Ha'] [Hb Hb']. apply NoDup_same_length; try assumption.
  intros x. now rewrite Ha', Hb'.
Qed.

Lemma lists_set_nil a b P : lists_set a P -> lists_set b P -> a = [] -> b = [].
Proof.
  intros Ha Hb E. pose proof (lists_set_length a b P Ha Hb) as Hlen.
  subst a. destruct b; [reflexivity | discriminate].
Qed.

Lemma earliest_transfer a b P lo :
  lists_set a P -> lists_set b P -> earliest lo a -> earliest lo b.
Proof.
  intros [_ Ha] [_ Hb] [H1 H2]. split.
  - apply Hb, Ha, H1.
  - intros t Ht. apply H2, Ha, Hb, Ht.
Qed.

Lemma latest_transfer a b P hi :
  lists_set a P -> lists_set b P -> latest hi a -> latest hi b.
Proof.
  intros [_ Ha] [_ Hb] [H1 H2]. split.
  - apply Hb, Ha, H1.
  - intros t Ht. apply H2, Ha, Hb, Ht.
Qed.

Lemma missing_reported_transfer a b P n m :
  lists_set a P -> lists_set b P ->
  missing_reported a n m -> missing_reported b n m.
Proof.
  intros Ha Hb. destruct m as [[[[c n'] lo] hi]|]; simpl.
  - intros (-> & -> & Hlo & Hhi). repeat split.
    + now apply (lists_set_length a b P).
    + apply (earliest_transfer a b P lo Ha Hb Hlo).
    + apply (earliest_transfer a b P lo Ha Hb Hlo).
    + apply (latest_transfer a b P hi Ha Hb Hhi).
    + apply (latest_transfer a b P hi Ha Hb Hhi).
  - now apply (lists_set_nil a b P).
Qed.

Lemma irregular_reported_transfer a b P i :
  lists_set a P -> lists_set b P ->
  irregular_reported a i -> irregular_reported b i.
Proof.
  intros Ha Hb. destruct i as [[c hi]|]; simpl.
  - intros (-> & Hhi). repeat split.
    + now apply (lists_set_length a b P).
    + apply (latest_transfer a b P hi Ha Hb Hhi).
    + apply (latest_transfer a b P hi Ha Hb Hhi).
  - now apply (lists_set_nil a b P).
Qed.

Lemma earliest_unique a lo lo' : earliest lo a -> earliest lo' a -> lo = lo'.
Proof.
  intros [H1 H2] [H1' H2']. specialize (H2 _ H1'). specialize (H2' _ H1). lia.
Qed.

Lemma latest_unique a hi hi' : latest hi a -> latest hi' a -> hi = hi'.
Proof.
  intros [H1 H2] [H1' H2']. specialize (H2 _ H1'). specialize (H2' _ H1). lia.
Qed.

Lemma missing_reported_unique a n m m' :
  missing_reported a n m -> missing_reported a n m' -> m = m'.
Proof.
  destruct m as [[[[c k] lo] hi]|], m' as [[[[c' k'] lo'] hi']|]; simpl.
  - intros (-> & -> & Hlo & Hhi) (-> & -> & Hlo' & Hhi').
    now rewrite (earliest_unique a lo lo'), (latest_unique a hi hi').
  - intros (_ & _ & [Hin _] & _) ->. destruct Hin.
  - intros -> (_ & _ & [Hin _] & _). destruct Hin.
  - reflexivity.
Qed.

Lemma irregular_reported_unique a i i' :
  irregular_reported a i -> irregular_reported a i' -> i = i'.
Proof.
  destruct i as [[c hi]|], i' as [[c' hi']|]; simpl.
  - intros (-> & Hhi) (-> & Hhi'). now rewrite (latest_unique a hi hi').
  - intros (_ & [Hin _]) ->. destruct Hin.
  - intros -> (_ & [Hin _]). destruct Hin.
  - reflexivity.
Qed.

Lemma times_on_observed df d t : In t (times_on df d) <-> observed df d t.
Proof.
  unfold times_on, set_of, observed. rewrite unique_In, in_map_iff. split.
  - intros (r & Ht & Hr). apply filter_In in Hr as [Hr Hd].
    apply Z.eqb_eq in Hd. now exists r.
  - intros (r & Hr & Hd & Ht). exists r. split; [assumption|].
    apply filter_In. split; [assumption | now apply Z.eqb_eq].
Qed.

Lemma missing_lists_set grid df d :
  lists_set (set_diff (set_of grid) (times_on df d))
            (fun t => In t grid /\ ~ observed df d t).
Proof.
  split; [apply set_diff_NoDup, unique_NoDup|]. intros t.
  unfold set_of. now rewrite set_diff_In, unique_In, times_on_observed.
Qed.

Lemma irregular_lists_set grid df d :
  lists_set (set_diff (times_on df d) (set_of grid))
            (fun t => observed df d t /\ ~ In t grid).
Proof.
  split; [apply set_diff_NoDup, unique_NoDup|]. intros t.
  unfold set_of at 1. now rewrite set_diff_In, unique_In, times_on_observed.
Qed.

(** What the loop body prints for one date. *)
Lemma check_date_cases grid df d :
  let missing := set_diff (set_of grid) (times_on df d) in
  let irregular := set_diff (times_on df d) (set_of grid) in
  (check_date (set_of grid) df d = [] /\ missing = [] /\ irregular = [])
  \/ exists m i,
       check_date (set_of grid) df d = [Warning d m i]
       /\ (missing <> [] \/ irregular <> [])
       /\ missing_reported missing (List.length (set_of grid)) m
       /\ irregular_reported irregular i.
Proof.
  intros missing irregular. unfold check_date.
  fold missing. fold irregular.
  destruct missing as [|x a] eqn:Em, irregular as [|y b] eqn:Ei; simpl.
  - left. auto.
  - right. eexists _, _. split; [reflexivity|].
    split; [right; discriminate|]. split; [reflexivity|].
    split; [reflexivity|]. rewrite <- Ei. apply last_sorted. congruence.
  - right. eexists _, _. split; [reflexivity|].
    split; [left; discriminate|]. split; [|reflexivity].
    repeat split; rewrite <- Em;
      first [ apply hd_sorted; congruence | apply last_sorted; congruence ].
  - right. eexists _, _. split; [reflexivity|].
    split; [left; discriminate|]. split.
    + repeat split; rewrite <- Em;
        first [ apply hd_sorted; congruence | apply last_sorted; congruence ].
    + split; [reflexivity|]. rewrite <- Ei. apply last_sorted. congruence.
Qed.

Lemma intraday_data_check_reports fuel env stock df p lines :
  intraday_data_check fuel env stock df p = Some (Ok lines) ->
  exists grid,
    Grid.get_full_list_of_daily_bar_times fuel (today env)
      MKT_OPEN MKT_CLOSE p stock = Some (Ok grid)
    /\ hd_error lines = Some (TotalBars (List.length (set_of grid)))
    /\ gaps_reported grid df lines
    /\ (In NoMissingOrIrregular lines <->
        forall d m i, ~ In (Warning d m i) lines).
Proof.
  unfold intraday_data_check.
  destruct (Grid.get_full_list_of_daily_bar_times _ _ _ _ _ _)
    as [[grid|e]|]; try discriminate.
  intros H. inversion H as [Hlines]; clear H. exists grid.
  split; [reflexivity|]. split; [reflexivity|].
  set (dates := sorted (unique (map (fun r => date_of (stamp r)) (rows df)))).
  set (warnings := flat_map (check_date (set_of grid) df) dates).
  assert (Hdates : forall d, In d dates <-> exists t, observed df d t).
  { intros d. unfold dates. rewrite sorted_In, unique_In, in_map_iff.
    unfold observed. split.
    - intros (r & Hd & Hr). exists (time_of (stamp r)), r. auto.
    - intros (t & r & Hr & Hd & _). now exists r. }
  assert (Hw : forall d m i,
            In (Warning d m i) warnings <->
            In d dates /\ In (Warning d m i) (check_date (set_of grid) df d)).
  { intros d m i. unfold warnings. rewrite in_flat_map. split.
    - intros (d' & Hd' & Hin).
      destruct (check_date_cases grid df d') as [(E & _) | (m' & i' & E & _)];
        rewrite E in Hin; simpl in Hin; [easy|].
      destruct Hin as [Hin|[]]. inversion Hin; subst.
      split; [assumption|]. rewrite E. now left.
    - intros [Hd Hin]. now exists d. }
  assert (Hall : forall w, In w warnings -> is_warning w = true).
  { intros w Hin. unfold warnings in Hin. apply in_flat_map in Hin
      as (d & _ & Hin).
    destruct (check_date_cases grid df d) as [(E & _) | (m' & i' & E & _)];
      rewrite E in Hin; simpl in Hin; [easy|].
    destruct Hin as [<-|[]]. reflexivity. }
  assert (Hlw : forall d m i,
            In (Warning d m i)
               ([TotalBars (List.length (set_of grid))] ++ warnings
                ++ (if (List.length warnings =? 0)%nat
                    then [NoMissingOrIrregular] else []))
            <-> In (Warning d m i) warnings).
  { intros d m i. simpl. rewrite in_app_iff. split.
    - intros [H|[H|H]]; [discriminate | assumption |].
      destruct (List.length warnings =? 0)%nat; simpl in H;
        [destruct H as [H|[]]; discriminate | destruct H].
    - auto. }
  split.
  - intros d m i. rewrite Hlw, Hw, Hdates. split.
    + intros [Hobs Hin]. split; [assumption|].
      destruct (check_date_cases grid df d) as [(E & _) | (m' & i' & E & Hne & Hm & Hi)];
        rewrite E in Hin; simpl in Hin; [easy|].
      destruct Hin as [Hin|[]]. inversion Hin; subst.
      exists (set_of grid), (set_diff (set_of grid) (times_on df d)),
        (set_diff (times_on df d) (set_of grid)).
      split; [split; [apply unique_NoDup | intros t; apply unique_In]|].
      split; [apply missing_lists_set|].
      split; [apply irregular_lists_set|]. auto.
    + intros (Hobs & full & missing & irregular & Hf & Hmis & Hirr & Hne & Hm & Hi).
      split; [assumption|].
      assert (Hfull : List.length full = List.length (set_of grid)).
      { apply (lists_set_length _ _ (fun t => In t grid) Hf).
        split; [apply unique_NoDup | intros t; apply unique_In]. }
      rewrite Hfull in Hm.
      apply (missing_reported_transfer _ _ _ _ _ Hmis (missing_lists_set grid df d))
        in Hm.
      apply (irregular_reported_transfer _ _ _ _ Hirr (irregular_lists_set grid df d))
        in Hi.
      destruct (check_date_cases grid df d)
        as [(E & Em & Ei) | (m' & i' & E & _ & Hm' & Hi')].
      * exfalso. destruct Hne as [Hne|Hne]; apply Hne.
        -- apply (lists_set_nil _ _ _ (missing_lists_set grid df d) Hmis Em).
        -- apply (lists_set_nil _ _ _ (irregular_lists_set grid df d) Hirr Ei).
      * rewrite E. left.
        now rewrite (missing_reported_unique _ _ _ _ Hm Hm'),
          (irregular_reported_unique _ _ _ Hi Hi').
  - split.
    + intros Hin d m i Hw'. apply Hlw in Hw'.
      simpl in Hin. destruct Hin as [Hin|Hin]; [discriminate|].
      apply in_app_iff in Hin as [Hin|Hin].
      * apply Hall in Hin. discriminate.
      * destruct warnings; simpl in *; [destruct Hw' | destruct Hin].
    + intros Hno. simpl. right. apply in_app_iff. right.
      destruct warnings as [|w ws] eqn:E; simpl; [now left|].
      exfalso. pose proof (Hall w (or_introl eq_refl)) as Hisw.
      destruct w as [|d m i|]; try discriminate.
      apply (Hno d m i), Hlw. now left.
Qed.

Lemma intraday_data_check_shape fuel env stock df p lines :
  intraday_data_check fuel env stock df p = Some (Ok lines) ->
  exists grid warnings,
    Grid.get_full_list_of_daily_bar_times fuel (today env)
      MKT_OPEN MKT_CLOSE p stock = Some (Ok grid)
    /\ lines = TotalBars (List.length (set_of grid))
               :: warnings
               ++ (if (List.length warnings =? 0)%nat
                   then [NoMissingOrIrregular] else [])
    /\ Forall (fun w => is_warning w = true) warnings.
Proof.
  unfold intraday_data_check.
  destruct (Grid.get_full_list_of_daily_bar_times _ _ _ _ _ _)
    as [[grid|e]|]; try discriminate.
  intros H. inversion H as [Hlines]; clear H.
  exists grid. eexists. split; [reflexivity|]. split; [reflexivity|].
  apply Forall_forall. intros w Hin. apply in_flat_map in Hin as (d & _ & Hin).
  destruct (check_date_cases grid df d) as [(E & _) | (m' & i' & E & _)];
    rewrite E in Hin; simpl in Hin; [easy|].
  destruct Hin as [<-|[]]. reflexivity.
Qed.

Lemma dict_get_known period p :
  dict_get KNOWN_PERIODS period = Some p -> In p [1; 2; 5; 10; 15; 30; 60].
Proof.
  unfold KNOWN_PERIODS. simpl.
  repeat match goal with
         | |- context [if ?b then _ else _] => destruct b
         end;
    intros H; inversion H; subst; simpl; auto 10.
Qed.

(** *** Periods, labels and lengths *)

Lemma cell_eqb_eq a b : cell_eqb a b = true <-> a = b.
Proof.
  destruct a, b; simpl; try (split; [discriminate | discriminate]);
    try tauto.
  - rewrite Z.eqb_eq. split; congruence.
  - rewrite andb_true_iff, !Z.eqb_eq.
    split; [intros []; congruence | intros E; inversion E; auto].
  - rewrite String.eqb_eq. split; congruence.
  - rewrite Z.eqb_eq. split; congruence.
Qed.

Lemma unique_cells_In x l : In x (unique_cells l) <-> In x l.
Proof.
  induction l as [|y l IH]; simpl; [tauto|].
  rewrite filter_In, IH, negb_true_iff.
  destruct (cell_eqb x y) eqn:E.
  - apply cell_eqb_eq in E. subst. split; [tauto|]. intros _. now left.
  - split; [tauto|]. intros [->|H]; [|tauto].
    assert (cell_eqb x x = true) by now apply cell_eqb_eq. congruence.
Qed.

(** One distinct value: every cell is the first one. *)
Lemma unique_cells_single l :
  List.length (unique_cells l) = 1%nat ->
  l <> [] /\ forall c, In c l -> c = hd CNaN l.
Proof.
  destruct l as [|x l]; simpl; [discriminate|]. intros H.
  split; [discriminate|]. intros c [<-|Hc]; [reflexivity|].
  destruct (filter (fun y => negb (cell_eqb y x)) (unique_cells l))
    as [|z s] eqn:E; [|discriminate].
  destruct (cell_eqb c x) eqn:Ec; [now apply cell_eqb_eq in Ec|].
  assert (Hin : In c (filter (fun y => negb (cell_eqb y x)) (unique_cells l))).
  { apply filter_In. split; [now apply unique_cells_In | now rewrite Ec]. }
  rewrite E in Hin. destruct Hin.
Qed.

Lemma unique_cells_repeat c l :
  l <> [] -> (forall x, In x l -> x = c) -> unique_cells l = [c].
Proof.
  intros Hne Hall. destruct l as [|x l]; [congruence|]. simpl.
  assert (x = c) by (apply Hall; now left). subst x. f_equal.
  destruct (filter (fun y => negb (cell_eqb y c)) (unique_cells l))
    as [|z s] eqn:E; [reflexivity|].
  assert (Hz : In z (filter (fun y => negb (cell_eqb y c)) (unique_cells l)))
    by (rewrite E; now left).
  apply filter_In in Hz as [Hz Hne'].
  apply (proj1 (unique_cells_In _ _)) in Hz.
  assert (Ez : z = c) by (apply Hall; now right).
  rewrite Ez, (proj2 (cell_eqb_eq c c) eq_refl) in Hne'. discriminate.
Qed.

Lemma check_period_ok df period :
  check_period df = Ok period ->
  rows df <> []
  /\ occurrences "per" (names df) = 1%nat
  /\ forall r, In r (rows df) -> cell_of "per" r = period.
Proof.
  unfold check_period, column. intros H.
  destruct (occurrences "per" (names df)) as [|[|n]] eqn:O; try discriminate.
  simpl in H.
  destruct (Nat.eqb_spec (List.length (unique_cells
              (map (cell_of "per") (rows df)))) 1) as [E|E]; [|discriminate].
  simpl in H. inversion H; subst period; clear H.
  apply unique_cells_single in E as [Hne Hall]. split; [|split].
  - intros E. rewrite E in Hne. now apply Hne.
  - reflexivity.
  - intros r Hr. apply Hall. now apply in_map.
Qed.

Lemma drop_duplicates_length seen l :
  (List.length (drop_duplicates seen l) <= List.length l)%nat.
Proof.
  revert seen; induction l as [|x l IH]; intros seen; simpl; [lia|].
  destruct (mem (stamp x) seen); simpl; [specialize (IH seen)
                                        | specialize (IH (stamp x :: seen))];
    lia.
Qed.

Lemma drop_duplicates_NoDup_map {B : Type} (f : Row -> B) seen l :
  NoDup (map f l) -> NoDup (map f (drop_duplicates seen l)).
Proof.
  revert seen; induction l as [|x l IH]; intros seen; simpl; intros H;
    [constructor|].
  inversion H as [|? ? Hx Hl]; subst.
  destruct (mem (stamp x) seen); simpl; [now apply IH|].
  constructor; [|now apply IH]. intros Hin. apply Hx.
  apply in_map_iff in Hin as (y & Ey & Hy).
  apply drop_duplicates_In in Hy as [Hy _]. rewrite <- Ey. now apply in_map.
Qed.

Lemma kept_rows_length args mid :
  (List.length (kept_rows args mid) <= List.length (rows mid))%nat.
Proof.
  unfold kept_rows. rewrite (Permutation_length (sort_by_perm stamp _)).
  destruct (filters_by_stamp args mid) as (Q & HQ). rewrite HQ.
  etransitivity; [apply drop_duplicates_length | apply filter_length_le].
Qed.

Lemma kept_rows_NoDup_labels args mid :
  NoDup (map label (rows mid)) -> NoDup (map label (kept_rows args mid)).
Proof.
  intros H. unfold kept_rows.
  apply (Permutation_NoDup
           (Permutation_map label (Permutation_sym (sort_by_perm stamp _)))).
  destruct (filters_by_stamp args mid) as (Q & HQ). rewrite HQ.
  now apply drop_duplicates_NoDup_map, NoDup_map_filter.
Qed.

Lemma assoc_set_keys_present {V : Type} k (v : V) l :
  In k (map fst l) -> map fst (assoc_set k v l) = map fst l.
Proof.
  induction l as [|[k' w] l IH]; simpl; [easy|].
  destruct (String.eqb_spec k k') as [->|Hne]; simpl; [reflexivity|].
  intros [E|Hin]; [congruence|]. now rewrite IH.
Qed.

Lemma occurrences_pos_In n l : occurrences n l <> O -> In n l.
Proof.
  unfold occurrences. intros H.
  destruct (filter (String.eqb n) l) as [|x s] eqn:E; [now simpl in H|].
  assert (Hin : In x (filter (String.eqb n) l)) by (rewrite E; now left).
  apply filter_In in Hin as [Hin Heq]. apply String.eqb_eq in Heq. now subst.
Qed.

Lemma column_occurrences df n c :
  column df n = Ok c -> occurrences n (names df) = 1%nat.
Proof.
  unfold column. destruct (occurrences n (names df)) as [|[|k]];
    intros H; [discriminate | reflexivity | discriminate].
Qed.

Lemma set_column_names_present df n d values df' :
  set_column df n d values = Ok df' ->
  occurrences n (names df) = 1%nat ->
  names df' = names df.
Proof.
  unfold set_column. intros H O. rewrite O in H. inversion H; subst df'.
  unfold names; simpl. apply assoc_set_keys_present.
  apply occurrences_pos_In. fold (names df). lia.
Qed.

Section Pipeline.
Context (fromisoformat : string -> option Z)
        (to_datetime : list cell -> option (list Z))
        (str : cell -> string) (int : cell -> option Z).

Local Abbreviation typed := (typed fromisoformat to_datetime str int).
Local Abbreviation cleaned := (cleaned fromisoformat to_datetime str int).
Local Abbreviation process_dataframe :=
  (process_dataframe fromisoformat to_datetime str int).

Lemma cleaned_ok env raw args out period :
  cleaned env raw args = Ok (out, period) ->
  exists mid,
    typed raw args = Ok (mid, period)
    /\ columns out = columns mid
    /\ rows out = kept_rows args mid
    /\ interactive args && answers_n env = false.
Proof.
  unfold cleaned. intros H. apply bind_ok in H as ([mid p] & Htyped & H).
  simpl in H. destruct (interactive args && answers_n env); [discriminate|].
  inversion H; subst. exists mid. repeat split; try assumption.
  - simpl. unfold check_duplicates, drop_extended_hours, drop_by_dates.
    destruct (_ <? _)%nat; simpl; destruct (extended_hours args);
      destruct (start_date args), (end_date args); reflexivity.
  - simpl. unfold kept_rows. now rewrite check_duplicates_rows.
Qed.

Lemma process_dataframe_ok fuel env raw args out lines :
  process_dataframe fuel env raw args = Some (Ok (out, lines)) ->
  exists period, cleaned env raw args = Ok (out, period).
Proof.
  unfold process_dataframe.
  destruct (cleaned env raw args) as [[df period]|e]; [|discriminate].
  intros H. exists period.
  destruct (dict_get KNOWN_PERIODS period) as [p|].
  - destruct (p =? 0); [now inversion H|].
    destruct (intraday_data_check _ _ _ _ _) as [[l|e]|];
      inversion H; reflexivity.
  - now inversion H.
Qed.

Lemma kept_rows_In args mid r :
  In r (kept_rows args mid) ->
  In r (rows mid)
  /\ (forall d, start_date args = Some d -> d <= date_of (stamp r))
  /\ (forall d, end_date args = Some d -> date_of (stamp r) <= d)
  /\ (extended_hours args = false ->
      MKT_OPEN <= time_of (stamp r) < MKT_CLOSE).
Proof.
  unfold kept_rows. intros H. apply sort_by_In in H.
  apply drop_duplicates_In in H as [H _].
  unfold drop_extended_hours in H. destruct (extended_hours args).
  - apply drop_by_dates_rows in H. intuition discriminate.
  - simpl in H. apply filter_In in H as [H Hs].
    apply drop_by_dates_rows in H. apply in_session_spec in Hs. intuition.
Qed.

Lemma typed_labels raw args mid period :
  typed raw args = Ok (mid, period) ->
  map label (rows mid) = map label (rows raw).
Proof.
  unfold typed. intros H.
  set (df0 := rename_columns clean_column_name raw) in H.
  assert (H0 : map label (rows df0) = map label (rows raw)).
  { unfold df0, rename_columns; simpl. rewrite map_map. reflexivity. }
  apply bind_ok in H as (p & _ & H).
  apply bind_ok in H as (df1 & H1 & H).
  apply bind_ok in H as (df2 & H2 & H).
  apply bind_ok in H as (df3 & H3 & H).
  inversion H; subst mid p; clear H.
  assert (L1 : map label (rows df1) = map label (rows df0)).
  { unfold convert_ticker in H1.
    apply bind_ok in H1 as (c & Hc & H1). apply bind_ok in H1 as (c' & Hc' & H1).
    apply (set_column_labels _ _ _ _ _ H1).
    rewrite (mapM_ok_length _ _ _ Hc'). now apply column_length in Hc. }
  assert (L2 : map label (rows df2) = map label (rows df1)).
  { unfold create_datetime in H2.
    destruct (has_column df1 "date" && has_column df1 "time").
    - apply bind_ok in H2 as (cd & Hcd & H2).
      apply bind_ok in H2 as (ct & Hct & H2).
      apply bind_ok in H2 as (c' & Hc' & H2).
      apply (set_column_labels _ _ _ _ _ H2).
      rewrite (mapM_ok_length _ _ _ Hc'), length_combine.
      apply column_length in Hcd, Hct. lia.
    - destruct (has_column df1 "datetime"); [|discriminate].
      apply bind_ok in H2 as (c & Hc & H2).
      destruct (to_datetime c) as [ts|]; [|discriminate].
      destruct (Nat.eqb_spec (List.length ts) (List.length c)); [|discriminate].
      apply (set_column_labels _ _ _ _ _ H2).
      rewrite length_map. apply column_length in Hc. lia. }
  assert (L3 : map label (rows df3) = map label (rows df2)).
  { unfold cast_vol in H3. destruct (has_column df2 "vol"); [|now inversion H3].
    apply bind_ok in H3 as (d & _ & H3).
    destruct (negb (is_integer_dtype d)); [|now inversion H3].
    apply bind_ok in H3 as (c & Hc & H3). apply bind_ok in H3 as (c' & Hc' & H3).
    apply (set_column_labels _ _ _ _ _ H3).
    rewrite (mapM_ok_length _ _ _ Hc'). now apply column_length in Hc. }
  assert (L4 : map label (rows (drop_date_time args df3))
               = map label (rows df3)).
  { unfold drop_date_time. destruct (_ && _); [|reflexivity].
    simpl. rewrite map_map. reflexivity. }
  congruence.
Qed.

Lemma process_dataframe_lines fuel env raw args out lines :
  process_dataframe fuel env raw args = Some (Ok (out, lines)) ->
  exists period,
    cleaned env raw args = Ok (out, period)
    /\ match dict_get KNOWN_PERIODS period with
       | Some p =>
           intraday_data_check fuel env (stock args) out p = Some (Ok lines)
       | None => lines = []
       end.
Proof.
  unfold process_dataframe.
  destruct (cleaned env raw args) as [[df period]|e]; [|discriminate].
  intros H. exists period.
  destruct (dict_get KNOWN_PERIODS period) as [p|] eqn:Hp.
  - apply dict_get_known in Hp.
    destruct (Z.eqb_spec p 0) as [->|_];
      [simpl in Hp; intuition discriminate|].
    destruct (intraday_data_check _ _ _ _ _) as [[l|e]|] eqn:Hc;
      inversion H; subst; split; [reflexivity | assumption].
  - inversion H; subst; split; reflexivity.
Qed.

Lemma typed_period raw args mid period :
  typed raw args = Ok (mid, period) ->
  check_period (rename_columns clean_column_name raw) = Ok period.
Proof.
  unfold typed. intros H.
  apply bind_ok in H as (p & Hp & H).
  apply bind_ok in H as (df1 & _ & H).
  apply bind_ok in H as (df2 & _ & H).
  apply bind_ok in H as (df3 & _ & H).
  inversion H; subst. exact Hp.
Qed.

Lemma typed_raises raw args e fuel env :
  typed raw args = Raise e ->
  process_dataframe fuel env raw args = Some (Raise e).
Proof.
  intros H. unfold process_dataframe, Cleaner.cleaned. now rewrite H.
Qed.

Lemma convert_ticker_names df df' :
  convert_ticker df = Ok df' -> names df' = names df.
Proof.
  unfold convert_ticker. intros H.
  apply bind_ok in H as (c & Hc & H). apply bind_ok in H as (c' & _ & H).
  apply (set_column_names_present _ _ _ _ _ H).
  now apply column_occurrences in Hc.
Qed.

End Pipeline.

End CleanerFacts.

(** ** The cleaning pipeline: results *)

Module CleanerTheorems.
Import Cleaner ListFacts CleanerFacts.

(** C5. When the pipeline succeeds the timestamps of the returned series
    are strictly increasing, and the rows returned are exactly the first
    occurrences of their timestamps: every returned row is, among the rows
    of the input (taken with their timestamps, in input order), the first
    one carrying its timestamp; and conversely every input row that has no
    row of the same timestamp before it, and that the date and session
    options let pass, is returned. *)
Theorem cleaned_series_strictly_increasing_first_kept
    fromisoformat to_datetime str int fuel env raw args out lines :
  process_dataframe fromisoformat to_datetime str int fuel env raw args
  = Some (Ok (out, lines)) ->
  StronglySorted Z.lt (map stamp (rows out))
  /\ exists mid period,
       typed fromisoformat to_datetime str int raw args = Ok (mid, period)
       /\ map label (rows mid) = map label (rows raw)
       /\ (forall r, In r (rows out) ->
            exists before after,
              rows mid = before ++ r :: after
              /\ Forall (fun r' => stamp r' <> stamp r) before)
       /\ (forall before r after,
            rows mid = before ++ r :: after ->
            Forall (fun r' => stamp r' <> stamp r) before ->
            (forall d, start_date args = Some d -> d <= date_of (stamp r)) ->
            (forall d, end_date args = Some d -> date_of (stamp r) <= d) ->
            (extended_hours args = false ->
             MKT_OPEN <= time_of (stamp r) < MKT_CLOSE) ->
            In r (rows out)).
Proof.
  intros H. apply process_dataframe_ok in H as (period & H).
  apply cleaned_ok in H as (mid & Htyped & _ & Hrows & _).
  rewrite Hrows. split; [apply kept_rows_sorted|].
  exists mid, period. split; [assumption|].
  split; [now apply typed_labels in Htyped|].
  split; [intros r Hr; now apply kept_rows_first in Hr|].
  intros before r after Hmid Hall Hs He Hx.
  apply (kept_rows_keeps_first args mid before r after); try assumption.
  apply filters_pass; try assumption. rewrite Hmid. apply in_elt.
Qed.

Lemma cleaned_series_strictly_increasing_witness :
  Examples.run Examples.raw Examples.futures_args
  = Some (Ok (Examples.clean, Examples.clean_lines))
  /\ StronglySorted Z.lt (map stamp (rows Examples.clean))
  /\ exists mid period,
       typed Examples.fromisoformat Examples.to_datetime Examples.str
         Examples.int Examples.raw Examples.futures_args = Ok (mid, period)
       /\ map label (rows mid) = map label (rows Examples.raw)
       /\ (forall r, In r (rows Examples.clean) ->
            exists before after,
              rows mid = before ++ r :: after
              /\ Forall (fun r' => stamp r' <> stamp r) before)
       /\ (forall before r after,
            rows mid = before ++ r :: after ->
            Forall (fun r' => stamp r' <> stamp r) before ->
            (forall d, start_date Examples.futures_args = Some d ->
                       d <= date_of (stamp r)) ->
            (forall d, end_date Examples.futures_args = Some d ->
                       date_of (stamp r) <= d) ->
            (extended_hours Examples.futures_args = false ->
             MKT_OPEN <= time_of (stamp r) < MKT_CLOSE) ->
            In r (rows Examples.clean)).
Proof.
  split; [reflexivity|].
  apply (cleaned_series_strictly_increasing_first_kept
           Examples.fromisoformat Examples.to_datetime Examples.str
           Examples.int 520 Examples.env Examples.raw Examples.futures_args
           Examples.clean Examples.clean_lines).
  reflexivity.
Defined.

(** C6. When the pipeline succeeds with the extended-hours option unset,
    every returned row has its time of day in [10:00, 18:40) and no
    returned row carries the timestamp of an input row whose time of day is
    before 10:00 or at or after 18:40; with the option set, every input row
    within the configured dates has its timestamp in the returned series,
    whatever its time of day. *)
Theorem session_window_rows
    fromisoformat to_datetime str int fuel env raw args out lines :
  process_dataframe fromisoformat to_datetime str int fuel env raw args
  = Some (Ok (out, lines)) ->
  exists mid period,
    typed fromisoformat to_datetime str int raw args = Ok (mid, period)
    /\ map label (rows mid) = map label (rows raw)
    /\ (extended_hours args = false ->
        (forall r, In r (rows out) ->
           MKT_OPEN <= time_of (stamp r) < MKT_CLOSE)
        /\ (forall r, In r (rows mid) ->
              time_of (stamp r) < MKT_OPEN \/ MKT_CLOSE <= time_of (stamp r) ->
              ~ In r (rows out)
              /\ ~ exists r', In r' (rows out) /\ stamp r' = stamp r))
    /\ (extended_hours args = true ->
        forall r, In r (rows mid) ->
          (forall d, start_date args = Some d -> d <= date_of (stamp r)) ->
          (forall d, end_date args = Some d -> date_of (stamp r) <= d) ->
          exists r', In r' (rows out) /\ stamp r' = stamp r).
Proof.
  intros H. apply process_dataframe_ok in H as (period & H).
  apply cleaned_ok in H as (mid & Htyped & _ & Hrows & _).
  exists mid, period. split; [assumption|].
  split; [now apply typed_labels in Htyped|]. rewrite Hrows. split.
  - intros Hext.
    assert (Hin : forall r, In r (kept_rows args mid) ->
                    MKT_OPEN <= time_of (stamp r) < MKT_CLOSE)
      by (intros r Hr; apply kept_rows_In in Hr as (_ & _ & _ & Hs); auto).
    split; [exact Hin|]. intros r _ Hout. split.
    + intros Hr. apply Hin in Hr. lia.
    + intros (r' & Hr' & Heq). apply Hin in Hr'. rewrite Heq in Hr'. lia.
  - intros Hext r Hr Hs He. apply kept_rows_all_stamps.
    unfold drop_extended_hours. rewrite Hext.
    apply drop_by_dates_rows. auto.
Qed.

Lemma session_window_rows_witness :
  Examples.run Examples.raw Examples.futures_args
  = Some (Ok (Examples.clean, Examples.clean_lines))
  /\ exists mid period,
    typed Examples.fromisoformat Examples.to_datetime Examples.str
      Examples.int Examples.raw Examples.futures_args = Ok (mid, period)
    /\ map label (rows mid) = map label (rows Examples.raw)
    /\ (extended_hours Examples.futures_args = false ->
        (forall r, In r (rows Examples.clean) ->
           MKT_OPEN <= time_of (stamp r) < MKT_CLOSE)
        /\ (forall r, In r (rows mid) ->
              time_of (stamp r) < MKT_OPEN \/ MKT_CLOSE <= time_of (stamp r) ->
              ~ In r (rows Examples.clean)
              /\ ~ exists r', In r' (rows Examples.clean)
                              /\ stamp r' = stamp r))
    /\ (extended_hours Examples.futures_args = true ->
        forall r, In r (rows mid) ->
          (forall d, start_date Examples.futures_args = Some d ->
                     d <= date_of (stamp r)) ->
          (forall d, end_date Examples.futures_args = Some d ->
                     date_of (stamp r) <= d) ->
          exists r', In r' (rows Examples.clean) /\ stamp r' = stamp r).
Proof.
  split; [reflexivity|].
  apply (session_window_rows
           Examples.fromisoformat Examples.to_datetime Examples.str
           Examples.int 520 Examples.env Examples.raw Examples.futures_args
           Examples.clean Examples.clean_lines).
  reflexivity.
Defined.

(** C8. When the pipeline succeeds, the gap check runs exactly when the
    period of the series is one of the known minute values 1, 2, 5, 10, 15,
    30, 60 (for the symbolic periods nothing is printed).  When it runs, the
    returned series gets a warning for a date exactly when that date is in
    the series and its missing times (grid minus observed) or its irregular
    times (observed minus grid) are not empty; the warning gives the number
    of missing times with the earliest and the latest one, and the number
    of irregular times with the latest one.  A date on which exactly the
    12:00 bar is missing gets the warning "1 missing, from 12:00 to 12:00"
    and no irregular part. *)
Theorem gap_detector_report
    fromisoformat to_datetime str int fuel env raw args out lines :
  process_dataframe fromisoformat to_datetime str int fuel env raw args
  = Some (Ok (out, lines)) ->
  (exists mid period,
     typed fromisoformat to_datetime str int raw args = Ok (mid, period)
     /\ match dict_get KNOWN_PERIODS period with
        | None => lines = []
        | Some p =>
            In p [1; 2; 5; 10; 15; 30; 60]
            /\ exists grid,
                 Grid.get_full_list_of_daily_bar_times fuel (today env)
                   MKT_OPEN MKT_CLOSE p (stock args) = Some (Ok grid)
                 /\ hd_error lines
                    = Some (TotalBars (List.length (set_of grid)))
                 /\ gaps_reported grid out lines
                 /\ forall d,
                      (forall t, observed out d t <->
                                 In t grid /\ t <> mk_time 12 0) ->
                      In (Warning d
                            (Some (1%nat, List.length (set_of grid),
                                   mk_time 12 0, mk_time 12 0))
                            None) lines
        end)
  /\ (forall p, In p [1; 2; 5; 10; 15; 30; 60] ->
        dict_get KNOWN_PERIODS (CInt p) = Some p)
  /\ (forall s, In s ["daily"; "weekly"; "monthly"; "Monthly"]%string ->
        dict_get KNOWN_PERIODS (CStr s) = None).
Proof.
  intros H. split; [|split].
  - apply process_dataframe_lines in H as (period & H & Hlines).
    apply cleaned_ok in H as (mid & Htyped & _).
    exists mid, period. split; [assumption|].
    destruct (dict_get KNOWN_PERIODS period) as [p|] eqn:Hp; [|assumption].
    apply dict_get_known in Hp. split; [assumption|].
    apply intraday_data_check_reports in Hlines
      as (grid & Hgrid & Hhd & Hgaps & _).
    exists grid. split; [assumption|]. split; [assumption|].
    split; [assumption|]. intros d Hobs.
    destruct (GridFacts.known_grid_noon _ _ _ _ _ Hp Hgrid) as [Hopen Hnoon].
    apply Hgaps. split.
    + exists MKT_OPEN. apply Hobs. split; [assumption | discriminate].
    + exists (set_of grid), [mk_time 12 0], [].
      split; [split; [apply unique_NoDup | intros t; apply unique_In]|].
      split; [|split; [|split; [left; discriminate | split]]].
      * split; [repeat constructor; simpl; tauto|].
        intros t. rewrite Hobs. simpl. split.
        -- intros [<-|[]]. tauto.
        -- intros [Hin Hno]. left.
           destruct (Z.eq_dec t (mk_time 12 0)); [congruence | tauto].
      * split; [constructor|]. intros t. rewrite Hobs. simpl. tauto.
      * simpl. repeat split; try (now left); intros t [<-|[]]; lia.
      * reflexivity.
  - intros p Hp. simpl in Hp.
    repeat (destruct Hp as [<-|Hp]; [reflexivity|]). destruct Hp.
  - intros s Hs. simpl in Hs.
    repeat (destruct Hs as [<-|Hs]; [reflexivity|]). destruct Hs.
Qed.

Lemma gap_detector_report_witness :
  Examples.run Examples.raw Examples.futures_args
  = Some (Ok (Examples.clean, Examples.clean_lines))
  /\ Examples.clean_lines
     = [ TotalBars 8;
         Warning 19360 (Some (1%nat, 8%nat, mk_time 12 0, mk_time 12 0)) None ]
  /\ (exists mid period,
     typed Examples.fromisoformat Examples.to_datetime Examples.str
       Examples.int Examples.raw Examples.futures_args = Ok (mid, period)
     /\ match dict_get KNOWN_PERIODS period with
        | None => Examples.clean_lines = []
        | Some p =>
            In p [1; 2; 5; 10; 15; 30; 60]
            /\ exists grid,
                 Grid.get_full_list_of_daily_bar_times 520
                   (today Examples.env) MKT_OPEN MKT_CLOSE p
                   (stock Examples.futures_args) = Some (Ok grid)
                 /\ hd_error Examples.clean_lines
                    = Some (TotalBars (List.length (set_of grid)))
                 /\ gaps_reported grid Examples.clean Examples.clean_lines
                 /\ forall d,
                      (forall t, observed Examples.clean d t <->
                                 In t grid /\ t <> mk_time 12 0) ->
                      In (Warning d
                            (Some (1%nat, List.length (set_of grid),
                                   mk_time 12 0, mk_time 12 0))
                            None) Examples.clean_lines
        end)
  /\ (forall p, In p [1; 2; 5; 10; 15; 30; 60] ->
        dict_get KNOWN_PERIODS (CInt p) = Some p)
  /\ (forall s, In s ["daily"; "weekly"; "monthly"; "Monthly"]%string ->
        dict_get KNOWN_PERIODS (CStr s) = None).
Proof.
  split; [reflexivity|]. split; [reflexivity|].
  apply (gap_detector_report
           Examples.fromisoformat Examples.to_datetime Examples.str
           Examples.int 520 Examples.env Examples.raw Examples.futures_args
           Examples.clean Examples.clean_lines).
  reflexivity.
Defined.

(** X11. The pipeline returns a table only for an input with at least one
    row whose ['per'] cells (under the cleaned column names) all hold one
    and the same value; on an input without rows it ends in an exception,
    whatever the options. *)
Theorem cleaning_needs_rows_of_one_period
    fromisoformat to_datetime str int fuel env raw args :
  (forall out lines,
     process_dataframe fromisoformat to_datetime str int fuel env raw args
     = Some (Ok (out, lines)) ->
     rows raw <> []
     /\ exists period,
          forall r, In r (rows (rename_columns clean_column_name raw)) ->
                    cell_of "per" r = period)
  /\ (rows raw = [] ->
      exists e,
        process_dataframe fromisoformat to_datetime str int fuel env raw args
        = Some (Raise e)).
Proof.
  split.
  - intros out lines H. apply process_dataframe_ok in H as (period & H).
    apply cleaned_ok in H as (mid & Htyped & _).
    apply typed_period, check_period_ok in Htyped as (Hne & _ & Hall).
    split; [|now exists period].
    intros E. apply Hne. unfold rename_columns; simpl. now rewrite E.
  - intros E.
    destruct (typed fromisoformat to_datetime str int raw args)
      as [[mid period]|e] eqn:Ht.
    + apply typed_period, check_period_ok in Ht as (Hne & _).
      exfalso. apply Hne. unfold rename_columns; simpl. now rewrite E.
    + exists e. now apply typed_raises.
Qed.

Lemma cleaning_needs_rows_witness :
  let empty := {| columns := Examples.raw_columns; rows := [] |} in
  rows empty = []
  /\ exists e,
       process_dataframe Examples.fromisoformat Examples.to_datetime
         Examples.str Examples.int 520 Examples.env empty
         Examples.futures_args = Some (Raise e).
Proof.
  intros empty. split; [reflexivity|].
  exact (proj2 (cleaning_needs_rows_of_one_period Examples.fromisoformat
                  Examples.to_datetime Examples.str Examples.int 520
                  Examples.env empty Examples.futures_args) eq_refl).
Defined.

(** X12. Every row the pipeline returns has the index label of an input
    row and a date within the configured start and end dates (inclusive);
    the output has no more rows than the input, and index labels that are
    distinct in the input stay distinct in the output. *)
Theorem cleaned_rows_come_from_input
    fromisoformat to_datetime str int fuel env raw args out lines :
  process_dataframe fromisoformat to_datetime str int fuel env raw args
  = Some (Ok (out, lines)) ->
  (forall r, In r (rows out) ->
     In (label r) (map label (rows raw))
     /\ (forall d, start_date args = Some d -> d <= date_of (stamp r))
     /\ (forall d, end_date args = Some d -> date_of (stamp r) <= d))
  /\ (List.length (rows out) <= List.length (rows raw))%nat
  /\ (NoDup (map label (rows raw)) -> NoDup (map label (rows out))).
Proof.
  intros H. apply process_dataframe_ok in H as (period & H).
  apply cleaned_ok in H as (mid & Htyped & _ & Hrows & _).
  apply typed_labels in Htyped. rewrite Hrows. split; [|split].
  - intros r Hr. apply kept_rows_In in Hr as (Hr & Hs & He & _).
    split; [|auto]. rewrite <- Htyped. now apply in_map.
  - rewrite <- (length_map label (rows raw)), <- Htyped, length_map.
    apply kept_rows_length.
  - intros Hnd. apply kept_rows_NoDup_labels. now rewrite Htyped.
Qed.

Lemma cleaned_rows_come_from_input_witness :
  Examples.run Examples.raw Examples.futures_args
  = Some (Ok (Examples.clean, Examples.clean_lines))
  /\ (forall r, In r (rows Examples.clean) ->
        In (label r) (map label (rows Examples.raw))
        /\ (forall d, start_date Examples.futures_args = Some d ->
                      d <= date_of (stamp r))
        /\ (forall d, end_date Examples.futures_args = Some d ->
                      date_of (stamp r) <= d))
  /\ (List.length (rows Examples.clean) <= List.length (rows Examples.raw))%nat
  /\ (NoDup (map label (rows Examples.raw)) ->
      NoDup (map label (rows Examples.clean))).
Proof.
  split; [reflexivity|].
  apply (cleaned_rows_come_from_input
           Examples.fromisoformat Examples.to_datetime Examples.str
           Examples.int 520 Examples.env Examples.raw Examples.futures_args
           Examples.clean Examples.clean_lines).
  reflexivity.
Defined.

(** X13. When the cleaned column names hold neither both of ['date'] and
    ['time'] nor ['datetime'], the pipeline ends in an exception. *)
Theorem missing_temporal_columns_raise
    fromisoformat to_datetime str int fuel env raw args :
  let df := rename_columns clean_column_name raw in
  has_column df "date" && has_column df "time" = false ->
  has_column df "datetime" = false ->
  exists e,
    process_dataframe fromisoformat to_datetime str int fuel env raw args
    = Some (Raise e).
Proof.
  intros df Hdt Hd.
  destruct (typed fromisoformat to_datetime str int raw args)
    as [[mid period]|e] eqn:Ht; [|exists e; now apply typed_raises].
  exfalso. unfold typed in Ht. fold df in Ht.
  apply bind_ok in Ht as (p & _ & Ht).
  apply bind_ok in Ht as (df1 & H1 & Ht).
  apply bind_ok in Ht as (df2 & H2 & _).
  apply convert_ticker_names in H1.
  unfold create_datetime, has_column in H2. rewrite H1 in H2.
  unfold has_column in Hdt, Hd. rewrite Hdt, Hd in H2. discriminate.
Qed.

Lemma missing_temporal_columns_witness :
  let raw := {| columns := [("<TICKER>", object); ("<PER>", int64)]%string;
                rows := [ {| label := 0;
                             fields := [("<TICKER>", CStr "SPFB.Si");
                                        ("<PER>", CInt 5)]%string |} ] |} in
  let df := rename_columns clean_column_name raw in
  has_column df "date" && has_column df "time" = false
  /\ has_column df "datetime" = false
  /\ exists e,
       process_dataframe Examples.fromisoformat Examples.to_datetime
         Examples.str Examples.int 520 Examples.env raw Examples.futures_args
       = Some (Raise e).
Proof.
  intros raw df. split; [reflexivity|]. split; [reflexivity|].
  exact (missing_temporal_columns_raise Examples.fromisoformat
           Examples.to_datetime Examples.str Examples.int 520 Examples.env
           raw Examples.futures_args eq_refl eq_refl).
Defined.

(** X14. The intraday check prints the bar count followed by the line "no
    missing/irregular bars" and nothing else exactly when every date of the
    series carries exactly the times of the grid; otherwise that summary
    line is not printed alone. *)
Theorem summary_only_iff_complete fuel env stock df p lines :
  intraday_data_check fuel env stock df p = Some (Ok lines) ->
  exists grid,
    Grid.get_full_list_of_daily_bar_times fuel (today env)
      MKT_OPEN MKT_CLOSE p stock = Some (Ok grid)
    /\ (lines = [TotalBars (List.length (set_of grid)); NoMissingOrIrregular]
        <-> forall d, (exists t, observed df d t) ->
                      forall t, observed df d t <-> In t grid).
Proof.
  intros H.
  destruct (intraday_data_check_shape _ _ _ _ _ _ H)
    as (grid & warnings & Hgrid & Hlines & Hall).
  destruct (intraday_data_check_reports _ _ _ _ _ _ H)
    as (grid' & Hgrid' & _ & Hgaps & _).
  assert (grid' = grid) by congruence. subst grid'.
  exists grid. split; [assumption|]. split.
  - intros E d Hobs t.
    assert (Hno : forall m i, ~ In (Warning d m i) lines)
      by (intros m i; rewrite E; simpl; intuition discriminate).
    destruct (check_date_cases grid df d)
      as [(_ & Em & Ei) | (m & i & _ & Hne & Hm & Hi)].
    + pose proof (missing_lists_set grid df d) as [_ Hmis].
      pose proof (irregular_lists_set grid df d) as [_ Hirr].
      rewrite Em in Hmis. rewrite Ei in Hirr. simpl in Hmis, Hirr.
      assert (Hdec : observed df d t \/ ~ observed df d t).
      { destruct (in_dec Z.eq_dec t (times_on df d)) as [Hin|Hin];
          [left | right]; now rewrite <- times_on_observed. }
      split.
      * intros Ho. destruct (in_dec Z.eq_dec t grid) as [|Hn]; [assumption|].
        exfalso. apply (Hirr t). tauto.
      * intros Hg. destruct Hdec as [|Hn]; [assumption|].
        exfalso. apply (Hmis t). tauto.
    + exfalso. apply (Hno m i). apply Hgaps. split; [assumption|].
      exists (set_of grid), (set_diff (set_of grid) (times_on df d)),
        (set_diff (times_on df d) (set_of grid)).
      split; [split; [apply unique_NoDup | intros x; apply unique_In]|].
      split; [apply missing_lists_set|].
      split; [apply irregular_lists_set|]. auto.
  - intros Hcomplete.
    assert (Hw : warnings = []).
    { destruct warnings as [|w ws]; [reflexivity|]. exfalso.
      pose proof (Forall_inv Hall) as Hisw. simpl in Hisw.
      destruct w as [|d m i|]; try discriminate.
      assert (Hin : In (Warning d m i) lines)
        by (rewrite Hlines; simpl; right; now left).
      apply Hgaps in Hin
        as (Hobs & full & missing & irregular & _ & [_ Hmis] & [_ Hirr]
            & Hne & _).
      specialize (Hcomplete d Hobs).
      destruct Hne as [Hne|Hne].
      - destruct missing as [|t s]; [congruence|].
        destruct (proj1 (Hmis t) (or_introl eq_refl)) as [Hg Hn].
        apply Hn, Hcomplete, Hg.
      - destruct irregular as [|t s]; [congruence|].
        destruct (proj1 (Hirr t) (or_introl eq_refl)) as [Ho Hn].
        apply Hn, Hcomplete, Ho. }
    rewrite Hlines, Hw. reflexivity.
Qed.

Lemma summary_only_iff_complete_witness :
  intraday_data_check 520 Examples.env false MoreExamples.complete_day 60
  = Some (Ok [TotalBars 8; NoMissingOrIrregular])
  /\ exists grid,
       Grid.get_full_list_of_daily_bar_times 520 (today Examples.env)
         MKT_OPEN MKT_CLOSE 60 false = Some (Ok grid)
       /\ ([TotalBars 8; NoMissingOrIrregular]
           = [TotalBars (List.length (set_of grid)); NoMissingOrIrregular]
           <-> forall d, (exists t, observed MoreExamples.complete_day d t) ->
                         forall t, observed MoreExamples.complete_day d t
                                   <-> In t grid).
Proof.
  split; [reflexivity|].
  apply (summary_only_iff_complete 520 Examples.env false
           MoreExamples.complete_day 60 [TotalBars 8; NoMissingOrIrregular]).
  reflexivity.
Defined.

End CleanerTheorems.

(** ** The merge: facts *)

Module MergerFacts.
Import Merger ListFacts.

Lemma unique_dates_In df d :
  In d (unique_dates df) <-> exists r, In r (rows df) /\ date r = d.
Proof.
  unfold unique_dates. rewrite unique_In, in_map_iff.
  split; intros (r & H1 & H2); exists r; auto.
Qed.

Lemma at_index_map {V : Type} (f : Z -> V) d l :
  at_index d (map (fun k => (k, f k)) l)
  = if mem d l then Some (f d) else None.
Proof.
  induction l as [|k l IH]; simpl; [reflexivity|].
  destruct (Z.eqb_spec d k) as [->|Hne]; simpl; [reflexivity | exact IH].
Qed.

Lemma at_index_daily df d :
  at_index d (daily_volumes df)
  = if mem d (unique_dates df) then Some (daily_volume df d) else None.
Proof.
  unfold daily_volumes. rewrite at_index_map.
  destruct (mem d (sorted (unique_dates df))) eqn:H1,
           (mem d (unique_dates df)) eqn:H2; try reflexivity.
  - apply mem_In in H1. apply (proj1 (sorted_In _ _)) in H1.
    apply mem_false in H2. contradiction.
  - apply mem_In in H2. apply mem_false in H1.
    apply (proj2 (sorted_In _ _)) in H2. contradiction.
Qed.

Lemma index_daily df d :
  In d (index (daily_volumes df)) <-> In d (unique_dates df).
Proof.
  unfold index, daily_volumes. rewrite map_map. simpl. rewrite map_id.
  apply sorted_In.
Qed.

(** The dates taken from the first table: its own dates that the second
    table lacks, or on which its volume is not below the second's. *)
Lemma df1_dates_spec a b d :
  In d (df1_dates (daily_volumes a) (daily_volumes b)) <->
  In d (unique_dates a)
  /\ (~ In d (unique_dates b) \/ 0 <= difference a b d).
Proof.
  unfold df1_dates, set_of. rewrite set_union_In, set_diff_In.
  repeat rewrite unique_In. repeat rewrite index_daily.
  unfold difference, non_negative, series_sub. cbv zeta.
  set (same := index_eqb (index (daily_volumes a)) (index (daily_volumes b))).
  unfold index at 1.
  rewrite in_map_iff. split.
  - intros [[H1 H2]|([k v] & Hk & Hin)]; [tauto|].
    simpl in Hk; subst k. apply filter_In in Hin as [Hin Hv].
    apply in_map_iff in Hin as (k & Hkv & Hin). inversion Hkv; subst k.
    rewrite !at_index_daily in H1. simpl in Hv.
    destruct (mem d (unique_dates a)) eqn:Ha; [|subst v; discriminate].
    destruct (mem d (unique_dates b)) eqn:Hb; [|subst v; discriminate].
    subst v. apply mem_In in Ha. apply Z.leb_le in Hv. tauto.
  - intros [Ha Hb].
    destruct (mem d (unique_dates b)) eqn:Hmb.
    + destruct Hb as [Hb|Hb]; [apply mem_In in Hmb; contradiction|].
      right.
      exists (d, Some (sub_values same (daily_volume a d) (daily_volume b d))).
      split; [reflexivity|]. apply filter_In. split.
      * apply in_map_iff. exists d. split.
        -- rewrite !at_index_daily, Hmb.
           apply mem_In in Ha. now rewrite Ha.
        -- apply sorted_In, set_union_In. left. now apply index_daily.
      * simpl. now apply Z.leb_le.
    + left. apply mem_false in Hmb. tauto.
Qed.

Lemma df2_dates_spec a b d :
  In d (df2_dates (daily_volumes a) (daily_volumes b)) <->
  In d (unique_dates b)
  /\ (~ In d (unique_dates a) \/ difference a b d < 0).
Proof.
  unfold df2_dates, set_of.
  rewrite set_diff_In, unique_In, index_daily, df1_dates_spec.
  split.
  - intros [Hb Hn]. split; [assumption|].
    destruct (in_dec Z.eq_dec d (unique_dates a)) as [Ha|Ha]; [|now left].
    right. destruct (Z.lt_ge_cases (difference a b d) 0);
      [assumption|]. exfalso. apply Hn. split; [assumption | now right].
  - intros [Hb Hn]. split; [assumption|]. intros [Ha [Hnb|Hge]];
      [contradiction|]. destruct Hn as [Hn|Hn]; [contradiction | lia].
Qed.

Lemma on_date_filter d (f : Row -> bool) l :
  on_date d (filter f l) = filter f (on_date d l).
Proof.
  unfold on_date. induction l as [|r l IH]; simpl; [reflexivity|].
  destruct (f r) eqn:Hf, (date r =? d) eqn:Hd; simpl;
    rewrite ?Hf, ?Hd, IH; reflexivity.
Qed.

Lemma on_date_select d (s : list Z) l :
  on_date d (filter (fun r => mem (date r) s) l)
  = if mem d s then on_date d l else [].
Proof.
  rewrite on_date_filter. unfold on_date.
  destruct (mem d s) eqn:Hm.
  - apply filter_all, Forall_forall. intros r Hr.
    apply filter_In in Hr as [_ Hr]. apply Z.eqb_eq in Hr. now rewrite Hr.
  - induction l as [|r l IH]; simpl; [reflexivity|].
    destruct (Z.eqb_spec (date r) d) as [E|E]; simpl; [|exact IH].
    now rewrite E, Hm.
Qed.

Lemma on_date_nil d l : on_date d l = [] <-> ~ exists r, In r l /\ date r = d.
Proof.
  unfold on_date. split.
  - intros H (r & Hr & Hd).
    assert (Hin : In r (filter (fun r => date r =? d) l))
      by (apply filter_In; split; [assumption | now apply Z.eqb_eq]).
    rewrite H in Hin. destruct Hin.
  - intros H. destruct (filter (fun r => date r =? d) l) as [|r s] eqn:E;
      [reflexivity|]. exfalso. apply H. exists r.
    assert (Hin : In r (filter (fun r => date r =? d) l))
      by (rewrite E; now left).
    apply filter_In in Hin as [Hin Hd]. apply Z.eqb_eq in Hd. auto.
Qed.

(** *** The rows of the merged table *)

Lemma occurrences_In n l : occurrences n l <> O -> In n l.
Proof.
  unfold occurrences. intros H.
  destruct (filter (String.eqb n) l) as [|x s] eqn:E; [now simpl in H|].
  assert (Hin : In x (filter (String.eqb n) l)) by (rewrite E; now left).
  apply filter_In in Hin as [Hin Heq]. apply String.eqb_eq in Heq. now subst.
Qed.

Lemma lookup_project cols r n :
  In n (map fst cols) -> lookup n (project cols r) = Some (cell_of n r).
Proof.
  unfold project. induction cols as [|[k d] cols IH]; simpl; [easy|].
  intros [->|Hin].
  - now rewrite String.eqb_refl.
  - destruct (String.eqb_spec n k) as [->|_]; [reflexivity | now apply IH].
Qed.

Lemma stamp_project cols r i :
  In "datetime"%string (map fst cols) ->
  stamp {| label := i; fields := project cols r |} = stamp r.
Proof.
  intros Hin. unfold stamp, cell_of at 1. simpl.
  now rewrite (lookup_project cols r _ Hin).
Qed.

Lemma fields_reindex i l : map fields (reindex i l) = l.
Proof.
  revert i; induction l as [|f l IH]; intros i; simpl; [reflexivity|].
  now rewrite IH.
Qed.

Lemma on_date_reindex cols d l i :
  In "datetime"%string (map fst cols) ->
  map fields (on_date d (reindex i (map (project cols) l)))
  = map (project cols) (on_date d l).
Proof.
  intros Hin. revert i; induction l as [|r l IH]; intros i; simpl;
    [reflexivity|].
  assert (Hd : date {| label := i; fields := project cols r |} = date r)
    by (unfold date; now rewrite (stamp_project cols r i Hin)).
  rewrite Hd. destruct (date r =? d); simpl; now rewrite IH.
Qed.

Lemma filter_Permutation {A : Type} (f : A -> bool) (l l' : list A) :
  Permutation l l' -> Permutation (filter f l) (filter f l').
Proof.
  induction 1 as [|x l l' _ IH|x y l|l l' l'' _ IH1 _ IH2]; simpl.
  - constructor.
  - destruct (f x); [now constructor | assumption].
  - destruct (f x), (f y); try reflexivity. apply perm_swap.
  - now transitivity (filter f l').
Qed.

Lemma on_date_app d l l' : on_date d (l ++ l') = on_date d l ++ on_date d l'.
Proof. apply filter_app. Qed.

Lemma drop_by_dates_columns args df :
  columns (drop_by_dates args df) = columns df.
Proof.
  unfold drop_by_dates. now destruct (start_date args), (end_date args).
Qed.

Lemma column_dtype_In df n d : column_dtype df n = Ok d -> In n (names df).
Proof.
  unfold column_dtype. intros H. apply occurrences_In.
  destruct (occurrences n (names df)); [|discriminate].
  destruct (lookup n (columns df)); discriminate.
Qed.

Lemma describe_datetime df : describe df = Ok tt -> In "datetime"%string (names df).
Proof.
  unfold describe. intros H. apply bind_ok in H as (d & Hd & _).
  now apply column_dtype_In in Hd.
Qed.

Lemma describe_nonempty df : describe df = Ok tt -> rows df <> [].
Proof.
  unfold describe. intros H. apply bind_ok in H as (d & _ & H).
  destruct (negb (dtype_eqb d datetime64)); [discriminate|].
  apply bind_ok in H as (c & _ & H).
  intros E. unfold unique_dates in H. rewrite E in H. discriminate.
Qed.

Lemma select_dates_rows s df :
  rows (select_dates s df) = filter (fun r => mem (date r) s) (rows df).
Proof.
  unfold select_dates. destruct (rows df) as [|r l] eqn:E; simpl;
    [reflexivity | now rewrite E].
Qed.

Lemma select_dates_columns s df :
  rows df <> [] -> columns (select_dates s df) = columns df.
Proof.
  unfold select_dates. destruct (rows df); [congruence | reflexivity].
Qed.

Lemma select_dates_empty s df :
  rows df = [] -> columns (select_dates s df) = [].
Proof. unfold select_dates. now intros ->. Qed.

(** A successful merge returns the two selected blocks, concatenated and
    sorted. *)
Lemma merge_data_ok df1 df2 args out :
  merge_data df1 df2 args = Ok out ->
  let a := drop_by_dates args df1 in
  let b := drop_by_dates args df2 in
  out = sort_values (concat (fst (selected a b)) (snd (selected a b)))
  /\ In "datetime"%string (map fst (columns out))
  /\ rows out <> [].
Proof.
  intros H a b. unfold merge_data in H.
  apply bind_ok in H as ([] & H1 & H). apply bind_ok in H as ([] & H2 & H).
  apply bind_ok in H as (v1 & _ & H). apply bind_ok in H as (v2 & _ & H).
  apply bind_ok in H as ([] & H3 & H). inversion H; subst out; clear H.
  fold a b in H3 |- *. split; [reflexivity|]. split.
  - now apply describe_datetime in H3.
  - now apply describe_nonempty in H3.
Qed.

Lemma merged_rows_on_date df1 df2 args out d :
  merge_data df1 df2 args = Ok out ->
  let a := drop_by_dates args df1 in
  let b := drop_by_dates args df2 in
  Permutation
    (map fields (on_date d (rows out)))
    (map (project (columns out))
         (on_date d (rows (fst (selected a b)))
          ++ on_date d (rows (snd (selected a b))))).
Proof.
  intros H a b. destruct (merge_data_ok _ _ _ _ H) as (Hout & Hdt & _).
  fold a b in Hout. rewrite Hout at 1. simpl rows.
  rewrite Hout in Hdt. simpl columns in Hdt.
  replace (columns out)
    with (columns (concat (fst (selected a b)) (snd (selected a b))))
    by (now rewrite Hout).
  set (cols := columns (concat (fst (selected a b)) (snd (selected a b)))) in *.
  rewrite <- on_date_app, <- (on_date_reindex cols d _ 0 Hdt).
  apply Permutation_map. unfold on_date.
  apply filter_Permutation. unfold concat; simpl. apply sort_by_perm.
Qed.

Lemma merge_data_inputs df1 df2 args out :
  merge_data df1 df2 args = Ok out ->
  describe df1 = Ok tt /\ describe df2 = Ok tt
  /\ occurrences "vol" (names df1) = 1%nat
  /\ occurrences "vol" (names df2) = 1%nat.
Proof.
  intros H. unfold merge_data in H.
  apply bind_ok in H as ([] & H1 & H). apply bind_ok in H as ([] & H2 & H).
  apply bind_ok in H as (v1 & Hv1 & H). apply bind_ok in H as (v2 & Hv2 & H).
  repeat split; try assumption.
  - unfold column, names in Hv1. rewrite drop_by_dates_columns in Hv1.
    fold (names df1) in Hv1.
    destruct (occurrences "vol" (names df1)) as [|[|n]];
      [discriminate | reflexivity | discriminate].
  - unfold column, names in Hv2. rewrite drop_by_dates_columns in Hv2.
    fold (names df2) in Hv2.
    destruct (occurrences "vol" (names df2)) as [|[|n]];
      [discriminate | reflexivity | discriminate].
Qed.

Lemma drop_by_dates_In args df r :
  In r (rows (drop_by_dates args df)) <->
  In r (rows df)
  /\ (forall d, start_date args = Some d -> d <= date r)
  /\ (forall d, end_date args = Some d -> date r <= d).
Proof.
  unfold drop_by_dates.
  destruct (start_date args) as [s|], (end_date args) as [e|]; simpl;
    repeat rewrite filter_In; repeat rewrite Z.leb_le.
  - split.
    + intros [[H1 H2] H3]. repeat split; try assumption;
        intros d Hd; inversion Hd; subst; assumption.
    + intros (H1 & H2 & H3). repeat split; auto.
  - split.
    + intros [H1 H2]. repeat split; try assumption;
        intros d Hd; inversion Hd; subst; assumption.
    + intros (H1 & H2 & H3). repeat split; auto.
  - split.
    + intros [H1 H2]. repeat split; try assumption;
        intros d Hd; inversion Hd; subst; assumption.
    + intros (H1 & H2 & H3). repeat split; auto.
  - split; [intros H; repeat split; [assumption | discriminate..] | tauto].
Qed.

Lemma selected_on_date a b d :
  on_date d (rows (fst (selected a b)))
  = (if mem d (df1_dates (daily_volumes a) (daily_volumes b))
     then on_date d (rows a) else [])
  /\ on_date d (rows (snd (selected a b)))
     = (if mem d (df2_dates (daily_volumes a) (daily_volumes b))
        then on_date d (rows b) else []).
Proof.
  unfold selected; simpl. rewrite !select_dates_rows.
  split; apply on_date_select.
Qed.

Lemma on_date_unique_dates df d :
  In d (unique_dates df) <-> on_date d (rows df) <> [].
Proof.
  rewrite unique_dates_In. split.
  - intros H E. now apply on_date_nil in E.
  - intros H. destruct (on_date d (rows df)) as [|r l] eqn:E; [congruence|].
    exists r. assert (Hin : In r (on_date d (rows df))) by (rewrite E; now left).
    apply filter_In in Hin as [Hin Hd]. apply Z.eqb_eq in Hd. auto.
Qed.

(** For every date, which block the merged rows of that date come from. *)
Lemma selected_cases a b d :
  (In d (unique_dates a)
   /\ (~ In d (unique_dates b) \/ 0 <= difference a b d)
   /\ on_date d (rows (fst (selected a b))) = on_date d (rows a)
   /\ on_date d (rows (snd (selected a b))) = [])
  \/ (In d (unique_dates b)
      /\ (~ In d (unique_dates a) \/ difference a b d < 0)
      /\ on_date d (rows (fst (selected a b))) = []
      /\ on_date d (rows (snd (selected a b))) = on_date d (rows b))
  \/ (~ In d (unique_dates a) /\ ~ In d (unique_dates b)
      /\ on_date d (rows (fst (selected a b))) = []
      /\ on_date d (rows (snd (selected a b))) = []).
Proof.
  destruct (selected_on_date a b d) as [H1 H2]. rewrite H1, H2.
  destruct (mem d (df1_dates (daily_volumes a) (daily_volumes b))) eqn:M1,
           (mem d (df2_dates (daily_volumes a) (daily_volumes b))) eqn:M2.
  - apply mem_In in M1, M2. apply df1_dates_spec in M1.
    apply df2_dates_spec in M2. exfalso. intuition lia.
  - left. apply mem_In, df1_dates_spec in M1. tauto.
  - right. left. apply mem_In, df2_dates_spec in M2. tauto.
  - right. right. apply mem_false in M1, M2.
    rewrite df1_dates_spec in M1. rewrite df2_dates_spec in M2.
    assert (Ha : ~ In d (unique_dates a)).
    { intros Ha. destruct (in_dec Z.eq_dec d (unique_dates b)) as [Hb|Hb].
      - destruct (Z.lt_ge_cases (difference a b d) 0);
          [apply M2 | apply M1]; tauto.
      - apply M1; tauto. }
    assert (Hb : ~ In d (unique_dates b)) by (intros Hb; apply M2; tauto).
    repeat split; try assumption.
Qed.

Lemma concat_names a b n :
  In n (names a) \/ In n (names b) -> In n (names (concat a b)).
Proof.
  unfold concat, names; simpl. rewrite map_app, in_app_iff.
  intros [H|H]; [now left|].
  destruct (has_column a n) eqn:Hc.
  - left. unfold has_column in Hc. apply existsb_exists in Hc as (x & Hx & E).
    apply String.eqb_eq in E. now subst.
  - right. apply in_map_iff in H as ([k d] & Hk & Hin). simpl in Hk. subst k.
    apply in_map_iff. exists (n, d). split; [reflexivity|].
    apply filter_In. split; [assumption|]. simpl. now rewrite Hc.
Qed.

Lemma sort_by_nil {A : Type} (key : A -> Z) l : sort_by key l = [] -> l = [].
Proof.
  intros E. pose proof (sort_by_perm key l) as Hp. rewrite E in Hp.
  now apply Permutation_nil in Hp.
Qed.

Lemma concat_rows_nil a b : rows (concat a b) = [] -> rows a ++ rows b = [].
Proof.
  unfold concat; simpl. intros E.
  apply (f_equal (map fields)) in E. rewrite fields_reindex in E. simpl in E.
  now apply map_eq_nil in E.
Qed.

(** A column both restricted tables have is a column of the merged table. *)
Lemma merged_columns df1 df2 args out n :
  merge_data df1 df2 args = Ok out ->
  In n (names df1) -> In n (names df2) -> In n (map fst (columns out)).
Proof.
  intros H Hn1 Hn2. destruct (merge_data_ok _ _ _ _ H) as (Hout & _ & Hne).
  cbv zeta in Hout.
  set (a := drop_by_dates args df1) in *.
  set (b := drop_by_dates args df2) in *.
  rewrite Hout in Hne |- *.
  change (In n (names (concat (fst (selected a b)) (snd (selected a b))))).
  apply concat_names. unfold selected; simpl.
  destruct (rows a) as [|r l] eqn:Ea.
  - right. destruct (rows b) as [|r l] eqn:Eb.
    + exfalso. apply Hne. unfold sort_values, concat, selected; simpl.
      rewrite !select_dates_rows, Ea, Eb. reflexivity.
    + unfold names. rewrite select_dates_columns by (rewrite Eb; discriminate).
      unfold b. now rewrite drop_by_dates_columns.
  - left. unfold names. rewrite select_dates_columns by (rewrite Ea; discriminate).
    unfold a. now rewrite drop_by_dates_columns.
Qed.

Lemma merged_on_date_length df1 df2 args out d :
  merge_data df1 df2 args = Ok out ->
  let a := drop_by_dates args df1 in
  let b := drop_by_dates args df2 in
  List.length (on_date d (rows out))
  = (List.length (on_date d (rows (fst (selected a b))))
     + List.length (on_date d (rows (snd (selected a b)))))%nat.
Proof.
  intros H a b. pose proof (merged_rows_on_date _ _ _ _ d H) as Hp.
  apply Permutation_length in Hp. fold a b in Hp.
  now rewrite !length_map, length_app in Hp.
Qed.

Lemma sum_Permutation l l' : Permutation l l' -> sum l = sum l'.
Proof.
  unfold sum. induction 1; simpl; lia.
Qed.

Lemma sum_app l l' : sum (l ++ l') = sum l + sum l'.
Proof.
  unfold sum. induction l as [|x l IH]; simpl; [reflexivity | lia].
Qed.

Lemma vol_project cols r i :
  In "vol"%string (map fst cols) ->
  vol {| label := i; fields := project cols r |} = vol r.
Proof.
  intros Hin. unfold vol, cell_of at 1. simpl.
  now rewrite (lookup_project cols r _ Hin).
Qed.

Lemma merged_total_volume df1 df2 args out d :
  merge_data df1 df2 args = Ok out ->
  let a := drop_by_dates args df1 in
  let b := drop_by_dates args df2 in
  total_volume out d
  = sum (map vol (on_date d (rows (fst (selected a b)))))
    + sum (map vol (on_date d (rows (snd (selected a b))))).
Proof.
  intros H a b. pose proof (merged_rows_on_date _ _ _ _ d H) as Hp.
  fold a b in Hp.
  destruct (merge_data_inputs _ _ _ _ H) as (_ & _ & Hv1 & Hv2).
  assert (Hvol : In "vol"%string (map fst (columns out))).
  { apply (merged_columns _ _ _ _ _ H); apply occurrences_In;
      [now rewrite Hv1 | now rewrite Hv2]. }
  apply (Permutation_map (fun f => vol {| label := 0; fields := f |})) in Hp.
  apply sum_Permutation in Hp. rewrite !map_map in Hp.
  unfold total_volume. fold (on_date d (rows out)).
  transitivity (sum (map (fun x => vol {| label := 0; fields := fields x |})
                         (on_date d (rows out)))).
  { reflexivity. }
  rewrite Hp.
  rewrite (map_ext _ vol) by (intros r; now apply vol_project).
  rewrite map_app. apply sum_app.
Qed.

Lemma drop_by_dates_filter args df :
  exists g, rows (drop_by_dates args df) = filter g (rows df).
Proof.
  unfold drop_by_dates.
  destruct (start_date args) as [s|], (end_date args) as [e|]; simpl.
  - rewrite CleanerFacts.filter_filter. eauto.
  - eauto.
  - eauto.
  - exists (fun _ => true). symmetry. apply filter_all, Forall_forall. easy.
Qed.

Lemma stamps_reindex cols l i :
  In "datetime"%string (map fst cols) ->
  map stamp (reindex i (map (project cols) l)) = map stamp l.
Proof.
  intros Hin. revert i; induction l as [|r l IH]; intros i; simpl;
    [reflexivity|].
  now rewrite (stamp_project cols r i Hin), IH.
Qed.

Lemma merged_stamps df1 df2 args out :
  merge_data df1 df2 args = Ok out ->
  let a := drop_by_dates args df1 in
  let b := drop_by_dates args df2 in
  Permutation (map stamp (rows out))
    (map stamp (rows (fst (selected a b)) ++ rows (snd (selected a b)))).
Proof.
  intros H a b. destruct (merge_data_ok _ _ _ _ H) as (Hout & Hdt & _).
  fold a b in Hout. rewrite Hout in Hdt. rewrite Hout.
  set (c := concat (fst (selected a b)) (snd (selected a b))) in *.
  change (rows (sort_values c)) with (sort_by stamp (rows c)).
  change (columns (sort_values c)) with (columns c) in Hdt.
  transitivity (map stamp (rows c)).
  - apply Permutation_map, sort_by_perm.
  - unfold c at 1. unfold concat. simpl rows.
    unfold c, concat in Hdt. simpl columns in Hdt.
    now rewrite (stamps_reindex _ _ 0 Hdt).
Qed.

Lemma selected_sub a b r :
  (In r (rows (fst (selected a b))) -> In r (rows a))
  /\ (In r (rows (snd (selected a b))) -> In r (rows b)).
Proof.
  unfold selected; simpl. rewrite !select_dates_rows.
  split; intros H; now apply filter_In in H.
Qed.

Lemma selected_disjoint a b r1 r2 :
  In r1 (rows (fst (selected a b))) -> In r2 (rows (snd (selected a b))) ->
  date r1 <> date r2.
Proof.
  intros H1 H2 E.
  assert (N1 : on_date (date r1) (rows (fst (selected a b))) <> []).
  { intros Hn. apply on_date_nil in Hn. apply Hn. now exists r1. }
  assert (N2 : on_date (date r1) (rows (snd (selected a b))) <> []).
  { intros Hn. apply on_date_nil in Hn. apply Hn. now exists r2. }
  destruct (selected_cases a b (date r1))
    as [(_ & _ & _ & E2) | [(_ & _ & E1 & _) | (_ & _ & E1 & _)]];
    congruence.
Qed.

Lemma merged_row_source df1 df2 args out r :
  merge_data df1 df2 args = Ok out ->
  In r (rows out) ->
  exists r',
    stamp r' = stamp r
    /\ (In r' (rows (drop_by_dates args df1))
        \/ In r' (rows (drop_by_dates args df2))).
Proof.
  intros H Hr. pose proof (merged_stamps _ _ _ _ H) as Hp. cbv zeta in Hp.
  apply (in_map stamp) in Hr.
  apply (Permutation_in _ Hp) in Hr.
  apply in_map_iff in Hr as (r' & Hst & Hin). exists r'.
  split; [assumption|]. apply in_app_or in Hin as [Hin|Hin].
  - left. now apply selected_sub in Hin.
  - right. now apply selected_sub in Hin.
Qed.

Lemma describe_usable df :
  describe df = Ok tt <->
  occurrences "datetime" (names df) = 1%nat
  /\ lookup "datetime" (columns df) = Some datetime64
  /\ occurrences "ticker" (names df) = 1%nat
  /\ rows df <> [].
Proof.
  unfold describe, column_dtype, column. split.
  - intros H. apply bind_ok in H as (d & Hd & H).
    destruct (occurrences "datetime" (names df)) as [|[|n]] eqn:O1;
      destruct (lookup "datetime" (columns df)) as [d'|] eqn:L1;
      try discriminate.
    inversion Hd; subst d'.
    destruct d; try discriminate. simpl in H.
    apply bind_ok in H as (c & Hc & H).
    destruct (occurrences "ticker" (names df)) as [|[|n]] eqn:O2;
      try discriminate.
    repeat split. intros E. unfold unique_dates in H. rewrite E in H.
    discriminate.
  - intros (O1 & L1 & O2 & Hne). rewrite O1, L1, O2. simpl.
    unfold unique_dates. destruct (rows df) as [|r l]; [congruence|].
    reflexivity.
Qed.

Lemma occurrences_app n l l' :
  occurrences n (l ++ l') = (occurrences n l + occurrences n l')%nat.
Proof. unfold occurrences. now rewrite filter_app, length_app. Qed.

Lemma occurrences_has df n :
  occurrences n (names df) <> O -> has_column df n = true.
Proof.
  intros H. apply occurrences_In in H. unfold has_column.
  apply existsb_exists. exists n. split; [assumption | apply String.eqb_refl].
Qed.

Lemma lookup_app_l {V : Type} n (l l' : list (string * V)) v :
  lookup n l = Some v -> lookup n (l ++ l') = Some v.
Proof.
  induction l as [|[k w] l IH]; simpl; [discriminate|].
  destruct (String.eqb n k); [easy | exact IH].
Qed.

(** A label carried once by the first table is carried once by the
    concatenation. *)
Lemma concat_occurrences a b n :
  occurrences n (names a) = 1%nat ->
  occurrences n (names (concat a b)) = 1%nat.
Proof.
  intros H. unfold concat, names; simpl. rewrite map_app, occurrences_app.
  fold (names a). rewrite H.
  assert (Hhas : has_column a n = true) by (apply occurrences_has; lia).
  assert (E : occurrences n
                (map fst (filter (fun nd => negb (has_column a (fst nd)))
                                 (columns b))) = O).
  { unfold occurrences.
    destruct (filter (String.eqb n) _) as [|x l] eqn:Ef; [reflexivity|].
    assert (Hin : In x (filter (String.eqb n)
              (map fst (filter (fun nd => negb (has_column a (fst nd)))
                               (columns b)))))
      by (rewrite Ef; now left).
    apply filter_In in Hin as [Hin Heq]. apply String.eqb_eq in Heq. subst x.
    apply in_map_iff in Hin as ([k d] & Hk & Hin). simpl in Hk. subst k.
    apply filter_In in Hin as [_ Hneg]. simpl in Hneg.
    rewrite Hhas in Hneg. discriminate. }
  rewrite E. reflexivity.
Qed.

Lemma in_rows_date df r : In r (rows df) -> In (date r) (unique_dates df).
Proof. intros H. apply unique_dates_In. now exists r. Qed.

Lemma in_rows_on_date df r : In r (rows df) -> on_date (date r) (rows df) <> [].
Proof.
  intros H E. apply on_date_nil in E. apply E. now exists r.
Qed.

(** Rows in either restricted table leave rows in the selection. *)
Lemma selected_nonempty a b :
  rows a <> [] \/ rows b <> [] ->
  rows (fst (selected a b)) ++ rows (snd (selected a b)) <> [].
Proof.
  intros Hne E. apply app_eq_nil in E as [E1 E2].
  assert (N : forall d, on_date d (rows (fst (selected a b))) = []
                        /\ on_date d (rows (snd (selected a b))) = [])
    by (intros d; rewrite E1, E2; split; reflexivity).
  destruct Hne as [Ha|Hb].
  - destruct (rows a) as [|r l] eqn:Er; [congruence|].
    assert (Hr : In r (rows a)) by (rewrite Er; now left).
    destruct (N (date r)) as [N1 N2].
    destruct (selected_cases a b (date r))
      as [(_ & _ & F1 & _) | [(Hb & _ & _ & F2) | (Hna & _)]].
    + rewrite N1 in F1. symmetry in F1. now apply in_rows_on_date in F1.
    + rewrite N2 in F2. symmetry in F2.
      now apply on_date_unique_dates in F2.
    + apply Hna. now apply in_rows_date.
  - destruct (rows b) as [|r l] eqn:Er; [congruence|].
    assert (Hr : In r (rows b)) by (rewrite Er; now left).
    destruct (N (date r)) as [N1 N2].
    destruct (selected_cases a b (date r))
      as [(Ha & _ & F1 & _) | [(_ & _ & _ & F2) | (_ & Hnb & _)]].
    + rewrite N1 in F1. symmetry in F1.
      now apply on_date_unique_dates in F1.
    + rewrite N2 in F2. symmetry in F2. now apply in_rows_on_date in F2.
    + apply Hnb. now apply in_rows_date.
Qed.

(** *** When [merge_data] returns *)

Lemma concat_nil_l a b : columns a = [] -> columns (concat a b) = columns b.
Proof.
  intros E. unfold concat; simpl. rewrite E. simpl.
  apply filter_all, Forall_forall. intros nd _.
  unfold has_column, names. now rewrite E.
Qed.

Lemma merge_data_returns df1 df2 args :
  (exists out, merge_data df1 df2 args = Ok out) <->
  usable df1 /\ usable df2
  /\ (rows (drop_by_dates args df1) <> []
      \/ rows (drop_by_dates args df2) <> []).
Proof.
  split.
  - intros (out & H).
    destruct (merge_data_inputs _ _ _ _ H) as (D1 & D2 & V1 & V2).
    apply describe_usable in D1 as (A1 & A2 & A3 & A4).
    apply describe_usable in D2 as (B1 & B2 & B3 & B4).
    split; [repeat split; assumption|]. split; [repeat split; assumption|].
    destruct (merge_data_ok _ _ _ _ H) as (Hout & _ & Hne). cbv zeta in Hout.
    destruct (rows (drop_by_dates args df1)) as [|r l] eqn:Ea;
      [|left; discriminate].
    destruct (rows (drop_by_dates args df2)) as [|r l] eqn:Eb;
      [|right; discriminate].
    exfalso. apply Hne. rewrite Hout. unfold sort_values, concat, selected.
    simpl. rewrite !select_dates_rows, Ea, Eb. reflexivity.
  - intros ((A1 & A2 & A3 & A4 & A5) & (B1 & B2 & B3 & B4 & B5) & Hne).
    unfold merge_data. cbv zeta.
    assert (D1 : describe df1 = Ok tt) by (apply describe_usable; auto).
    assert (D2 : describe df2 = Ok tt) by (apply describe_usable; auto).
    rewrite D1, D2. simpl bind.
    set (a := drop_by_dates args df1) in *.
    set (b := drop_by_dates args df2) in *.
    assert (Ca : columns a = columns df1)
      by (unfold a; now rewrite drop_by_dates_columns).
    assert (Cb : columns b = columns df2)
      by (unfold b; now rewrite drop_by_dates_columns).
    unfold column at 1. unfold names at 1. rewrite Ca. fold (names df1).
    rewrite A4. simpl bind.
    unfold column at 1. unfold names at 1. rewrite Cb. fold (names df2).
    rewrite B4. simpl bind.
    set (c := concat (fst (selected a b)) (snd (selected a b))).
    assert (Dc : describe (sort_values c) = Ok tt).
    { apply describe_usable.
      change (names (sort_values c)) with (names c).
      change (columns (sort_values c)) with (columns c).
      assert (Hrows : rows (sort_values c) <> []).
      { change (rows (sort_values c)) with (sort_by stamp (rows c)).
        intros E. apply sort_by_nil in E. apply concat_rows_nil in E.
        now apply (selected_nonempty a b Hne). }
      destruct (rows a) as [|r l] eqn:Ea.
      - assert (Hb : rows b <> []) by (destruct Hne; congruence).
        assert (Ec : columns c = columns df2).
        { unfold c. rewrite concat_nil_l.
          - unfold selected; simpl. rewrite select_dates_columns by assumption.
            exact Cb.
          - unfold selected; simpl. now apply select_dates_empty. }
        unfold names. rewrite Ec. fold (names df2). repeat split; assumption.
      - assert (Es : columns (fst (selected a b)) = columns df1).
        { unfold selected; simpl.
          rewrite select_dates_columns by (rewrite Ea; discriminate).
          exact Ca. }
        assert (Ns : names (fst (selected a b)) = names df1)
          by (unfold names; now rewrite Es).
        repeat split.
        + apply concat_occurrences. now rewrite Ns.
        + unfold c, concat. cbn [columns]. apply lookup_app_l.
          now rewrite Es.
        + apply concat_occurrences. now rewrite Ns.
        + exact Hrows. }
    change (exists out,
              bind (describe (sort_values c)) (fun _ => Ok (sort_values c))
              = Ok out).
    rewrite Dc. simpl. eauto.
Qed.

Lemma main_ok df1 df2 args out :
  main df1 df2 args = Ok out ->
  check_source_data (df1, df2) = Ok tt /\ merge_data df1 df2 args = Ok out.
Proof.
  unfold main. intros H. apply bind_ok in H as ([] & Hc & H). auto.
Qed.

(** *** Volumes that the machine numbers hold exactly *)

Lemma wrap64_small z : - 2 ^ 63 <= z < 2 ^ 63 -> wrap64 z = z.
Proof.
  intros H. unfold wrap64.
  change (2 ^ 63) with 9223372036854775808 in *.
  change (2 ^ 64) with 18446744073709551616.
  rewrite Z.mod_small; lia.
Qed.

Lemma to_float64_small z : Z.abs z < 2 ^ 53 -> to_float64 z = z.
Proof.
  intros H. unfold to_float64. cbv zeta.
  apply Z.ltb_lt in H. now rewrite H.
Qed.

Lemma sub_values_exact same x y :
  Z.abs x < 2 ^ 52 -> Z.abs y < 2 ^ 52 -> sub_values same x y = x - y.
Proof.
  intros Hx Hy. change (2 ^ 52) with 4503599627370496 in *.
  unfold sub_values. destruct same.
  - apply wrap64_small. change (2 ^ 63) with 9223372036854775808. lia.
  - rewrite (to_float64_small x), (to_float64_small y), to_float64_small;
      try reflexivity; change (2 ^ 53) with 9007199254740992; lia.
Qed.

Lemma total_volume_nil df d : ~ In d (unique_dates df) -> total_volume df d = 0.
Proof.
  intros H. unfold total_volume. fold (on_date d (rows df)).
  destruct (on_date d (rows df)) as [|r l] eqn:E; [reflexivity|].
  exfalso. apply H. apply on_date_unique_dates. congruence.
Qed.

Lemma exact_totals_bound df d :
  exact_totals df = true -> Z.abs (total_volume df d) < 2 ^ 52.
Proof.
  intros H. destruct (in_dec Z.eq_dec d (unique_dates df)) as [Hin|Hnot].
  - unfold exact_totals in H. apply andb_true_iff in H as [_ H].
    rewrite forallb_forall in H. now apply Z.ltb_lt, H.
  - now rewrite total_volume_nil.
Qed.

(** The date range keeps or drops the rows of a date together. *)
Lemma drop_by_dates_by_date args df :
  exists G : Z -> bool,
    rows (drop_by_dates args df) = filter (fun r => G (date r)) (rows df).
Proof.
  unfold drop_by_dates.
  destruct (start_date args) as [s|], (end_date args) as [e|]; simpl.
  - rewrite CleanerFacts.filter_filter.
    now exists (fun d => (s <=? d) && (d <=? e)).
  - now exists (fun d => s <=? d).
  - now exists (fun d => d <=? e).
  - exists (fun _ => true). symmetry. apply filter_all, Forall_forall. easy.
Qed.

Lemma total_volume_drop args df d :
  total_volume (drop_by_dates args df) d = total_volume df d
  \/ total_volume (drop_by_dates args df) d = 0.
Proof.
  destruct (drop_by_dates_by_date args df) as (G & HG).
  unfold total_volume. rewrite HG. fold (on_date d (rows df)).
  fold (on_date d (filter (fun r => G (date r)) (rows df))).
  rewrite on_date_filter. destruct (G d) eqn:Hd.
  - left. f_equal. f_equal. apply filter_all, Forall_forall. intros r Hr.
    apply filter_In in Hr as [_ Hr]. apply Z.eqb_eq in Hr. now rewrite Hr.
  - right. replace (filter (fun r => G (date r)) (on_date d (rows df)))
      with (@nil Row); [reflexivity|].
    symmetry. clear HG. induction (rows df) as [|r l IH]; simpl;
      [reflexivity|].
    destruct (Z.eqb_spec (date r) d) as [E|E]; simpl; [|exact IH].
    now rewrite E, Hd.
Qed.

Lemma exact_totals_drop args df d :
  exact_totals df = true ->
  Z.abs (total_volume (drop_by_dates args df) d) < 2 ^ 52.
Proof.
  intros H. destruct (total_volume_drop args df d) as [E|E]; rewrite E.
  - now apply exact_totals_bound.
  - reflexivity.
Qed.

(** On totals that are exact the difference [merge_data] looks at is the
    difference of the totals. *)
Lemma difference_exact a b d :
  Z.abs (total_volume a d) < 2 ^ 52 -> Z.abs (total_volume b d) < 2 ^ 52 ->
  difference a b d = total_volume a d - total_volume b d.
Proof.
  intros Ha Hb. unfold difference, daily_volume.
  change (2 ^ 52) with 4503599627370496 in *.
  rewrite (wrap64_small (total_volume a d)), (wrap64_small (total_volume b d));
    try (change (2 ^ 63) with 9223372036854775808; lia).
  apply sub_values_exact; change (2 ^ 52) with 4503599627370496; lia.
Qed.

(** *** The schema check *)

Lemma leb_iff a b :
  String.leb a b = true <-> String_as_OT.lt a b \/ a = b.
Proof.
  unfold String.leb.
  change (String.compare a b) with (String_as_OT.cmp a b).
  destruct (String_as_OT.cmp a b) eqn:E.
  - apply String_as_OT.cmp_eq in E. tauto.
  - apply String_as_OT.cmp_lt in E. tauto.
  - split; [discriminate|]. intros [H|H].
    + apply String_as_OT.cmp_lt in H. congruence.
    + apply String_as_OT.cmp_eq in H. congruence.
Qed.

Lemma leb_trans a b c :
  String.leb a b = true -> String.leb b c = true -> String.leb a c = true.
Proof.
  rewrite !leb_iff. intros [H1| ->] [H2| ->]; auto.
  left. eapply String_as_OT.lt_trans; eassumption.
Qed.

Lemma insert_label_perm x l : Permutation (insert_label x l) (x :: l).
Proof.
  induction l as [|y l IH]; simpl; [reflexivity|].
  destruct (String.leb (fst x) (fst y)); [reflexivity|].
  rewrite IH. apply perm_swap.
Qed.

Lemma sort_index_perm l : Permutation (sort_index l) l.
Proof.
  induction l as [|x l IH]; simpl; [reflexivity|].
  rewrite insert_label_perm. now constructor.
Qed.

Lemma insert_label_sorted x l :
  StronglySorted label_le l -> StronglySorted label_le (insert_label x l).
Proof.
  induction 1 as [|y l Hl IH Hy]; simpl.
  - repeat constructor.
  - destruct (String.leb (fst x) (fst y)) eqn:E.
    + constructor; [now constructor|]. constructor; [exact E|].
      eapply Forall_impl; [|exact Hy]. unfold label_le.
      intros z Hz. eapply leb_trans; eassumption.
    + constructor; [assumption|].
      apply (Permutation_Forall (Permutation_sym (insert_label_perm x l))).
      constructor; [|assumption]. unfold label_le.
      destruct (String.leb_total (fst x) (fst y)); congruence.
Qed.

Lemma sort_index_sorted l : StronglySorted label_le (sort_index l).
Proof.
  induction l as [|x l IH]; simpl; [constructor | now apply insert_label_sorted].
Qed.

(** Two sorted indexes without repeated labels that carry the same labels
    carry them in the same order. *)
Lemma sorted_labels_unique l1 :
  forall l2,
    StronglySorted label_le l1 -> StronglySorted label_le l2 ->
    NoDup (map fst l1) -> NoDup (map fst l2) ->
    (forall n, In n (map fst l1) <-> In n (map fst l2)) ->
    map fst l1 = map fst l2.
Proof.
  induction l1 as [|x l1 IH]; intros l2 S1 S2 N1 N2 Hsame.
  - destruct l2 as [|y l2]; [reflexivity|].
    exfalso. apply (Hsame (fst y)). simpl. now left.
  - destruct l2 as [|y l2].
    + exfalso. apply (Hsame (fst x)). simpl. now left.
    + inversion S1 as [|? ? S1' F1]; subst.
      inversion S2 as [|? ? S2' F2]; subst.
      simpl in N1, N2.
      inversion N1 as [|? ? X1 N1']; subst.
      inversion N2 as [|? ? X2 N2']; subst.
      assert (Hxy : fst x = fst y).
      { assert (Hx : In (fst x) (map fst (y :: l2)))
          by (apply Hsame; simpl; now left).
        assert (Hy : In (fst y) (map fst (x :: l1)))
          by (apply Hsame; simpl; now left).
        simpl in Hx, Hy.
        destruct Hx as [Hx|Hx]; [now symmetry|].
        destruct Hy as [Hy|Hy]; [assumption|].
        apply in_map_iff in Hx as (x' & Ex & Hx).
        apply in_map_iff in Hy as (y' & Ey & Hy).
        rewrite Forall_forall in F1, F2.
        specialize (F1 _ Hy). specialize (F2 _ Hx).
        unfold label_le in F1, F2. rewrite Ey in F1. rewrite Ex in F2.
        apply String.leb_antisym; assumption. }
      simpl. f_equal; [assumption|].
      apply IH; try assumption.
      intros n. specialize (Hsame n). simpl in Hsame. rewrite Hxy in *.
      split; intros Hn.
      * destruct (proj1 Hsame (or_intror Hn)) as [E|]; [|assumption].
        subst n. contradiction.
      * destruct (proj2 Hsame (or_intror Hn)) as [E|]; [|assumption].
        subst n. contradiction.
Qed.

Lemma list_eqb_eq a b : list_eqb a b = true <-> a = b.
Proof.
  unfold list_eqb. revert b; induction a as [|x a IH]; intros [|y b]; simpl;
    try (split; [discriminate | discriminate]); [tauto|].
  specialize (IH b). rewrite andb_true_iff in *. simpl.
  rewrite andb_true_iff, String.eqb_eq. split.
  - intros [Hlen [Hxy Hall]]. subst. f_equal. apply IH. auto.
  - intros E. inversion E; subst. destruct (proj2 IH eq_refl). auto.
Qed.

Lemma set_eqb_spec a b :
  set_eqb a b = true <-> forall n, In n a <-> In n b.
Proof.
  unfold set_eqb. rewrite andb_true_iff, !forallb_forall.
  assert (Hex : forall x l, existsb (String.eqb x) l = true <-> In x l).
  { intros x l. rewrite existsb_exists. split.
    - intros (y & Hy & E). apply String.eqb_eq in E. now subst.
    - intros H. exists x. split; [assumption | apply String.eqb_refl]. }
  split.
  - intros [H1 H2] n. split; intros H; apply Hex; auto.
  - intros H. split; intros x Hx; apply Hex, H, Hx.
Qed.

Lemma dtype_eqb_eq d1 d2 : dtype_eqb d1 d2 = true <-> d1 = d2.
Proof. destruct d1, d2; simpl; split; congruence. Qed.

Lemma has_column_In df n : has_column df n = true <-> In n (names df).
Proof.
  unfold has_column. rewrite existsb_exists. split.
  - intros (y & Hy & E). apply String.eqb_eq in E. now subst.
  - intros H. exists n. split; [assumption | apply String.eqb_refl].
Qed.

Lemma occurrences_NoDup n l : NoDup l -> In n l -> occurrences n l = 1%nat.
Proof.
  unfold occurrences. induction 1 as [|x l Hx Hl IH]; simpl; [easy|].
  intros [ -> |Hin].
  - rewrite String.eqb_refl. simpl. f_equal.
    destruct (filter (String.eqb n) l) as [|y s] eqn:E; [reflexivity|].
    assert (Hy : In y (filter (String.eqb n) l)) by (rewrite E; now left).
    apply filter_In in Hy as [Hy Heq]. apply String.eqb_eq in Heq.
    subst. contradiction.
  - destruct (String.eqb_spec n x) as [->|_]; [contradiction | now apply IH].
Qed.

Lemma lookup_In {V : Type} n (l : list (string * V)) v :
  NoDup (map fst l) -> (lookup n l = Some v <-> In (n, v) l).
Proof.
  induction l as [|[k w] l IH]; simpl; intros Hnd.
  - split; [discriminate | easy].
  - inversion Hnd as [|? ? Hk Hnd']; subst.
    destruct (String.eqb_spec n k) as [->|Hne].
    + split.
      * intros E. inversion E. now left.
      * intros [E|Hin]; [now inversion E|].
        exfalso. apply Hk. apply (in_map fst) in Hin. exact Hin.
    + rewrite (IH Hnd'). split; [now right|].
      intros [E|Hin]; [inversion E; congruence | assumption].
Qed.

Lemma combine_same_label (a b : list (string * dtype)) p q :
  map fst a = map fst b -> In (p, q) (combine a b) -> fst p = fst q.
Proof.
  revert b; induction a as [|x a IH]; intros [|y b] E Hin; simpl in *;
    try contradiction; try discriminate.
  injection E as Exy Eab. destruct Hin as [Hin|Hin].
  - inversion Hin; subst. assumption.
  - now apply (IH b).
Qed.

Lemma combine_In (a b : list (string * dtype)) n d1 d2 :
  map fst a = map fst b -> NoDup (map fst a) ->
  In (n, d1) a -> In (n, d2) b -> In ((n, d1), (n, d2)) (combine a b).
Proof.
  revert b; induction a as [|x a IH]; intros [|y b] E Hnd H1 H2; simpl in *;
    try contradiction; try discriminate.
  injection E as Exy Eab. inversion Hnd as [|? ? Hx Hnd']; subst.
  destruct H1 as [H1|H1], H2 as [H2|H2].
  - left. now subst.
  - exfalso. subst x. simpl in *. apply Hx. rewrite Eab.
    apply (in_map fst) in H2. exact H2.
  - exfalso. subst y. simpl in *. apply Hx. rewrite Exy.
    apply (in_map fst) in H1. exact H1.
  - right. now apply IH.
Qed.

Lemma sort_index_In l x : In x (sort_index l) <-> In x l.
Proof.
  split; apply Permutation_in;
    [apply sort_index_perm | apply Permutation_sym, sort_index_perm].
Qed.

Lemma sort_index_names l n :
  In n (map fst (sort_index l)) <-> In n (map fst l).
Proof.
  split; apply Permutation_in, Permutation_map;
    [apply sort_index_perm | apply Permutation_sym, sort_index_perm].
Qed.

Lemma sort_index_NoDup l : NoDup (map fst l) -> NoDup (map fst (sort_index l)).
Proof.
  apply Permutation_NoDup, Permutation_map, Permutation_sym, sort_index_perm.
Qed.

(** The three tests on one table at the head of the loop body. *)
Lemma check_one_head i dts df :
  NoDup (names df) ->
  ((lacks_datetime df \/ lacks_integer_volume df)
   /\ raises (check_one i dts df))
  \/ (~ lacks_datetime df /\ ~ lacks_integer_volume df
      /\ check_one i dts df
         = if (i =? 0)%nat then Ok (sort_index (columns df))
           else if negb (set_eqb (names df) (map fst dts))
           then Raise (Exception "Source files have different columns")
           else
             diff <- compare dts (sort_index (columns df)) ;;
             if negb (List.length diff =? 0)%nat
             then Raise (Exception "Files have different data types")
             else Ok dts).
Proof.
  intros Hnd. unfold check_one.
  destruct (has_column df "datetime") eqn:Hd; simpl.
  2:{ left. split; [|eexists; reflexivity]. left. unfold lacks_datetime.
      intros Hin. apply has_column_In in Hin. congruence. }
  apply has_column_In in Hd.
  destruct (has_column df "vol") eqn:Hv; simpl.
  2:{ left. split; [|eexists; reflexivity]. right. intros d Hin.
      assert (Hn : In "vol"%string (names df))
        by (apply (in_map fst) in Hin; exact Hin).
      apply has_column_In in Hn. congruence. }
  apply has_column_In in Hv.
  assert (Hex : exists d, In ("vol"%string, d) (columns df)).
  { unfold names in Hv. apply in_map_iff in Hv as ([k d] & Ek & Hin).
    simpl in Ek. subst k. now exists d. }
  destruct Hex as (d & Hin).
  assert (Hl : lookup "vol" (columns df) = Some d) by (now apply lookup_In).
  unfold column_dtype. rewrite (occurrences_NoDup _ _ Hnd Hv), Hl. simpl.
  destruct (is_integer_dtype d) eqn:Hint; simpl.
  - right. split; [|split; [|reflexivity]].
    + unfold lacks_datetime. tauto.
    + intros Hlack. rewrite (Hlack d Hin) in Hint. discriminate.
  - left. split; [|eexists; reflexivity]. right. intros d' Hin'.
    apply (lookup_In _ _ _ Hnd) in Hin'. congruence.
Qed.

(** With column labels that do not repeat, as [read_csv] delivers them,
    the check raises exactly when a table lacks ['datetime'], lacks an
    integer ['vol'], or the two tables differ in column labels or dtypes. *)
Lemma check_source_data_cases df1 df2 :
  NoDup (names df1) -> NoDup (names df2) ->
  (raises (check_source_data (df1, df2))
   /\ (lacks_datetime df1 \/ lacks_datetime df2
       \/ lacks_integer_volume df1 \/ lacks_integer_volume df2
       \/ column_sets_differ df1 df2 \/ dtypes_differ df1 df2))
  \/ (check_source_data (df1, df2) = Ok tt
      /\ ~ lacks_datetime df1 /\ ~ lacks_datetime df2
      /\ ~ lacks_integer_volume df1 /\ ~ lacks_integer_volume df2
      /\ ~ column_sets_differ df1 df2 /\ ~ dtypes_differ df1 df2).
Proof.
  intros N1 N2. unfold check_source_data. simpl fst. simpl snd.
  destruct (check_one_head 0 [] df1 N1) as [[V (e & E)] | (D1 & I1 & E1)].
  { left. rewrite E. split; [eexists; reflexivity | tauto]. }
  rewrite E1. simpl Nat.eqb. cbv iota. simpl bind.
  set (s1 := sort_index (columns df1)).
  destruct (check_one_head 1 s1 df2 N2) as [[V (e & E)] | (D2 & I2 & E2)].
  { left. rewrite E. split; [eexists; reflexivity | tauto]. }
  rewrite E2. simpl Nat.eqb. cbv iota.
  destruct (set_eqb (names df2) (map fst s1)) eqn:Hset; simpl negb; cbv iota.
  2:{ left. split; [eexists; reflexivity|]. do 4 right. left.
      intros Hsame.
      assert (Ht : set_eqb (names df2) (map fst s1) = true).
      { apply set_eqb_spec. intros n. unfold s1. rewrite sort_index_names.
        symmetry. apply Hsame. }
      congruence. }
  assert (Hsame : forall n, In n (names df1) <-> In n (names df2)).
  { intros n. rewrite set_eqb_spec in Hset. rewrite Hset. unfold s1.
    now rewrite sort_index_names. }
  set (s2 := sort_index (columns df2)).
  assert (Hlab : map fst s1 = map fst s2).
  { apply sorted_labels_unique; try apply sort_index_sorted;
      try (apply sort_index_NoDup; assumption).
    intros n. unfold s1, s2. rewrite !sort_index_names. apply Hsame. }
  unfold compare. rewrite (proj2 (list_eqb_eq _ _) Hlab). simpl bind.
  rewrite length_map.
  destruct (filter (fun p => negb (dtype_eqb (snd (fst p)) (snd (snd p))))
                   (combine s1 s2)) as [|p l] eqn:Ef; simpl.
  - right. split; [reflexivity|]. repeat split; try assumption.
    + unfold column_sets_differ. tauto.
    + intros (n & d1 & d2 & H1 & H2 & Hne).
      assert (Hin : In ((n, d1), (n, d2))
                       (filter (fun p => negb (dtype_eqb (snd (fst p))
                                                         (snd (snd p))))
                               (combine s1 s2))).
      { apply filter_In. split.
        - apply combine_In; try assumption.
          + now apply sort_index_NoDup.
          + now apply sort_index_In.
          + now apply sort_index_In.
        - simpl. destruct (dtype_eqb d1 d2) eqn:Ed; [|reflexivity].
          apply dtype_eqb_eq in Ed. contradiction. }
      rewrite Ef in Hin. destruct Hin.
  - left. split; [eexists; reflexivity|]. do 5 right.
    assert (Hp : In p (filter (fun p => negb (dtype_eqb (snd (fst p))
                                                        (snd (snd p))))
                              (combine s1 s2))) by (rewrite Ef; now left).
    apply filter_In in Hp as [Hp Hd]. destruct p as [[n1 d1] [n2 d2]].
    simpl in Hd. pose proof (combine_same_label _ _ _ _ Hlab Hp) as En.
    simpl in En. subst n2. exists n1, d1, d2.
    split; [apply in_combine_l in Hp;
            exact (proj1 (sort_index_In _ _) Hp)|].
    split; [apply in_combine_r in Hp;
            exact (proj1 (sort_index_In _ _) Hp)|].
    intros ->. destruct d2; discriminate.
Qed.

End MergerFacts.

(** ** The merge: results *)

Module MergerTheorems.
Import Merger ListFacts MergerFacts.

(** C1 as stated fails: two bars of 2^62 each give the first table a total
    of 2^63 on the date, which is not below the second table's total 0;
    the [int64] sum wraps to -2^63 and the date is taken from the second
    table. *)
Lemma huge_volumes_take_second_series :
  exists out,
    main MergerExamples.huge_a MergerExamples.idle_b MergerExamples.no_dates
    = Ok out
    /\ In 19360 (unique_dates MergerExamples.huge_a)
    /\ In 19360 (unique_dates MergerExamples.idle_b)
    /\ 0 <= total_volume MergerExamples.huge_a 19360
            - total_volume MergerExamples.idle_b 19360
    /\ takes_day out 19360 MergerExamples.idle_b
    /\ ~ takes_day out 19360 MergerExamples.huge_a.
Proof.
  eexists. split; [vm_compute; reflexivity|].
  split; [now left|]. split; [now left|].
  split; [vm_compute; discriminate|].
  split.
  - unfold takes_day. vm_compute. apply Permutation_refl.
  - unfold takes_day. intros H. apply Permutation_length in H.
    vm_compute in H. discriminate H.
Qed.

(** C1, amended. For two series that pass the schema check, whose cells
    are what their columns announce (timestamps, integers) and whose
    ['vol'] is an [int64] column with daily totals below 2^52 in absolute
    value: on a date both (date-restricted) series
    have, the merged table takes the rows of the first when its total
    volume minus the second's is >= 0 and the rows of the second otherwise;
    on a date only one of them has it takes that one's rows; and on every
    date its rows are the rows of one of the two series. *)
Theorem merged_day_is_one_series df1 df2 args out :
  main df1 df2 args = Ok out ->
  typed_cells df1 = true -> typed_cells df2 = true ->
  exact_totals df1 = true -> exact_totals df2 = true ->
  let a := drop_by_dates args df1 in
  let b := drop_by_dates args df2 in
  forall d,
    (In d (unique_dates a) -> In d (unique_dates b) ->
     (0 <= total_volume a d - total_volume b d -> takes_day out d a)
     /\ (total_volume a d - total_volume b d < 0 -> takes_day out d b))
    /\ (In d (unique_dates a) -> ~ In d (unique_dates b) -> takes_day out d a)
    /\ (~ In d (unique_dates a) -> In d (unique_dates b) -> takes_day out d b)
    /\ (takes_day out d a \/ takes_day out d b).
Proof.
  intros H _ _ X1 X2 a b d. apply main_ok in H as [_ H].
  pose proof (merged_rows_on_date _ _ _ _ d H) as Hp.
  cbv zeta in Hp. fold a b in Hp. unfold takes_day.
  assert (Hdiff : difference a b d = total_volume a d - total_volume b d)
    by (apply difference_exact; apply exact_totals_drop; assumption).
  pose proof (selected_cases a b d) as Hc. rewrite Hdiff in Hc.
  destruct Hc
    as [(Ha & Hwin & E1 & E2) | [(Hb & Hwin & E1 & E2) | (Ha & Hb & E1 & E2)]];
    rewrite E1, E2 in Hp; rewrite ?app_nil_r, ?app_nil_l in Hp.
  - repeat split; intros; try assumption; try contradiction.
    + exfalso. destruct Hwin; [contradiction | lia].
    + now left.
  - repeat split; intros; try assumption; try contradiction.
    + exfalso. destruct Hwin; [contradiction | lia].
    + now right.
  - repeat split; intros; try contradiction. left.
    destruct (on_date d (rows a)) as [|r l] eqn:Ea; [exact Hp|].
    exfalso. apply Ha, on_date_unique_dates. congruence.
Qed.

Lemma merged_day_is_one_series_witness :
  main MergerExamples.series_a MergerExamples.series_b MergerExamples.no_dates
  = Ok MergerExamples.merged
  /\ typed_cells MergerExamples.series_a = true
  /\ typed_cells MergerExamples.series_b = true
  /\ exact_totals MergerExamples.series_a = true
  /\ exact_totals MergerExamples.series_b = true
  /\ let a := drop_by_dates MergerExamples.no_dates MergerExamples.series_a in
     let b := drop_by_dates MergerExamples.no_dates MergerExamples.series_b in
     forall d,
       (In d (unique_dates a) -> In d (unique_dates b) ->
        (0 <= total_volume a d - total_volume b d ->
         takes_day MergerExamples.merged d a)
        /\ (total_volume a d - total_volume b d < 0 ->
            takes_day MergerExamples.merged d b))
       /\ (In d (unique_dates a) -> ~ In d (unique_dates b) ->
           takes_day MergerExamples.merged d a)
       /\ (~ In d (unique_dates a) -> In d (unique_dates b) ->
           takes_day MergerExamples.merged d b)
       /\ (takes_day MergerExamples.merged d a
           \/ takes_day MergerExamples.merged d b).
Proof.
  do 5 (split; [reflexivity|]).
  apply (merged_day_is_one_series MergerExamples.series_a
           MergerExamples.series_b MergerExamples.no_dates
           MergerExamples.merged);
    reflexivity.
Defined.




(** C10. In a successful merge the dates of the merged table are exactly
    the dates of the two date-restricted tables; in particular a date of
    the second table that is not in the index of the first table's daily
    volumes, where the difference of the volumes has no value, is a date
    of the merged table. *)
Theorem merge_loses_no_date df1 df2 args out :
  merge_data df1 df2 args = Ok out ->
  let a := drop_by_dates args df1 in
  let b := drop_by_dates args df2 in
  (forall d, In d (unique_dates out) <->
             In d (unique_dates a) \/ In d (unique_dates b))
  /\ (forall d, In d (unique_dates b) -> ~ In d (index (daily_volumes a)) ->
        at_index d (series_sub (daily_volumes a) (daily_volumes b)) = Some None
        /\ In d (unique_dates out)).
Proof.
  intros H a b.
  assert (U : forall d, In d (unique_dates out) <->
                        In d (unique_dates a) \/ In d (unique_dates b)).
  { intros d. pose proof (merged_on_date_length _ _ _ _ d H) as Hlen.
    cbv zeta in Hlen. fold a b in Hlen.
    rewrite (on_date_unique_dates out).
    destruct (selected_cases a b d)
      as [(Ha & _ & E1 & E2) | [(Hb & _ & E1 & E2) | (Ha & Hb & E1 & E2)]];
      rewrite E1, E2 in Hlen; simpl in Hlen.
    - split; [auto|]. intros _ E. rewrite E in Hlen. simpl in Hlen.
      apply on_date_unique_dates in Ha.
      destruct (on_date d (rows a)); [congruence | discriminate].
    - split; [auto|]. intros _ E. rewrite E in Hlen. simpl in Hlen.
      apply on_date_unique_dates in Hb.
      destruct (on_date d (rows b)); [congruence | discriminate].
    - split; [|tauto]. intros Hne. exfalso. apply Hne.
      destruct (on_date d (rows out)); [reflexivity | discriminate]. }
  split; [exact U|]. intros d Hb Ha. split; [|apply U; now right].
  unfold series_sub. cbv zeta. rewrite at_index_map.
  assert (Hm : mem d (sorted (set_union (index (daily_volumes a))
                                        (index (daily_volumes b)))) = true).
  { apply mem_In, sorted_In, set_union_In. right. now apply index_daily. }
  rewrite Hm. rewrite index_daily in Ha. rewrite (at_index_daily a).
  apply mem_false in Ha. now rewrite Ha.
Qed.

Lemma merge_loses_no_date_witness :
  merge_data MergerExamples.series_a MergerExamples.series_b
    MergerExamples.no_dates = Ok MergerExamples.merged
  /\ In 19362 (unique_dates MergerExamples.merged)
  /\ let a := drop_by_dates MergerExamples.no_dates MergerExamples.series_a in
     let b := drop_by_dates MergerExamples.no_dates MergerExamples.series_b in
     (forall d, In d (unique_dates MergerExamples.merged) <->
                In d (unique_dates a) \/ In d (unique_dates b))
     /\ (forall d, In d (unique_dates b) ->
           ~ In d (index (daily_volumes a)) ->
           at_index d (series_sub (daily_volumes a) (daily_volumes b))
           = Some None
           /\ In d (unique_dates MergerExamples.merged)).
Proof.
  split; [reflexivity|]. split; [vm_compute; auto|].
  apply (merge_loses_no_date MergerExamples.series_a MergerExamples.series_b
           MergerExamples.no_dates MergerExamples.merged).
  reflexivity.
Defined.

(** X1. For two tables whose cells are what their columns announce
    (timestamps, integers) and whose ['vol'] is an [int64] column with
    daily totals below 2^52 in absolute value: in a successful merge, a
    date of the (date-restricted) first table that the
    second lacks, or on which the first table's total volume minus the
    second's is >= 0, gets exactly the first table's rows of that date; a
    date of the second table that the first lacks, or on which the
    difference is negative, gets exactly the second's rows; and no date
    takes rows from both blocks handed to the concatenation. *)
Theorem merge_takes_whole_days df1 df2 args out d :
  merge_data df1 df2 args = Ok out ->
  typed_cells df1 = true -> typed_cells df2 = true ->
  exact_totals df1 = true -> exact_totals df2 = true ->
  let a := drop_by_dates args df1 in
  let b := drop_by_dates args df2 in
  (In d (unique_dates a) ->
   ~ In d (unique_dates b) \/ 0 <= total_volume a d - total_volume b d ->
   Permutation (map fields (on_date d (rows out)))
               (map (project (columns out)) (on_date d (rows a))))
  /\ (In d (unique_dates b) ->
      ~ In d (unique_dates a) \/ total_volume a d - total_volume b d < 0 ->
      Permutation (map fields (on_date d (rows out)))
                  (map (project (columns out)) (on_date d (rows b))))
  /\ (on_date d (rows (fst (selected a b))) = []
      \/ on_date d (rows (snd (selected a b))) = []).
Proof.
  intros H _ _ X1 X2 a b. pose proof (merged_rows_on_date _ _ _ _ d H) as Hp.
  cbv zeta in Hp. fold a b in Hp.
  assert (Hdiff : difference a b d = total_volume a d - total_volume b d)
    by (apply difference_exact; apply exact_totals_drop; assumption).
  pose proof (selected_cases a b d) as Hc. rewrite Hdiff in Hc.
  destruct Hc
    as [(Ha & Hwin & E1 & E2) | [(Hb & Hwin & E1 & E2) | (Ha & Hb & E1 & E2)]];
    rewrite E1, E2 in Hp; rewrite E1, E2;
    rewrite ?app_nil_r, ?app_nil_l in Hp.
  - split; [intros; assumption|]. split; [|now right].
    intros Hb Hlose. exfalso. intuition lia.
  - split; [|split; [intros; assumption | now left]].
    intros Ha Hlose. exfalso. intuition lia.
  - split; [intros; contradiction|]. split; [intros; contradiction|].
    now left.
Qed.

Lemma merge_takes_whole_days_witness :
  merge_data MergerExamples.series_a MergerExamples.series_b
    MergerExamples.no_dates = Ok MergerExamples.merged
  /\ typed_cells MergerExamples.series_a = true
  /\ typed_cells MergerExamples.series_b = true
  /\ exact_totals MergerExamples.series_a = true
  /\ exact_totals MergerExamples.series_b = true
  /\ let a := drop_by_dates MergerExamples.no_dates MergerExamples.series_a in
     let b := drop_by_dates MergerExamples.no_dates MergerExamples.series_b in
     (In 19360 (unique_dates a) ->
      ~ In 19360 (unique_dates b)
      \/ 0 <= total_volume a 19360 - total_volume b 19360 ->
      Permutation
        (map fields (on_date 19360 (rows MergerExamples.merged)))
        (map (project (columns MergerExamples.merged))
             (on_date 19360 (rows a))))
     /\ (In 19360 (unique_dates b) ->
         ~ In 19360 (unique_dates a)
         \/ total_volume a 19360 - total_volume b 19360 < 0 ->
         Permutation
           (map fields (on_date 19360 (rows MergerExamples.merged)))
           (map (project (columns MergerExamples.merged))
                (on_date 19360 (rows b))))
     /\ (on_date 19360 (rows (fst (selected a b))) = []
         \/ on_date 19360 (rows (snd (selected a b))) = []).
Proof.
  do 5 (split; [reflexivity|]).
  apply (merge_takes_whole_days MergerExamples.series_a MergerExamples.series_b
           MergerExamples.no_dates MergerExamples.merged 19360);
    reflexivity.
Defined.

(** X2. In a successful merge the dates of the merged table are exactly
    the dates of the two date-restricted tables: no date is lost and none
    is invented. *)
Theorem merged_dates_are_union df1 df2 args out d :
  merge_data df1 df2 args = Ok out ->
  (In d (unique_dates out) <->
   In d (unique_dates (drop_by_dates args df1))
   \/ In d (unique_dates (drop_by_dates args df2))).
Proof.
  intros H. pose proof (merged_on_date_length _ _ _ _ d H) as Hlen.
  cbv zeta in Hlen.
  set (a := drop_by_dates args df1) in *.
  set (b := drop_by_dates args df2) in *.
  rewrite (on_date_unique_dates out).
  destruct (selected_cases a b d)
    as [(Ha & _ & E1 & E2) | [(Hb & _ & E1 & E2) | (Ha & Hb & E1 & E2)]];
    rewrite E1, E2 in Hlen; simpl in Hlen.
  - split; [auto|]. intros _ E. rewrite E in Hlen. simpl in Hlen.
    apply on_date_unique_dates in Ha.
    destruct (on_date d (rows a)); [congruence | discriminate].
  - split; [auto|]. intros _ E. rewrite E in Hlen. simpl in Hlen.
    apply on_date_unique_dates in Hb.
    destruct (on_date d (rows b)); [congruence | discriminate].
  - split; [|tauto]. intros Hne. exfalso. apply Hne.
    destruct (on_date d (rows out)); [reflexivity | discriminate].
Qed.

Lemma merged_dates_are_union_witness :
  merge_data MergerExamples.series_a MergerExamples.series_b
    MergerExamples.no_dates = Ok MergerExamples.merged
  /\ (In 19362 (unique_dates MergerExamples.merged) <->
      In 19362 (unique_dates
                  (drop_by_dates MergerExamples.no_dates
                     MergerExamples.series_a))
      \/ In 19362 (unique_dates
                     (drop_by_dates MergerExamples.no_dates
                        MergerExamples.series_b))).
Proof.
  split; [reflexivity|].
  apply (merged_dates_are_union MergerExamples.series_a
           MergerExamples.series_b MergerExamples.no_dates
           MergerExamples.merged 19362).
  reflexivity.
Defined.

(** X3. For two tables whose cells are what their columns announce
    (timestamps, integers) and whose ['vol'] is an [int64] column with
    daily totals below 2^52 in absolute value: in a successful merge the
    total volume of the merged table on a date that
    both date-restricted tables have is the larger of their two totals; on
    a date only one of them has it is that table's total. *)
Theorem merged_volume_is_larger df1 df2 args out d :
  merge_data df1 df2 args = Ok out ->
  typed_cells df1 = true -> typed_cells df2 = true ->
  exact_totals df1 = true -> exact_totals df2 = true ->
  let a := drop_by_dates args df1 in
  let b := drop_by_dates args df2 in
  (In d (unique_dates a) -> In d (unique_dates b) ->
   total_volume out d = Z.max (total_volume a d) (total_volume b d))
  /\ (In d (unique_dates a) -> ~ In d (unique_dates b) ->
      total_volume out d = total_volume a d)
  /\ (~ In d (unique_dates a) -> In d (unique_dates b) ->
      total_volume out d = total_volume b d).
Proof.
  intros H _ _ X1 X2 a b. pose proof (merged_total_volume _ _ _ _ d H) as Hv.
  cbv zeta in Hv. fold a b in Hv.
  assert (Hdiff : difference a b d = total_volume a d - total_volume b d)
    by (apply difference_exact; apply exact_totals_drop; assumption).
  assert (Ea : sum (map vol (on_date d (rows a))) = total_volume a d)
    by reflexivity.
  assert (Eb : sum (map vol (on_date d (rows b))) = total_volume b d)
    by reflexivity.
  pose proof (selected_cases a b d) as Hc. rewrite Hdiff in Hc.
  destruct Hc
    as [(Ha & Hwin & E1 & E2) | [(Hb & Hwin & E1 & E2) | (Ha & Hb & E1 & E2)]];
    rewrite E1, E2 in Hv; rewrite ?Ea, ?Eb in Hv;
    change (sum (map vol [])) with 0 in Hv.
  - repeat split; intros; try contradiction; try lia.
    destruct Hwin as [Hnb|Hge]; [contradiction | lia].
  - repeat split; intros; try contradiction; try lia.
    destruct Hwin as [Hna|Hlt]; [contradiction | lia].
  - repeat split; intros; contradiction.
Qed.

Lemma merged_volume_is_larger_witness :
  merge_data MergerExamples.series_a MergerExamples.series_b
    MergerExamples.no_dates = Ok MergerExamples.merged
  /\ typed_cells MergerExamples.series_a = true
  /\ typed_cells MergerExamples.series_b = true
  /\ exact_totals MergerExamples.series_a = true
  /\ exact_totals MergerExamples.series_b = true
  /\ total_volume MergerExamples.merged 19360 = 100
  /\ let a := drop_by_dates MergerExamples.no_dates MergerExamples.series_a in
     let b := drop_by_dates MergerExamples.no_dates MergerExamples.series_b in
     (In 19360 (unique_dates a) -> In 19360 (unique_dates b) ->
      total_volume MergerExamples.merged 19360
      = Z.max (total_volume a 19360) (total_volume b 19360))
     /\ (In 19360 (unique_dates a) -> ~ In 19360 (unique_dates b) ->
         total_volume MergerExamples.merged 19360 = total_volume a 19360)
     /\ (~ In 19360 (unique_dates a) -> In 19360 (unique_dates b) ->
         total_volume MergerExamples.merged 19360 = total_volume b 19360).
Proof.
  do 6 (split; [reflexivity|]).
  apply (merged_volume_is_larger MergerExamples.series_a
           MergerExamples.series_b MergerExamples.no_dates
           MergerExamples.merged 19360);
    reflexivity.
Defined.

(** X4. The merged table is sorted by timestamp; when neither input table
    repeats a timestamp, the merged timestamps are strictly increasing, so
    merging two cleaned series gives a series without duplicates. *)
Theorem merged_series_sorted df1 df2 args out :
  merge_data df1 df2 args = Ok out ->
  StronglySorted (fun r r' => stamp r <= stamp r') (rows out)
  /\ (NoDup (map stamp (rows df1)) -> NoDup (map stamp (rows df2)) ->
      StronglySorted (fun r r' => stamp r < stamp r') (rows out)).
Proof.
  intros H. destruct (merge_data_ok _ _ _ _ H) as (Hout & Hdt & _).
  cbv zeta in Hout.
  set (a := drop_by_dates args df1) in *.
  set (b := drop_by_dates args df2) in *.
  set (c := concat (fst (selected a b)) (snd (selected a b))) in *.
  rewrite Hout in Hdt |- *.
  change (rows (sort_values c)) with (sort_by stamp (rows c)).
  change (columns (sort_values c)) with (columns c) in Hdt.
  split; [apply (sort_by_sorted stamp)|].
  intros N1 N2. apply (sort_by_strict stamp).
  unfold c at 1. unfold concat. simpl rows.
  unfold c, concat in Hdt. simpl columns in Hdt.
  rewrite (stamps_reindex _ _ 0 Hdt), map_app.
  assert (Na : NoDup (map stamp (rows a))).
  { destruct (drop_by_dates_filter args df1) as (g & Hg).
    unfold a. rewrite Hg. now apply NoDup_map_filter. }
  assert (Nb : NoDup (map stamp (rows b))).
  { destruct (drop_by_dates_filter args df2) as (g & Hg).
    unfold b. rewrite Hg. now apply NoDup_map_filter. }
  apply NoDup_app.
  - unfold selected; simpl. rewrite select_dates_rows.
    now apply NoDup_map_filter.
  - unfold selected; simpl. rewrite select_dates_rows.
    now apply NoDup_map_filter.
  - intros t H1 H2.
    apply in_map_iff in H1 as (r1 & E1 & H1).
    apply in_map_iff in H2 as (r2 & E2 & H2).
    apply (selected_disjoint a b r1 r2 H1 H2).
    unfold date. congruence.
Qed.

Lemma merged_series_sorted_witness :
  merge_data MergerExamples.series_a MergerExamples.series_b
    MergerExamples.no_dates = Ok MergerExamples.merged
  /\ NoDup (map stamp (rows MergerExamples.series_a))
  /\ NoDup (map stamp (rows MergerExamples.series_b))
  /\ StronglySorted (fun r r' => stamp r <= stamp r')
       (rows MergerExamples.merged)
  /\ (NoDup (map stamp (rows MergerExamples.series_a)) ->
      NoDup (map stamp (rows MergerExamples.series_b)) ->
      StronglySorted (fun r r' => stamp r < stamp r')
        (rows MergerExamples.merged)).
Proof.
  split; [reflexivity|].
  split; [repeat constructor; simpl; intuition discriminate|].
  split; [repeat constructor; simpl; intuition discriminate|].
  apply (merged_series_sorted MergerExamples.series_a MergerExamples.series_b
           MergerExamples.no_dates MergerExamples.merged).
  reflexivity.
Defined.

(** X5. Every row of the merged table carries the timestamp of a row of
    one of the inputs and lies within the configured start and end dates
    (both inclusive). *)
Theorem merged_rows_within_dates df1 df2 args out r :
  merge_data df1 df2 args = Ok out ->
  In r (rows out) ->
  (exists r', stamp r' = stamp r /\ (In r' (rows df1) \/ In r' (rows df2)))
  /\ (forall d, start_date args = Some d -> d <= date r)
  /\ (forall d, end_date args = Some d -> date r <= d).
Proof.
  intros H Hr.
  destruct (merged_row_source _ _ _ _ _ H Hr) as (r' & Hst & Hin).
  assert (Hd : date r = date r') by (unfold date; now rewrite Hst).
  rewrite Hd.
  destruct Hin as [Hin|Hin]; apply drop_by_dates_In in Hin
    as (Hin & Hs & He); (split; [exists r'; auto | auto]).
Qed.

Lemma merged_rows_within_dates_witness :
  let args := {| check_only := true; start_date := Some 19361;
                 end_date := Some 19362; interactive := false |} in
  let r := MergerExamples.bar 1 "RIM3" 19362 10 0 99 5 in
  exists out,
    merge_data MergerExamples.series_a MergerExamples.series_b args = Ok out
    /\ In r (rows out)
    /\ (exists r', stamp r' = stamp r
                   /\ (In r' (rows MergerExamples.series_a)
                       \/ In r' (rows MergerExamples.series_b)))
    /\ (forall d, start_date args = Some d -> d <= date r)
    /\ (forall d, end_date args = Some d -> date r <= d).
Proof.
  intros args r.
  destruct (merge_data MergerExamples.series_a MergerExamples.series_b args)
    as [out|e] eqn:E; [|vm_compute in E; discriminate].
  exists out. split; [reflexivity|].
  assert (Hin : In r (rows out)).
  { vm_compute in E. inversion E. simpl. right. left. reflexivity. }
  split; [exact Hin|].
  exact (merged_rows_within_dates MergerExamples.series_a
           MergerExamples.series_b args out r E Hin).
Defined.

(** X6. For two tables whose column labels do not repeat and whose cells
    are what their columns announce (timestamps in a datetime column
    ['datetime'], numbers in an integer or float column ['vol']), and
    without interactive prompts: [merge_data] returns a table exactly when
    each input table has a datetime-typed ['datetime'] column, a ['ticker']
    column, a ['vol'] column and at least one row, and the configured dates
    leave a row in one of them; in particular it raises when an input table
    is empty and when the date range excludes every row. *)
Theorem merge_data_succeeds_iff df1 df2 args :
  NoDup (names df1) -> NoDup (names df2) ->
  typed_cells df1 = true -> typed_cells df2 = true ->
  interactive args = false ->
  ((exists out, merge_data df1 df2 args = Ok out) <->
   usable df1 /\ usable df2
   /\ (rows (drop_by_dates args df1) <> []
       \/ rows (drop_by_dates args df2) <> [])).
Proof.
  intros _ _ _ _ _. apply merge_data_returns.
Qed.

Lemma merge_data_succeeds_witness :
  NoDup (names MergerExamples.series_a)
  /\ NoDup (names MergerExamples.series_b)
  /\ typed_cells MergerExamples.series_a = true
  /\ typed_cells MergerExamples.series_b = true
  /\ interactive MergerExamples.no_dates = false
  /\ (usable MergerExamples.series_a /\ usable MergerExamples.series_b
      /\ (rows (drop_by_dates MergerExamples.no_dates MergerExamples.series_a)
          <> []
          \/ rows (drop_by_dates MergerExamples.no_dates
                     MergerExamples.series_b) <> []))
  /\ exists out,
       merge_data MergerExamples.series_a MergerExamples.series_b
         MergerExamples.no_dates = Ok out.
Proof.
  assert (N : NoDup (names MergerExamples.series_a))
    by (repeat constructor; simpl; intuition discriminate).
  assert (H : usable MergerExamples.series_a /\ usable MergerExamples.series_b
              /\ (rows (drop_by_dates MergerExamples.no_dates
                          MergerExamples.series_a) <> []
                  \/ rows (drop_by_dates MergerExamples.no_dates
                             MergerExamples.series_b) <> [])).
  { repeat split; try reflexivity; try discriminate. left. discriminate. }
  split; [exact N|]. split; [exact N|]. do 3 (split; [reflexivity|]).
  split; [exact H|].
  exact (proj2 (merge_data_succeeds_iff MergerExamples.series_a
                  MergerExamples.series_b MergerExamples.no_dates
                  N N eq_refl eq_refl eq_refl) H).
Defined.

(** X7. For two tables whose column labels do not repeat,
    [check_source_data] raises exactly when one of them has no ['datetime']
    column or no integer-typed ['vol'] column, or their column labels
    differ, or a shared column has different dtypes.  The outcome depends
    on the column indexes only, not on any row, and an error it raises is
    the outcome of the whole run: [merge_data] is not entered. *)
Theorem schema_check_raises_iff df1 df2 args :
  NoDup (names df1) -> NoDup (names df2) ->
  (raises (check_source_data (df1, df2)) <->
   lacks_datetime df1 \/ lacks_datetime df2
   \/ lacks_integer_volume df1 \/ lacks_integer_volume df2
   \/ column_sets_differ df1 df2 \/ dtypes_differ df1 df2)
  /\ (forall e, check_source_data (df1, df2) = Raise e ->
                main df1 df2 args = Raise e)
  /\ (forall rows1 rows2,
        check_source_data ({| columns := columns df1; rows := rows1 |},
                           {| columns := columns df2; rows := rows2 |})
        = check_source_data (df1, df2)).
Proof.
  intros N1 N2. split; [|split].
  - destruct (check_source_data_cases df1 df2 N1 N2)
      as [[Hr Hv] | (Hok & A & B & C & D & E & F)].
    + tauto.
    + split.
      * intros (e & He). congruence.
      * tauto.
  - intros e He. unfold main. now rewrite He.
  - intros rows1 rows2. reflexivity.
Qed.

Lemma schema_check_raises_witness :
  NoDup (names MergerExamples.undated)
  /\ raises (check_source_data (MergerExamples.undated, MergerExamples.undated))
  /\ (raises (check_source_data
                (MergerExamples.undated, MergerExamples.undated)) <->
      lacks_datetime MergerExamples.undated
      \/ lacks_datetime MergerExamples.undated
      \/ lacks_integer_volume MergerExamples.undated
      \/ lacks_integer_volume MergerExamples.undated
      \/ column_sets_differ MergerExamples.undated MergerExamples.undated
      \/ dtypes_differ MergerExamples.undated MergerExamples.undated)
  /\ (forall e,
        check_source_data (MergerExamples.undated, MergerExamples.undated)
        = Raise e ->
        main MergerExamples.undated MergerExamples.undated
          MergerExamples.no_dates = Raise e)
  /\ (forall rows1 rows2,
        check_source_data
          ({| columns := columns MergerExamples.undated; rows := rows1 |},
           {| columns := columns MergerExamples.undated; rows := rows2 |})
        = check_source_data (MergerExamples.undated, MergerExamples.undated)).
Proof.
  assert (N : NoDup (names MergerExamples.undated))
    by (repeat constructor; simpl; intuition discriminate).
  split; [exact N|].
  split; [eexists; reflexivity|].
  exact (schema_check_raises_iff MergerExamples.undated MergerExamples.undated
           MergerExamples.no_dates N N).
Defined.

End MergerTheorems.

(** ** Column names and tickers: facts and results *)

Module TextFacts.
Import Cleaner.

Lemma lower_char_idem c : lower_char (lower_char c) = lower_char c.
Proof.
  destruct c as [b0 b1 b2 b3 b4 b5 b6 b7].
  destruct b0, b1, b2, b3, b4, b5, b6, b7; reflexivity.
Qed.

Lemma lower_char_angle c :
  ((lower_char c =? "<") || (lower_char c =? ">"))%char
  = ((c =? "<") || (c =? ">"))%char.
Proof.
  destruct c as [b0 b1 b2 b3 b4 b5 b6 b7].
  destruct b0, b1, b2, b3, b4, b5, b6, b7; reflexivity.
Qed.

Lemma lower_idem x : lower (lower x) = lower x.
Proof.
  induction x as [|c x IH]; simpl; [reflexivity|].
  now rewrite lower_char_idem, IH.
Qed.

Lemma remove_angles_lower x : remove_angles (lower x) = lower (remove_angles x).
Proof.
  induction x as [|c x IH]; simpl; [reflexivity|].
  rewrite lower_char_angle.
  destruct ((c =? "<") || (c =? ">"))%char; simpl; now rewrite IH.
Qed.

Lemma remove_angles_idem x : remove_angles (remove_angles x) = remove_angles x.
Proof.
  induction x as [|c x IH]; simpl; [reflexivity|].
  destruct ((c =? "<") || (c =? ">"))%char eqn:E; simpl; [assumption|].
  now rewrite E, IH.
Qed.

Lemma clean_column_name_idem x :
  clean_column_name (clean_column_name x) = clean_column_name x.
Proof.
  unfold clean_column_name.
  now rewrite remove_angles_lower, remove_angles_idem, lower_idem.
Qed.

Lemma remove_angles_chars x :
  Forall (fun c => ((c =? "<") || (c =? ">"))%char = false)
         (list_ascii_of_string (remove_angles x)).
Proof.
  induction x as [|c x IH]; simpl; [constructor|].
  destruct ((c =? "<") || (c =? ">"))%char eqn:E; simpl; [assumption|].
  now constructor.
Qed.

Lemma lower_chars x :
  list_ascii_of_string (lower x) = map lower_char (list_ascii_of_string x).
Proof. induction x as [|c x IH]; simpl; [reflexivity | now rewrite IH]. Qed.

(** Subsequences *)

Lemma subsequence_refl {A : Type} (l : list A) : subsequence l l.
Proof. induction l; constructor; assumption. Qed.

Lemma subsequence_trans {A : Type} (a b c : list A) :
  subsequence a b -> subsequence b c -> subsequence a c.
Proof.
  intros Hab Hbc. revert a Hab.
  induction Hbc as [|x b c Hbc IH|x b c Hbc IH]; intros a Hab.
  - assumption.
  - apply subsequence_skip. now apply IH.
  - inversion Hab; subst.
    + apply subsequence_skip. now apply IH.
    + apply subsequence_keep. now apply IH.
Qed.

Lemma subsequence_app {A : Type} (a b a' b' : list A) :
  subsequence a b -> subsequence a' b' -> subsequence (a ++ a') (b ++ b').
Proof.
  induction 1; intros H'; simpl;
    [assumption | apply subsequence_skip | apply subsequence_keep]; auto.
Qed.

Lemma subsequence_rev {A : Type} (a b : list A) :
  subsequence a b -> subsequence (rev a) (rev b).
Proof.
  induction 1 as [|x a b H IH|x a b H IH]; simpl.
  - constructor.
  - rewrite <- (app_nil_r (rev a)). apply subsequence_app; [assumption|].
    apply subsequence_skip, subsequence_nil.
  - apply subsequence_app; [assumption | apply subsequence_refl].
Qed.

Lemma subsequence_length {A : Type} (a b : list A) :
  subsequence a b -> (List.length a <= List.length b)%nat.
Proof. induction 1; simpl; lia. Qed.

Lemma sub_tokens_subsequence x :
  forall skip,
    subsequence (list_ascii_of_string (sub_tokens skip x))
                (list_ascii_of_string x).
Proof.
  induction x as [|c x IH]; intros skip; [constructor|].
  cbn [sub_tokens]. destruct skip as [|k].
  - destruct (match_here (String c x)) as [[|n]|]; simpl;
      first [ apply subsequence_keep; apply IH
            | apply subsequence_skip; apply IH ].
  - simpl. apply subsequence_skip. apply IH.
Qed.

Lemma lstrip_suffix l : exists pre, l = pre ++ lstrip l.
Proof.
  induction l as [|c l (pre & IH)]; simpl; [now exists []|].
  destruct (is_space c).
  - exists (c :: pre). simpl. now rewrite <- IH.
  - now exists [].
Qed.

Lemma lstrip_subsequence l : subsequence (lstrip l) l.
Proof.
  induction l as [|c l IH]; simpl; [constructor|].
  destruct (is_space c); [now apply subsequence_skip | apply subsequence_refl].
Qed.

Lemma lstrip_hd l c : hd_error (lstrip l) = Some c -> is_space c = false.
Proof.
  induction l as [|x l IH]; simpl; [discriminate|].
  destruct (is_space x) eqn:E; [assumption|]. simpl. intros H.
  now inversion H; subst.
Qed.

Lemma strip_chars x :
  list_ascii_of_string (strip x)
  = rev (lstrip (rev (lstrip (list_ascii_of_string x)))).
Proof. unfold strip. apply list_ascii_of_string_of_list_ascii. Qed.

End TextFacts.

Module TextTheorems.
Import Cleaner TextFacts.

(** X15. Cleaning a column name a second time changes nothing, and a
    cleaned name holds no angle bracket and no character that lower-casing
    would change. *)
Theorem clean_column_name_is_normal x :
  clean_column_name (clean_column_name x) = clean_column_name x
  /\ Forall (fun c => c <> "<"%char /\ c <> ">"%char /\ lower_char c = c)
            (list_ascii_of_string (clean_column_name x)).
Proof.
  split; [apply clean_column_name_idem|].
  unfold clean_column_name. rewrite lower_chars.
  pose proof (remove_angles_chars x) as H.
  induction H as [|c l Hc _ IH]; simpl; constructor; [|assumption].
  rewrite <- lower_char_angle in Hc. apply orb_false_iff in Hc as [H1 H2].
  apply Ascii.eqb_neq in H1, H2. repeat split; try assumption.
  apply lower_char_idem.
Qed.

(** X16. Cleaning a ticker only deletes characters: the result is a
    subsequence of the input, no longer than it, and it neither starts nor
    ends with a whitespace character. *)
Theorem clean_ticker_only_deletes x :
  let cleaned := list_ascii_of_string (clean_ticker x) in
  subsequence cleaned (list_ascii_of_string x)
  /\ (List.length cleaned <= String.length x)%nat
  /\ (forall c, hd_error cleaned = Some c -> is_space c = false)
  /\ (forall c, hd_error (rev cleaned) = Some c -> is_space c = false).
Proof.
  intros cleaned.
  assert (Hsub : subsequence cleaned (list_ascii_of_string x)).
  { unfold cleaned, clean_ticker. rewrite strip_chars.
    eapply subsequence_trans; [|apply (sub_tokens_subsequence x 0)].
    set (l := list_ascii_of_string (sub_tokens 0 x)).
    eapply subsequence_trans; [|apply (lstrip_subsequence l)].
    rewrite <- (rev_involutive (lstrip l)) at 2.
    apply subsequence_rev, lstrip_subsequence. }
  split; [assumption|]. split.
  { apply subsequence_length in Hsub.
    assert (Hlen : forall s, List.length (list_ascii_of_string s)
                             = String.length s)
      by (induction s; simpl; congruence).
    now rewrite Hlen in Hsub. }
  unfold cleaned, clean_ticker. rewrite strip_chars.
  set (l := lstrip (list_ascii_of_string (sub_tokens 0 x))).
  split.
  - intros c Hc.
    destruct (lstrip_suffix (rev l)) as (pre & Hpre).
    assert (Hl : l = rev (lstrip (rev l)) ++ rev pre).
    { rewrite <- (rev_involutive l) at 1. rewrite Hpre at 1.
      apply rev_app_distr. }
    apply (lstrip_hd (list_ascii_of_string (sub_tokens 0 x)) c).
    fold l. rewrite Hl.
    destruct (rev (lstrip (rev l))) as [|y s]; [discriminate|].
    exact Hc.
  - intros c Hc. rewrite rev_involutive in Hc. now apply lstrip_hd in Hc.
Qed.

End TextTheorems.

(** ** Running the pipeline on its own output: facts and results *)

Module RerunFacts.
Import Cleaner ListFacts CleanerFacts TextFacts.

(** *** Association lists *)

Lemma lookup_assoc_set {V : Type} n m (v : V) l :
  lookup m (assoc_set n v l) = if String.eqb m n then Some v else lookup m l.
Proof.
  induction l as [|[k w] l IH]; simpl; [reflexivity|].
  destruct (String.eqb_spec n k) as [->|Hnk]; simpl.
  - destruct (String.eqb m k); reflexivity.
  - rewrite IH. destruct (String.eqb_spec m k) as [->|Hmk];
      destruct (String.eqb_spec k n) as [->|Hkn]; try reflexivity; congruence.
Qed.

Lemma assoc_set_same {V : Type} n (v : V) l :
  lookup n l = Some v -> assoc_set n v l = l.
Proof.
  induction l as [|[k w] l IH]; simpl; [discriminate|].
  destruct (String.eqb_spec n k) as [->|Hnk].
  - intros H. now inversion H.
  - intros H. now rewrite IH.
Qed.

Lemma assoc_set_keys {V : Type} n (v : V) l k :
  In k (map fst (assoc_set n v l)) -> k = n \/ In k (map fst l).
Proof.
  induction l as [|[k' w] l IH]; simpl.
  - intros [<-|[]]. now left.
  - destruct (String.eqb_spec n k') as [->|Hnk]; simpl; [tauto|].
    intros [<-|H]; [tauto|]. apply IH in H. tauto.
Qed.

Lemma assoc_set_keeps_keys {V : Type} n (v : V) l k :
  In k (map fst l) -> In k (map fst (assoc_set n v l)).
Proof.
  induction l as [|[k' w] l IH]; simpl; [easy|].
  destruct (String.eqb_spec n k') as [->|Hnk]; simpl; [tauto|].
  intros [<-|H]; [tauto|]. right. now apply IH.
Qed.

Lemma occurrences_assoc_set_other {V : Type} n m (v : V) l :
  m <> n ->
  occurrences m (map fst (assoc_set n v l)) = occurrences m (map fst l).
Proof.
  intros Hne. unfold occurrences.
  induction l as [|[k w] l IH]; simpl.
  - destruct (String.eqb_spec m n); [congruence | reflexivity].
  - destruct (String.eqb_spec n k) as [->|Hnk]; simpl; [reflexivity|].
    destruct (String.eqb m k); simpl; now rewrite IH.
Qed.

Lemma occurrences_absent n l : ~ In n l -> occurrences n l = O.
Proof.
  intros H. unfold occurrences.
  destruct (filter (String.eqb n) l) as [|x s] eqn:E; [reflexivity|].
  exfalso. apply H.
  assert (Hin : In x (filter (String.eqb n) l)) by (rewrite E; now left).
  apply filter_In in Hin as [Hin Heq]. apply String.eqb_eq in Heq. now subst.
Qed.

Lemma occurrences_assoc_set_same {V : Type} n (v : V) l :
  (occurrences n (map fst l) <= 1)%nat ->
  occurrences n (map fst (assoc_set n v l)) = 1%nat.
Proof.
  unfold occurrences. induction l as [|[k w] l IH]; simpl.
  - now rewrite String.eqb_refl.
  - destruct (String.eqb_spec n k) as [->|Hnk]; simpl.
    + rewrite String.eqb_refl. simpl. intros H.
      destruct (filter (String.eqb k) (map fst l)); simpl in *; lia.
    + destruct (String.eqb_spec n k); [congruence|]. exact IH.
Qed.

(** *** [set_column] and [drop_columns], column by column *)

Lemma set_column_ok df n d vs df' :
  set_column df n d vs = Ok df' ->
  (occurrences n (names df) <= 1)%nat
  /\ columns df' = assoc_set n d (columns df)
  /\ rows df' = map (fun rv => set_cell n (snd rv) (fst rv))
                    (combine (rows df) vs).
Proof.
  unfold set_column.
  destruct (occurrences n (names df)) as [|[|k]]; intros H; inversion H;
    simpl; repeat split; lia.
Qed.

Lemma set_column_this df n d vs df' :
  set_column df n d vs = Ok df' ->
  occurrences n (names df') = 1%nat
  /\ lookup n (columns df') = Some d
  /\ forall r', In r' (rows df') ->
       exists r v, In (r, v) (combine (rows df) vs)
                   /\ lookup n (fields r') = Some v.
Proof.
  intros H. apply set_column_ok in H as (Ho & Hc & Hr).
  unfold names. rewrite Hc, Hr. split; [|split].
  - now apply occurrences_assoc_set_same.
  - now rewrite lookup_assoc_set, String.eqb_refl.
  - intros r' Hin. apply in_map_iff in Hin as ([r v] & <- & Hin).
    exists r, v. split; [assumption|]. simpl.
    now rewrite lookup_assoc_set, String.eqb_refl.
Qed.

Lemma set_column_other df n d vs df' :
  set_column df n d vs = Ok df' ->
  (forall m, m <> n ->
     occurrences m (names df') = occurrences m (names df)
     /\ lookup m (columns df') = lookup m (columns df)
     /\ has_column df' m = has_column df m)
  /\ (forall m, In m (names df') -> m = n \/ In m (names df))
  /\ (forall r', In r' (rows df') ->
        exists r v,
          In (r, v) (combine (rows df) vs)
          /\ (forall k, k <> n -> lookup k (fields r') = lookup k (fields r))
          /\ (forall k, In k (map fst (fields r')) ->
                        k = n \/ In k (map fst (fields r)))).
Proof.
  intros H. apply set_column_ok in H as (Ho & Hc & Hr).
  unfold names. rewrite Hc, Hr. split; [|split].
  - intros m Hne.
    assert (Hocc : occurrences m (map fst (assoc_set n d (columns df)))
                   = occurrences m (map fst (columns df)))
      by now apply occurrences_assoc_set_other.
    split; [exact Hocc|]. split.
    + rewrite lookup_assoc_set. destruct (String.eqb_spec m n); congruence.
    + unfold has_column, names. rewrite Hc.
      destruct (existsb (String.eqb m) (map fst (columns df))) eqn:E.
      * apply existsb_exists in E as (x & Hx & Ex).
        apply String.eqb_eq in Ex. subst x.
        apply existsb_exists. exists m. split; [|apply String.eqb_refl].
        now apply assoc_set_keeps_keys.
      * destruct (existsb (String.eqb m) (map fst (assoc_set n d (columns df))))
          eqn:E'; [|reflexivity].
        apply existsb_exists in E' as (x & Hx & Ex).
        apply String.eqb_eq in Ex. subst x.
        apply assoc_set_keys in Hx as [Hx|Hx]; [congruence|].
        assert (existsb (String.eqb m) (map fst (columns df)) = true)
          by (apply existsb_exists; exists m; split;
              [assumption | apply String.eqb_refl]).
        congruence.
  - intros m. apply assoc_set_keys.
  - intros r' Hin. apply in_map_iff in Hin as ([r v] & <- & Hin).
    exists r, v. split; [assumption|]. simpl. split.
    + intros k Hk. rewrite lookup_assoc_set.
      destruct (String.eqb_spec k n); congruence.
    + intros k. apply assoc_set_keys.
Qed.

Lemma set_column_rows df n d vs df' :
  set_column df n d vs = Ok df' ->
  forall r', In r' (rows df') ->
    exists r v,
      In (r, v) (combine (rows df) vs)
      /\ lookup n (fields r') = Some v
      /\ (forall k, k <> n -> lookup k (fields r') = lookup k (fields r)).
Proof.
  intros H. apply set_column_ok in H as (_ & _ & Hr). rewrite Hr.
  intros r' Hin. apply in_map_iff in Hin as ([r v] & <- & Hin).
  exists r, v. split; [assumption|]. simpl. split.
  - now rewrite lookup_assoc_set, String.eqb_refl.
  - intros k Hk. rewrite lookup_assoc_set.
    destruct (String.eqb_spec k n); congruence.
Qed.

Lemma mapM_In {A B : Type} (g : A -> result B) l vs :
  mapM g l = Ok vs -> forall x v, In (x, v) (combine l vs) -> g x = Ok v.
Proof.
  revert vs; induction l as [|a l IH]; simpl; intros vs H x v Hin; [easy|].
  apply bind_ok in H as (b & Hb & H). apply bind_ok in H as (bs & Hbs & H).
  inversion H; subst vs. simpl in Hin. destruct Hin as [E|Hin].
  - now inversion E; subst.
  - now apply (IH bs).
Qed.

Lemma combine_map_l {A B C : Type} (h : A -> B) (l : list A) (vs : list C) x v :
  In (x, v) (combine l vs) -> In (h x, v) (combine (map h l) vs).
Proof.
  revert vs; induction l as [|a l IH]; intros [|w vs]; simpl; try easy.
  intros [E|Hin]; [left; now inversion E | right; now apply IH].
Qed.

Lemma combine_maps {A B C : Type} (h1 : A -> B) (h2 : A -> C) (l : list A) :
  combine (map h1 l) (map h2 l) = map (fun x => (h1 x, h2 x)) l.
Proof. induction l as [|a l IH]; simpl; [reflexivity | now rewrite IH]. Qed.

Lemma mapM_same {A : Type} (g : A -> result A) l :
  (forall x, In x l -> g x = Ok x) -> mapM g l = Ok l.
Proof.
  induction l as [|a l IH]; simpl; intros H; [reflexivity|].
  rewrite (H a) by now left. simpl. rewrite IH by auto. reflexivity.
Qed.

Lemma mapM_map {A B C : Type} (g : A -> result B) (h : C -> A) (k : C -> B) l :
  (forall x, In x l -> g (h x) = Ok (k x)) -> mapM g (map h l) = Ok (map k l).
Proof.
  induction l as [|a l IH]; simpl; intros H; [reflexivity|].
  rewrite (H a) by now left. simpl. rewrite IH by auto. reflexivity.
Qed.

(** Writing a column back changes nothing. *)
Lemma set_column_same df n d :
  occurrences n (names df) = 1%nat ->
  lookup n (columns df) = Some d ->
  (forall r, In r (rows df) -> exists c, lookup n (fields r) = Some c) ->
  set_column df n d (map (cell_of n) (rows df)) = Ok df.
Proof.
  intros Ho Hl Hr. unfold set_column. rewrite Ho. f_equal.
  destruct df as [cols rws]; simpl in *. f_equal.
  - now apply assoc_set_same.
  - clear Ho Hl. induction rws as [|r rws IH]; simpl; [reflexivity|].
    rewrite IH by (intros r' Hr'; apply Hr; now right). f_equal.
    destruct (Hr r (or_introl eq_refl)) as (c & Hc).
    unfold set_cell, cell_of. rewrite Hc.
    rewrite (assoc_set_same _ _ _ Hc). now destruct r.
Qed.

(** What a step leaves alone: [df'] is [df] but for the columns [T]. *)
Definition frame (T : list string) (df df' : DataFrame) : Prop :=
  (forall m, ~ In m T ->
     occurrences m (names df') = occurrences m (names df)
     /\ lookup m (columns df') = lookup m (columns df)
     /\ has_column df' m = has_column df m)
  /\ (forall m, In m (names df') -> In m T \/ In m (names df))
  /\ (forall r', In r' (rows df') ->
        exists r,
          In r (rows df)
          /\ (forall k, ~ In k T -> lookup k (fields r') = lookup k (fields r))
          /\ (forall k, In k (map fst (fields r')) ->
                        In k T \/ In k (map fst (fields r)))).

Lemma frame_refl T df : frame T df df.
Proof.
  split; [|split].
  - intros m _. auto.
  - intros m H. now right.
  - intros r Hr. exists r. split; [assumption|]. split; [reflexivity|].
    intros k Hk. now right.
Qed.

Lemma set_column_frame df n d vs df' :
  set_column df n d vs = Ok df' -> frame [n] df df'.
Proof.
  intros H. destruct (set_column_other _ _ _ _ _ H) as (Hc & Hn & Hr).
  split; [|split].
  - intros m Hm. apply Hc. intros ->. apply Hm. now left.
  - intros m Hm. apply Hn in Hm as [->|Hm]; [left; now left | now right].
  - intros r' Hr'. apply Hr in Hr' as (r & v & Hin & Hl & Hk).
    exists r. split; [now apply in_combine_l in Hin|]. split.
    + intros k Hk'. apply Hl. intros ->. apply Hk'. now left.
    + intros k Hk'. apply Hk in Hk' as [->|Hk']; [left; now left | now right].
Qed.

Lemma lookup_filter_keys {V : Type} (keep : string -> bool) k
    (l : list (string * V)) :
  keep k = true -> lookup k (filter (fun kv => keep (fst kv)) l) = lookup k l.
Proof.
  intros Hk. induction l as [|[k' w] l IH]; simpl; [reflexivity|].
  destruct (keep k') eqn:E; simpl.
  - now rewrite IH.
  - destruct (String.eqb_spec k k') as [->|_]; [congruence | exact IH].
Qed.

Lemma occurrences_filter_keys {V : Type} (keep : string -> bool) k
    (l : list (string * V)) :
  keep k = true ->
  occurrences k (map fst (filter (fun kv => keep (fst kv)) l))
  = occurrences k (map fst l).
Proof.
  intros Hk. unfold occurrences.
  induction l as [|[k' w] l IH]; simpl; [reflexivity|].
  destruct (keep k') eqn:E; simpl.
  - destruct (String.eqb k k'); simpl; now rewrite IH.
  - destruct (String.eqb_spec k k') as [->|_]; [congruence | exact IH].
Qed.

Lemma not_in_labels k labels :
  ~ In k labels -> negb (existsb (String.eqb k) labels) = true.
Proof.
  intros H. apply negb_true_iff.
  destruct (existsb (String.eqb k) labels) eqn:E; [|reflexivity].
  apply existsb_exists in E as (x & Hx & Ex). apply String.eqb_eq in Ex.
  now subst.
Qed.

Lemma drop_columns_frame labels df : frame labels df (drop_columns labels df).
Proof.
  set (keep := fun k => negb (existsb (String.eqb k) labels)).
  split; [|split].
  - intros m Hm. apply not_in_labels in Hm.
    unfold names, drop_columns; simpl.
    assert (Ho : occurrences m
                   (map fst (filter (fun kv => keep (fst kv)) (columns df)))
                 = occurrences m (map fst (columns df)))
      by now apply occurrences_filter_keys.
    split; [exact Ho|]. split.
    + now apply (lookup_filter_keys keep).
    + unfold has_column, names; simpl.
      change (existsb (String.eqb m)
                (map fst (filter (fun kv => keep (fst kv)) (columns df)))
              = existsb (String.eqb m) (map fst (columns df))).
      destruct (existsb (String.eqb m) (map fst (columns df))) eqn:E.
      * apply existsb_exists in E as (x & Hx & Ex).
        apply String.eqb_eq in Ex. subst x.
        apply existsb_exists. exists m. split; [|apply String.eqb_refl].
        apply in_map_iff in Hx as ([k w] & Ek & Hin). simpl in Ek. subst k.
        apply in_map_iff. exists (m, w). split; [reflexivity|].
        apply filter_In. split; [assumption | exact Hm].
      * destruct (existsb _ (map fst (filter _ _))) eqn:E'; [|reflexivity].
        apply existsb_exists in E' as (x & Hx & Ex).
        apply String.eqb_eq in Ex. subst x.
        apply in_map_iff in Hx as ([k w] & Ek & Hin). simpl in Ek. subst k.
        apply filter_In in Hin as [Hin _].
        assert (existsb (String.eqb m) (map fst (columns df)) = true).
        { apply existsb_exists. exists m. split; [|apply String.eqb_refl].
          apply in_map_iff. now exists (m, w). }
        congruence.
  - intros m Hm. right. unfold names, drop_columns in *; simpl in Hm.
    apply in_map_iff in Hm as ([k w] & Ek & Hin). simpl in Ek. subst k.
    apply filter_In in Hin as [Hin _]. apply in_map_iff. now exists (m, w).
  - intros r' Hr'. unfold drop_columns in Hr'; simpl in Hr'.
    apply in_map_iff in Hr' as (r & <- & Hin). exists r.
    split; [assumption|]. simpl. split.
    + intros k Hk. apply not_in_labels in Hk.
      now apply (lookup_filter_keys keep).
    + intros k Hk. right.
      apply in_map_iff in Hk as ([k' w] & Ek & Hin'). simpl in Ek. subst k'.
      apply filter_In in Hin' as [Hin' _]. apply in_map_iff. now exists (k, w).
Qed.

Lemma cell_of_lookup k r r' :
  lookup k (fields r') = lookup k (fields r) -> cell_of k r' = cell_of k r.
Proof. unfold cell_of. now intros ->. Qed.

Lemma stamp_lookup r r' :
  lookup "datetime" (fields r') = lookup "datetime" (fields r) ->
  stamp r' = stamp r.
Proof. intros H. unfold stamp. now rewrite (cell_of_lookup _ _ _ H). Qed.

(** What a frame preserves *)

Lemma frame_clean_labels T df df' :
  frame T df df' -> (forall n, In n T -> clean_column_name n = n) ->
  clean_labels df -> clean_labels df'.
Proof.
  intros (_ & Hn & Hr) HT [Hnames Hkeys]. split.
  - intros n Hin. apply Hn in Hin as [Hin|Hin]; auto.
  - intros r' k Hr' Hk. apply Hr in Hr' as (r & Hin & _ & Hks).
    apply Hks in Hk as [Hk|Hk]; [auto | now apply (Hkeys r)].
Qed.

Lemma frame_uniform_period T df df' period :
  frame T df df' -> ~ In "per"%string T ->
  uniform_period period df -> uniform_period period df'.
Proof.
  intros (Hc & _ & Hr) HT [Ho Hp]. split.
  - now rewrite (proj1 (Hc _ HT)).
  - intros r' Hr'. apply Hr in Hr' as (r & Hin & Hl & _).
    rewrite (cell_of_lookup _ _ _ (Hl _ HT)). now apply Hp.
Qed.

Lemma frame_string_tickers T df df' :
  frame T df df' -> ~ In "ticker"%string T ->
  string_tickers df -> string_tickers df'.
Proof.
  intros (Hc & _ & Hr) HT (Ho & Hd & Ht).
  destruct (Hc _ HT) as (Eo & El & _). split; [congruence|].
  split; [congruence|].
  intros r' Hr'. apply Hr in Hr' as (r & Hin & Hl & _).
  rewrite (Hl _ HT). now apply Ht.
Qed.

Lemma frame_timestamped T df df' :
  frame T df df' -> ~ In "datetime"%string T -> timestamped df -> timestamped df'.
Proof.
  intros (Hc & _ & Hr) HT (Ho & Hd & Ht).
  destruct (Hc _ HT) as (Eo & El & _). split; [congruence|].
  split; [congruence|].
  intros r' Hr'. apply Hr in Hr' as (r & Hin & Hl & _).
  rewrite (Hl _ HT). now apply Ht.
Qed.

Lemma frame_integer_vol T df df' :
  frame T df df' -> ~ In "vol"%string T -> integer_vol df -> integer_vol df'.
Proof.
  intros (Hc & _ & _) HT Hv. destruct (Hc _ HT) as (Eo & El & Eh).
  unfold integer_vol, column_dtype. rewrite Eo, El, Eh. exact Hv.
Qed.

Section Rerun.
Context (fromisoformat : string -> option Z)
        (to_datetime : list cell -> option (list Z))
        (str : cell -> string) (int : cell -> option Z).

Local Abbreviation typed := (typed fromisoformat to_datetime str int).
Local Abbreviation cleaned := (cleaned fromisoformat to_datetime str int).
Local Abbreviation process_dataframe :=
  (process_dataframe fromisoformat to_datetime str int).
Local Abbreviation create_datetime :=
  (create_datetime fromisoformat to_datetime str).
Local Abbreviation cast_vol := (cast_vol int).
Local Abbreviation dated_by_date_time := (dated_by_date_time fromisoformat str).
Local Abbreviation rerunnable := (rerunnable fromisoformat str).

Lemma frame_dated T df df' :
  frame T df df' ->
  ~ In "date"%string T -> ~ In "time"%string T -> ~ In "datetime"%string T ->
  dated_by_date_time df -> dated_by_date_time df'.
Proof.
  intros (Hc & _ & Hr) Td Tt Ts Hd.
  destruct (Hc _ Td) as (Eod & _ & Ehd). destruct (Hc _ Tt) as (Eot & _ & Eht).
  unfold Cleaner.dated_by_date_time. rewrite Ehd, Eht, Eod, Eot. intros Hb.
  destruct (Hd Hb) as (Od & Ot & Hrows). split; [assumption|].
  split; [assumption|].
  intros r' Hr'. apply Hr in Hr' as (r & Hin & Hl & _).
  rewrite (cell_of_lookup _ _ _ (Hl _ Td)), (cell_of_lookup _ _ _ (Hl _ Tt)),
    (stamp_lookup _ _ (Hl _ Ts)).
  now apply Hrows.
Qed.

(** *** The first run leaves a table the next run can take *)

Lemma rename_clean_labels raw :
  clean_labels (rename_columns clean_column_name raw).
Proof.
  split.
  - intros n Hn. unfold names, rename_columns in Hn; simpl in Hn.
    rewrite map_map in Hn. apply in_map_iff in Hn as (nd & <- & _). simpl.
    apply clean_column_name_idem.
  - intros r k Hr Hk. simpl in Hr. apply in_map_iff in Hr as (r0 & <- & _).
    simpl in Hk. rewrite map_map in Hk.
    apply in_map_iff in Hk as (nc & <- & _). simpl.
    apply clean_column_name_idem.
Qed.

Lemma convert_ticker_frame df df' :
  convert_ticker df = Ok df' ->
  frame ["ticker"%string] df df' /\ string_tickers df'.
Proof.
  unfold convert_ticker. intros H.
  apply bind_ok in H as (c & Hc & H). apply bind_ok in H as (c' & Hc' & H).
  split; [now apply set_column_frame in H|].
  destruct (set_column_this _ _ _ _ _ H) as (Ho & Hl & Hr).
  split; [assumption|]. split; [assumption|].
  intros r' Hr'. apply Hr in Hr' as (r & v & Hin & Hv).
  unfold column in Hc.
  destruct (occurrences "ticker" (names df)) as [|[|k]]; try discriminate.
  inversion Hc; subst c.
  apply (combine_map_l (cell_of "ticker")) in Hin.
  apply (mapM_In _ _ _ Hc') in Hin.
  destruct (cell_of "ticker" r); try discriminate.
  inversion Hin; subst. eauto.
Qed.

Lemma create_datetime_frame df df' :
  create_datetime df = Ok df' ->
  frame ["datetime"%string] df df' /\ timestamped df' /\ dated_by_date_time df'.
Proof.
  unfold Cleaner.create_datetime. intros H.
  destruct (has_column df "date" && has_column df "time") eqn:Hdt.
  - apply bind_ok in H as (cd & Hcd & H). apply bind_ok in H as (ct & Hct & H).
    apply bind_ok in H as (c' & Hc' & H).
    pose proof (set_column_frame _ _ _ _ _ H) as Hf.
    split; [exact Hf|].
    destruct (set_column_this _ _ _ _ _ H) as (Ho & Hl & _).
    pose proof (set_column_rows _ _ _ _ _ H) as Hr.
    pose proof (column_occurrences _ _ _ Hcd) as Od.
    pose proof (column_occurrences _ _ _ Hct) as Ot.
    unfold column in Hcd, Hct. rewrite Od in Hcd. rewrite Ot in Hct.
    inversion Hcd; subst cd. inversion Hct; subst ct.
    rewrite combine_maps in Hc'.
    assert (Hrow : forall r', In r' (rows df') ->
              exists r t,
                fromisoformat (astype_str str (cell_of "date" r) ++ " "
                               ++ pad_time (astype_str str (cell_of "time" r)))
                = Some t
                /\ lookup "datetime" (fields r') = Some (CStamp t)
                /\ (forall k, k <> "datetime"%string ->
                      lookup k (fields r') = lookup k (fields r))).
    { intros r' Hr'. apply Hr in Hr' as (r & v & Hin & Hv & Hk).
      apply (combine_map_l
               (fun x => (cell_of "date" x, cell_of "time" x))) in Hin.
      apply (mapM_In _ _ _ Hc') in Hin. simpl in Hin.
      destruct (fromisoformat _) as [t|] eqn:Ef; [|discriminate].
      inversion Hin; subst v. exists r, t. auto. }
    split.
    + split; [assumption|]. split; [assumption|].
      intros r' Hr'. apply Hrow in Hr' as (r & t & _ & Hv & _). eauto.
    + intros _. destruct Hf as (Hc & _ & _).
      assert (Nd : ~ In "date"%string ["datetime"%string])
        by (simpl; intuition discriminate).
      assert (Nt : ~ In "time"%string ["datetime"%string])
        by (simpl; intuition discriminate).
      rewrite (proj1 (Hc _ Nd)), (proj1 (Hc _ Nt)).
      split; [assumption|]. split; [assumption|].
      intros r' Hr'. apply Hrow in Hr' as (r & t & Hiso & Hv & Hk).
      rewrite (cell_of_lookup _ _ _ (Hk "date"%string ltac:(discriminate))),
        (cell_of_lookup _ _ _ (Hk "time"%string ltac:(discriminate))).
      rewrite Hiso. unfold stamp, cell_of. now rewrite Hv.
  - destruct (has_column df "datetime") eqn:Hh; [|discriminate].
    apply bind_ok in H as (c & Hc & H).
    destruct (to_datetime c) as [ts|]; [|discriminate].
    destruct (List.length ts =? List.length c)%nat; [|discriminate].
    pose proof (set_column_frame _ _ _ _ _ H) as Hf.
    split; [exact Hf|].
    destruct (set_column_this _ _ _ _ _ H) as (Ho & Hl & Hr). split.
    + split; [assumption|]. split; [assumption|].
      intros r' Hr'. apply Hr in Hr' as (r & v & Hin & Hv).
      apply in_combine_r, in_map_iff in Hin as (t & <- & _). eauto.
    + destruct Hf as (Hcols & _ & _).
      assert (Nd : ~ In "date"%string ["datetime"%string])
        by (simpl; intuition discriminate).
      assert (Nt : ~ In "time"%string ["datetime"%string])
        by (simpl; intuition discriminate).
      unfold Cleaner.dated_by_date_time.
      rewrite (proj2 (proj2 (Hcols _ Nd))), (proj2 (proj2 (Hcols _ Nt))), Hdt.
      discriminate.
Qed.

Lemma cast_vol_frame df df' :
  cast_vol df = Ok df' -> frame ["vol"%string] df df' /\ integer_vol df'.
Proof.
  unfold Cleaner.cast_vol. intros H.
  destruct (has_column df "vol") eqn:Hh.
  - apply bind_ok in H as (d & Hd & H).
    destruct (is_integer_dtype d) eqn:Hi; simpl in H.
    + inversion H; subst df'. split; [apply frame_refl|].
      intros _. eauto.
    + apply bind_ok in H as (c & Hc & H). apply bind_ok in H as (c' & Hc' & H).
      split; [now apply set_column_frame in H|].
      destruct (set_column_this _ _ _ _ _ H) as (Ho & Hl & _).
      intros _. exists int64. unfold column_dtype. now rewrite Ho, Hl.
  - inversion H; subst df'. split; [apply frame_refl|].
    intros Hv. congruence.
Qed.

Lemma drop_columns_has labels df m :
  In m labels -> has_column (drop_columns labels df) m = false.
Proof.
  intros Hm. unfold has_column, names, drop_columns; simpl.
  destruct (existsb _ _) eqn:E; [|reflexivity].
  apply existsb_exists in E as (x & Hx & Ex). apply String.eqb_eq in Ex.
  subst x. apply in_map_iff in Hx as ([k w] & Ek & Hin). simpl in Ek. subst k.
  apply filter_In in Hin as [_ Hk]. simpl in Hk.
  apply negb_true_iff in Hk.
  assert (existsb (String.eqb m) labels = true)
    by (apply existsb_exists; exists m; split;
        [assumption | apply String.eqb_refl]).
  congruence.
Qed.

Lemma drop_date_time_frame args df :
  frame ["date"; "time"]%string df (drop_date_time args df)
  /\ date_time_dropped args (drop_date_time args df)
  /\ (dated_by_date_time df -> dated_by_date_time (drop_date_time args df)).
Proof.
  unfold drop_date_time.
  destruct (negb (keep_date_time args)
            && (has_column df "date" && has_column df "time")) eqn:E.
  - split; [apply drop_columns_frame|].
    assert (Hd : has_column (drop_columns ["date"; "time"]%string df) "date"
                 = false)
      by (apply drop_columns_has; now left).
    split.
    + unfold date_time_dropped. rewrite Hd. simpl. apply andb_false_r.
    + intros _. unfold Cleaner.dated_by_date_time. rewrite Hd. discriminate.
  - split; [apply frame_refl|]. split; [exact E | auto].
Qed.

Lemma typed_rerunnable raw args mid period :
  typed raw args = Ok (mid, period) -> rerunnable args period mid.
Proof.
  unfold Cleaner.typed. intros H.
  set (df0 := rename_columns clean_column_name raw) in H.
  apply bind_ok in H as (p & Hp & H).
  apply bind_ok in H as (df1 & H1 & H).
  apply bind_ok in H as (df2 & H2 & H).
  apply bind_ok in H as (df3 & H3 & H).
  inversion H; subst mid p; clear H.
  pose proof (rename_clean_labels raw) as L0. fold df0 in L0.
  apply check_period_ok in Hp as (_ & Po & Pc).
  assert (P0 : uniform_period period df0) by (split; assumption).
  apply convert_ticker_frame in H1 as (F1 & T1).
  apply create_datetime_frame in H2 as (F2 & S2 & D2).
  apply cast_vol_frame in H3 as (F3 & V3).
  destruct (drop_date_time_frame args df3) as (F4 & X4 & D4).
  assert (N : forall a b : string, a <> b -> ~ In a [b])
    by (intros a b Hab [E|[]]; congruence).
  assert (N2 : forall a b c : string, a <> b -> a <> c -> ~ In a [b; c])
    by (intros a b c Hab Hac [E|[E|[]]]; congruence).
  assert (C : forall T, (forall n, In n T -> In n ["ticker"; "datetime"; "vol";
                                                    "date"; "time"]%string) ->
                        forall n, In n T -> clean_column_name n = n).
  { intros T HT n Hn. apply HT in Hn.
    repeat (destruct Hn as [<-|Hn]; [reflexivity|]). destruct Hn. }
  unfold Cleaner.rerunnable.
  split; [|split; [|split; [|split; [|split; [|split]]]]].
  - apply (frame_clean_labels _ _ _ F4); [apply C; simpl; tauto|].
    apply (frame_clean_labels _ _ _ F3); [apply C; simpl; tauto|].
    apply (frame_clean_labels _ _ _ F2); [apply C; simpl; tauto|].
    apply (frame_clean_labels _ _ _ F1); [apply C; simpl; tauto|].
    exact L0.
  - apply (frame_uniform_period _ _ _ _ F4); [apply N2; discriminate|].
    apply (frame_uniform_period _ _ _ _ F3); [apply N; discriminate|].
    apply (frame_uniform_period _ _ _ _ F2); [apply N; discriminate|].
    apply (frame_uniform_period _ _ _ _ F1); [apply N; discriminate|].
    exact P0.
  - apply (frame_string_tickers _ _ _ F4); [apply N2; discriminate|].
    apply (frame_string_tickers _ _ _ F3); [apply N; discriminate|].
    apply (frame_string_tickers _ _ _ F2); [apply N; discriminate|].
    exact T1.
  - apply (frame_timestamped _ _ _ F4); [apply N2; discriminate|].
    apply (frame_timestamped _ _ _ F3); [apply N; discriminate|]. exact S2.
  - apply D4.
    apply (frame_dated _ _ _ F3); try (apply N; discriminate). exact D2.
  - apply (frame_integer_vol _ _ _ F4); [apply N2; discriminate|]. exact V3.
  - exact X4.
Qed.

Lemma rerunnable_rows args period df df' :
  columns df' = columns df ->
  (forall r, In r (rows df') -> In r (rows df)) ->
  rerunnable args period df -> rerunnable args period df'.
Proof.
  intros Hc Hr (L & P & T & S & D & V & X).
  assert (Hn : names df' = names df) by (unfold names; now rewrite Hc).
  assert (Hh : forall m, has_column df' m = has_column df m)
    by (intros m; unfold has_column; now rewrite Hn).
  unfold Cleaner.rerunnable.
  split; [|split; [|split; [|split; [|split; [|split]]]]].
  - destruct L as [L1 L2]. split.
    + intros n Hin. apply L1. now rewrite <- Hn.
    + intros r k Hin. apply L2. now apply Hr.
  - destruct P as [P1 P2]. split; [now rewrite Hn | auto].
  - destruct T as (T1 & T2 & T3). split; [now rewrite Hn|].
    split; [now rewrite Hc | auto].
  - destruct S as (S1 & S2 & S3). split; [now rewrite Hn|].
    split; [now rewrite Hc | auto].
  - unfold Cleaner.dated_by_date_time. rewrite !Hh, Hn. intros Hb.
    destruct (D Hb) as (D1 & D2 & D3). auto.
  - unfold integer_vol, column_dtype. rewrite Hh, Hn, Hc. exact V.
  - unfold date_time_dropped. rewrite !Hh. exact X.
Qed.

(** *** The next run changes nothing *)

Lemma rename_same df :
  clean_labels df -> rename_columns clean_column_name df = df.
Proof.
  intros [L1 L2]. destruct df as [cols rws]. unfold rename_columns; simpl.
  unfold names in L1; simpl in L1, L2. f_equal.
  - rewrite <- (map_id cols) at 2. apply map_ext_in. intros [n d] Hin. simpl.
    f_equal. apply L1. apply in_map_iff. now exists (n, d).
  - rewrite <- (map_id rws) at 2. apply map_ext_in. intros [l fs] Hin. simpl.
    f_equal. rewrite <- (map_id fs) at 2. apply map_ext_in.
    intros [k c] Hk. simpl. f_equal. apply (L2 _ _ Hin). simpl.
    apply in_map_iff. now exists (k, c).
Qed.

Lemma check_period_same df period :
  uniform_period period df -> rows df <> [] -> check_period df = Ok period.
Proof.
  intros [Ho Hp] Hne. unfold check_period, column. rewrite Ho. simpl.
  rewrite (unique_cells_repeat period).
  - simpl. f_equal. destruct (rows df) as [|r l] eqn:E; [congruence|].
    simpl. apply Hp. now left.
  - intros E. apply map_eq_nil in E. contradiction.
  - intros x Hx. apply in_map_iff in Hx as (r & <- & Hr). now apply Hp.
Qed.

Lemma convert_ticker_same df :
  string_tickers df -> stable_tickers df = true -> convert_ticker df = Ok df.
Proof.
  intros (To & Tl & Tr) Hs. unfold convert_ticker, column. rewrite To. simpl.
  rewrite (mapM_same _ (map (cell_of "ticker") (rows df))).
  - simpl. apply set_column_same; try assumption.
    intros r Hr. destruct (Tr r Hr) as (t & Ht). eauto.
  - intros c Hc. apply in_map_iff in Hc as (r & <- & Hr).
    unfold stable_tickers in Hs. rewrite forallb_forall in Hs.
    specialize (Hs r Hr). destruct (cell_of "ticker" r); try discriminate.
    apply String.eqb_eq in Hs. now rewrite Hs.
Qed.

Lemma timestamped_cells df r :
  timestamped df -> In r (rows df) -> cell_of "datetime" r = CStamp (stamp r).
Proof.
  intros (_ & _ & Sr) Hr. destruct (Sr r Hr) as (t & Ht).
  unfold stamp, cell_of. now rewrite Ht.
Qed.

Lemma create_datetime_same df :
  timestamped df -> dated_by_date_time df ->
  to_datetime (map (cell_of "datetime") (rows df)) = Some (map stamp (rows df)) ->
  create_datetime df = Ok df.
Proof.
  intros S D Hto. pose proof S as (So & Sl & Sr).
  assert (Hcells : map (cell_of "datetime") (rows df)
                   = map (fun r => CStamp (stamp r)) (rows df))
    by (apply map_ext_in; intros r Hr; now apply (timestamped_cells df)).
  assert (Hset : set_column df "datetime" datetime64
                   (map (fun r => CStamp (stamp r)) (rows df)) = Ok df).
  { rewrite <- Hcells. apply set_column_same; try assumption.
    intros r Hr. destruct (Sr r Hr) as (t & Ht). eauto. }
  unfold Cleaner.create_datetime.
  destruct (has_column df "date" && has_column df "time") eqn:Hdt.
  - destruct (D Hdt) as (Od & Ot & Dr). unfold column. rewrite Od, Ot.
    cbn [bind]. rewrite combine_maps.
    rewrite (mapM_map _ _ (fun r => CStamp (stamp r))).
    + cbn [bind]. exact Hset.
    + intros r Hr. cbn [fst snd]. now rewrite (Dr r Hr).
  - assert (Hh : has_column df "datetime" = true).
    { unfold has_column. apply existsb_exists. exists "datetime"%string.
      split; [|reflexivity]. apply occurrences_pos_In. now rewrite So. }
    rewrite Hh. unfold column. rewrite So. simpl. rewrite Hto.
    rewrite !length_map, Nat.eqb_refl. rewrite map_map. exact Hset.
Qed.

Lemma cast_vol_same df : integer_vol df -> cast_vol df = Ok df.
Proof.
  intros V. unfold Cleaner.cast_vol.
  destruct (has_column df "vol") eqn:Hh; [|reflexivity].
  destruct (V Hh) as (d & Hd & Hi). rewrite Hd. simpl. now rewrite Hi.
Qed.

Lemma rerunnable_typed args period df :
  rerunnable args period df -> rows df <> [] -> stable_tickers df = true ->
  to_datetime (map (cell_of "datetime") (rows df)) = Some (map stamp (rows df)) ->
  typed df args = Ok (df, period).
Proof.
  intros (L & P & T & S & D & V & X) Hne Hs Hto. unfold Cleaner.typed.
  cbv zeta. rewrite (rename_same df L), (check_period_same _ _ P Hne).
  cbn [bind]. rewrite (convert_ticker_same _ T Hs). cbn [bind].
  rewrite (create_datetime_same _ S D Hto). cbn [bind].
  rewrite (cast_vol_same _ V). cbn [bind].
  unfold drop_date_time. unfold date_time_dropped in X. now rewrite X.
Qed.

Lemma kept_rows_same args mid out :
  rows out = kept_rows args mid -> kept_rows args out = rows out.
Proof.
  intros Hout.
  assert (Hstrict : StronglySorted (key_lt stamp) (rows out)).
  { rewrite Hout. unfold kept_rows.
    apply (sort_by_strict stamp), drop_duplicates_NoDup. }
  assert (Hpass : rows (drop_extended_hours args (drop_by_dates args out))
                  = rows out).
  { destruct (filters_by_stamp args out) as (Q & HQ). rewrite HQ.
    apply filter_all, Forall_forall. intros r Hr.
    assert (Hin : In r (rows (drop_extended_hours args
                                (drop_by_dates args out)))).
    { pose proof Hr as Hk. rewrite Hout in Hk.
      apply kept_rows_In in Hk as (_ & Hs & He & Hx).
      now apply filters_pass. }
    rewrite HQ in Hin. now apply filter_In in Hin. }
  unfold kept_rows. rewrite Hpass.
  rewrite drop_duplicates_id.
  - apply (sort_by_id stamp), strict_le, Hstrict.
  - apply (strict_NoDup stamp), Hstrict.
  - apply Forall_forall. intros r _ [].
Qed.

(** A run on the table a run returned returns it again. *)
Lemma cleaned_again env raw args out period :
  cleaned env raw args = Ok (out, period) ->
  rows out <> [] -> stable_tickers out = true ->
  to_datetime (map (cell_of "datetime") (rows out))
  = Some (map stamp (rows out)) ->
  cleaned env out args = Ok (out, period).
Proof.
  intros H Hne Hs Hto.
  apply cleaned_ok in H as (mid & Htyped & Hc & Hr & Hi).
  assert (R : rerunnable args period out).
  { apply (rerunnable_rows args period mid); [assumption | |].
    - intros r Hin. rewrite Hr in Hin. now apply kept_rows_In in Hin.
    - now apply typed_rerunnable in Htyped. }
  pose proof (rerunnable_typed _ _ _ R Hne Hs Hto) as Ht.
  destruct (cleaned env out args) as [[out' p']|e] eqn:E.
  - apply cleaned_ok in E as (mid' & Ht' & Hc' & Hr' & _).
    rewrite Ht in Ht'. inversion Ht'; subst mid' p'.
    rewrite (kept_rows_same args mid out Hr) in Hr'.
    f_equal. f_equal. destruct out', out; simpl in *; congruence.
  - unfold Cleaner.cleaned in E. rewrite Ht in E. simpl in E.
    rewrite Hi in E. discriminate.
Qed.

End Rerun.

End RerunFacts.

Module RerunTheorems.
Import Cleaner ListFacts CleanerFacts RerunFacts.

(** C4 as stated fails: a run that drops every row returns a table
    without rows, and the next run on it raises, the period no longer being
    unique. *)
Lemma cleaning_again_fails_on_empty_series :
  (exists lines,
     Examples.run Examples.raw_early Examples.futures_args
     = Some (Ok (Examples.clean_early, lines)))
  /\ rows Examples.clean_early = []
  /\ exists e,
       Examples.run Examples.clean_early Examples.futures_args
       = Some (Raise e).
Proof.
  split; [eexists; vm_compute; reflexivity|].
  split; [reflexivity|]. eexists. vm_compute. reflexivity.
Qed.

(** The ticker clean-up can leave a ticker it would change again: a
    second run then returns another table. *)
Lemma cleaning_again_changes_nested_ticker :
  exists out1 lines1 out2 lines2,
    Examples.run Examples.raw_nested Examples.futures_args
    = Some (Ok (out1, lines1))
    /\ Examples.run out1 Examples.futures_args = Some (Ok (out2, lines2))
    /\ map (cell_of "ticker") (rows out1) = [CStr "SPFB"]
    /\ map (cell_of "ticker") (rows out2) = [CStr ""].
Proof.
  do 4 eexists. split; [vm_compute; reflexivity|].
  split; [vm_compute; reflexivity|]. split; reflexivity.
Qed.

(** C4, amended. When a run of the pipeline succeeds and returns a table
    that has a row and whose tickers the ticker clean-up leaves as they
    are, then, [pd.to_datetime] leaving its timestamps as they are, a run
    on that table with the same options succeeds and returns the same
    table and the same report. *)
Theorem cleaning_again_changes_nothing
    fromisoformat to_datetime str int fuel env raw args out lines :
  process_dataframe fromisoformat to_datetime str int fuel env raw args
  = Some (Ok (out, lines)) ->
  rows out <> [] ->
  stable_tickers out = true ->
  to_datetime (map (cell_of "datetime") (rows out))
  = Some (map stamp (rows out)) ->
  process_dataframe fromisoformat to_datetime str int fuel env out args
  = Some (Ok (out, lines)).
Proof.
  intros H Hne Hs Hto.
  destruct (process_dataframe_ok _ _ _ _ _ _ _ _ _ _ H) as (period & Hc).
  pose proof (cleaned_again _ _ _ _ _ _ _ _ _ Hc Hne Hs Hto) as Hc'.
  unfold process_dataframe in *. rewrite Hc in H. now rewrite Hc'.
Qed.

Lemma cleaning_again_changes_nothing_witness :
  Examples.run Examples.raw Examples.futures_args
  = Some (Ok (Examples.clean, Examples.clean_lines))
  /\ rows Examples.clean <> []
  /\ stable_tickers Examples.clean = true
  /\ Examples.to_datetime (map (cell_of "datetime") (rows Examples.clean))
     = Some (map stamp (rows Examples.clean))
  /\ Examples.run Examples.clean Examples.futures_args
     = Some (Ok (Examples.clean, Examples.clean_lines)).
Proof.
  split; [reflexivity|]. split; [discriminate|].
  split; [reflexivity|]. split; [reflexivity|].
  apply (cleaning_again_changes_nothing
           Examples.fromisoformat Examples.to_datetime Examples.str
           Examples.int 520 Examples.env Examples.raw Examples.futures_args
           Examples.clean Examples.clean_lines);
    [reflexivity | discriminate | reflexivity | reflexivity].
Defined.

End RerunTheorems.
